(** * plugin.audio.squeezebox: the CherryPy compatibility layer and the MAC helper

    A shallow embedding of [resources/lib/cherrypy/_cpcompat.py] and of
    [get_mac] from [resources/lib/utils.py].

    Python values are an inductive type, byte strings are lists of [byte],
    unicode strings are lists of code points.  Exceptions are values of
    [exn] and every fallible function returns a [result].  The interpreter
    the module is loaded in is a record [Runtime]: its version, the modules
    that can be imported, and the library primitives the module binds at
    import time.  Floating point numbers are left out of the values; where
    a library function would produce one, its model stops with
    [NotModelled]. *)

From Stdlib Require Import List String Ascii Strings.Byte NArith ZArith Bool Arith Lia.
From Stdlib Require Import DecimalString.
From Stdlib Require DecimalFacts DecimalPos.
From Equations Require Import Equations.
Import ListNotations.

Set Warnings "-register-all".

(** ** Byte strings, unicode strings, exceptions *)

Definition bytes := list byte.
Definition text := list N.

Definition byte_of_N (n : N) : byte :=
  match Byte.of_N (n mod 256) with
  | Some b => b
  | None => x00
  end.

(** A literal of the source, as the byte string it denotes. *)
Definition b_lit (s : string) : bytes := list_byte_of_string s.

(** A literal of the source, as the unicode string it denotes. *)
Definition u_lit (s : string) : text := map Byte.to_N (list_byte_of_string s).

Inductive exn : Type :=
| TypeError (msg : string)
| ValueError (msg : string)
| AttributeError (msg : string)
| LookupError (msg : string)
| UnicodeEncodeError (codec : string) (position : nat) (reason : string)
| UnicodeDecodeError (codec : string) (position : nat) (reason : string)
| BinasciiError (msg : string)
| RecursionError (msg : string)
| NotModelled (what : string).

Inductive result (A : Type) : Type :=
| Ok (a : A)
| Raise (e : exn).

Arguments Ok {A} a.
Arguments Raise {A} e.

Definition bind {A B : Type} (r : result A) (k : A -> result B) : result B :=
  match r with
  | Ok a => k a
  | Raise e => Raise e
  end.

Declare Scope py_scope.
Delimit Scope py_scope with py.
Notation "x <- r ;; k" := (bind r (fun x => k))
  (at level 61, r at next level, right associativity) : py_scope.
Notation "r ;;; k" := (bind r (fun _ => k))
  (at level 61, right associativity) : py_scope.
Open Scope py_scope.

(** A generator run to its end: the items it yielded, then the exception
    that ended it, or [None] when it was exhausted. *)
Record Gen (A : Type) : Type := mkGen {
  yielded : list A;
  stopped_by : option exn
}.

Arguments mkGen {A} yielded stopped_by.
Arguments yielded {A} g.
Arguments stopped_by {A} g.

(** ** Python values *)

(** The values the functions below are applied to.  Floating point
    numbers are left out. *)
Inductive PyVal : Type :=
| VNone
| VBool (b : bool)
| VInt (z : Z)
| VBytes (b : bytes)
| VText (t : text)
| VList (items : list PyVal)
| VDict (items : list (PyVal * PyVal)).

(** ** Codecs *)

(** What a codec can fail with: a position it could not handle and the
    reason, or an error handler it does not know. *)
Inductive codec_error : Type :=
| Unhandled (position : nat) (reason : string)
| UnknownHandler (name : string).

(** A codec between text and bytes.  The codecs of Python 2 that map
    bytes to bytes ([hex], [base64], [zlib] and the like) are not of this
    kind and are left out: a statement made here about an encoding is
    made about the text codecs only. *)
Record Codec : Type := mkCodec {
  codec_name : string;
  codec_encode : string -> text -> codec_error + bytes;
  codec_decode : string -> bytes -> codec_error + text
}.

(** The three error handlers every codec below knows. *)
Inductive handler : Type := Strict | Ignore | Replace.

Definition handler_of (errors : string) : option handler :=
  if String.eqb errors "strict" then Some Strict
  else if String.eqb errors "ignore" then Some Ignore
  else if String.eqb errors "replace" then Some Replace
  else None.

(** Encoding one code point at a time: [enc1 c] is the bytes of [c], or
    the reason it cannot be encoded. *)
Fixpoint encode_with (enc1 : N -> string + bytes) (errors : string)
    (pos : nat) (t : text) : codec_error + bytes :=
  match t with
  | [] => inr []
  | c :: t' =>
      match enc1 c with
      | inr bs =>
          match encode_with enc1 errors (S pos) t' with
          | inr rest => inr (bs ++ rest)
          | inl e => inl e
          end
      | inl reason =>
          match handler_of errors with
          | None => inl (UnknownHandler errors)
          | Some Strict => inl (Unhandled pos reason)
          | Some Ignore => encode_with enc1 errors (S pos) t'
          | Some Replace =>
              match encode_with enc1 errors (S pos) t' with
              | inr rest => inr (x3f :: rest)
              | inl e => inl e
              end
          end
      end
  end.

(** What a decoder finds at the head of its input: a code point made of
    the first [n] bytes, or [n] bytes it cannot decode and the reason. *)
Inductive scan : Type :=
| Decoded (c : N) (n : nat)
| Bad (n : nat) (reason : string).

(** The decoding loop: [sc] looks at the input from the current position,
    [skip] counts the bytes of the current sequence still to pass over. *)
Fixpoint decode_with (sc : bytes -> scan) (errors : string)
    (skip pos : nat) (b : bytes) : codec_error + text :=
  match b with
  | [] => inr []
  | _ :: b' =>
      match skip with
      | S k => decode_with sc errors k (S pos) b'
      | O =>
          match sc b with
          | Decoded c n =>
              match decode_with sc errors (pred n) (S pos) b' with
              | inr rest => inr (c :: rest)
              | inl e => inl e
              end
          | Bad n reason =>
              match handler_of errors with
              | None => inl (UnknownHandler errors)
              | Some Strict => inl (Unhandled pos reason)
              | Some Ignore => decode_with sc errors (pred n) (S pos) b'
              | Some Replace =>
                  match decode_with sc errors (pred n) (S pos) b' with
                  | inr rest => inr (65533%N :: rest)
                  | inl e => inl e
                  end
              end
          end
      end
  end.

(** *** ISO-8859-1 and ASCII *)

Definition latin1_enc1 (c : N) : string + bytes :=
  if (c <? 256)%N then inr [byte_of_N c] else inl "ordinal not in range(256)"%string.

Definition latin1_scan (b : bytes) : scan :=
  match b with
  | x :: _ => Decoded (Byte.to_N x) 1
  | [] => Bad 0 EmptyString
  end.

Definition latin_1 : Codec :=
  mkCodec "latin-1" (fun errors => encode_with latin1_enc1 errors 0)
          (fun errors => decode_with latin1_scan errors 0 0).

Definition ascii_enc1 (c : N) : string + bytes :=
  if (c <? 128)%N then inr [byte_of_N c] else inl "ordinal not in range(128)"%string.

Definition ascii_scan (b : bytes) : scan :=
  match b with
  | x :: _ =>
      if (Byte.to_N x <? 128)%N then Decoded (Byte.to_N x) 1
      else Bad 1 "ordinal not in range(128)"
  | [] => Bad 0 EmptyString
  end.

Definition ascii_codec : Codec :=
  mkCodec "ascii" (fun errors => encode_with ascii_enc1 errors 0)
          (fun errors => decode_with ascii_scan errors 0 0).

(** *** UTF-8 *)

Definition is_surrogate (c : N) : bool := ((55296 <=? c) && (c <? 57344))%N.

Definition utf8_enc1 (c : N) : string + bytes :=
  if (c <? 128)%N then inr [byte_of_N c]
  else if (c <? 2048)%N then
    inr [byte_of_N (192 + c / 64); byte_of_N (128 + c mod 64)]
  else if (c <? 65536)%N then
    if is_surrogate c then inl "surrogates not allowed"%string
    else inr [byte_of_N (224 + c / 4096); byte_of_N (128 + (c / 64) mod 64);
              byte_of_N (128 + c mod 64)]
  else if (c <? 1114112)%N then
    inr [byte_of_N (240 + c / 262144); byte_of_N (128 + (c / 4096) mod 64);
         byte_of_N (128 + (c / 64) mod 64); byte_of_N (128 + c mod 64)]
  else inl "code point not in range(0x110000)"%string.

Definition is_continuation (x : byte) : bool :=
  ((128 <=? Byte.to_N x) && (Byte.to_N x <? 192))%N.

(** The decoder of CPython 3: the lead byte selects the length, the second
    byte is checked against the lead (no overlong forms, no surrogates,
    nothing above U+10FFFF), and an ill-formed sequence is as long as its
    well-formed start. *)
Definition utf8_scan (b : bytes) : scan :=
  let bad_cont := "invalid continuation byte"%string in
  let bad_end := "unexpected end of data"%string in
  match b with
  | [] => Bad 0 EmptyString
  | x1 :: b1 =>
      let ch := Byte.to_N x1 in
      if (ch <? 128)%N then Decoded ch 1
      else if (ch <? 194)%N then Bad 1 "invalid start byte"
      else if (ch <? 224)%N then
        match b1 with
        | [] => Bad 1 bad_end
        | x2 :: _ =>
            if is_continuation x2
            then Decoded (ch * 64 + Byte.to_N x2 - 12416) 2
            else Bad 1 bad_cont
        end
      else if (ch <? 240)%N then
        match b1 with
        | [] => Bad 1 bad_end
        | x2 :: b2 =>
            let ch2 := Byte.to_N x2 in
            if negb (is_continuation x2)
               || (if (ch2 <? 160)%N then (ch =? 224)%N else (ch =? 237)%N)
            then Bad 1 bad_cont
            else
              match b2 with
              | [] => Bad 2 bad_end
              | x3 :: _ =>
                  if is_continuation x3
                  then Decoded (ch * 4096 + ch2 * 64 + Byte.to_N x3 - 925824) 3
                  else Bad 2 bad_cont
              end
        end
      else if (ch <? 245)%N then
        match b1 with
        | [] => Bad 1 bad_end
        | x2 :: b2 =>
            let ch2 := Byte.to_N x2 in
            if negb (is_continuation x2)
               || (if (ch2 <? 144)%N then (ch =? 240)%N else (ch =? 244)%N)
            then Bad 1 bad_cont
            else
              match b2 with
              | [] => Bad 2 bad_end
              | x3 :: b3 =>
                  if negb (is_continuation x3) then Bad 2 bad_cont
                  else
                    match b3 with
                    | [] => Bad 3 bad_end
                    | x4 :: _ =>
                        if is_continuation x4
                        then Decoded (ch * 262144 + ch2 * 4096
                                      + Byte.to_N x3 * 64 + Byte.to_N x4 - 63447168) 4
                        else Bad 3 bad_cont
                    end
              end
        end
      else Bad 1 "invalid start byte"
  end.

Definition utf_8 : Codec :=
  mkCodec "utf-8" (fun errors => encode_with utf8_enc1 errors 0)
          (fun errors => decode_with utf8_scan errors 0 0).

(** *** UTF-16, little endian, without a byte order mark *)

Definition utf16le_enc1 (c : N) : string + bytes :=
  if (c <? 65536)%N then
    if is_surrogate c then inl "surrogates not allowed"%string
    else inr [byte_of_N (c mod 256); byte_of_N (c / 256)]
  else if (c <? 1114112)%N then
    let hi := (55296 + (c - 65536) / 1024)%N in
    let lo := (56320 + (c - 65536) mod 1024)%N in
    inr [byte_of_N (hi mod 256); byte_of_N (hi / 256);
         byte_of_N (lo mod 256); byte_of_N (lo / 256)]
  else inl "code point not in range(0x110000)"%string.

Definition utf16le_scan (b : bytes) : scan :=
  match b with
  | [] => Bad 0 EmptyString
  | [_] => Bad 1 "truncated data"
  | x1 :: x2 :: b2 =>
      let u := (Byte.to_N x1 + 256 * Byte.to_N x2)%N in
      if negb (is_surrogate u) then Decoded u 2
      else if (56320 <=? u)%N then Bad 2 "illegal encoding"
      else
        match b2 with
        | [] => Bad 2 "unexpected end of data"
        | [_] => Bad 3 "unexpected end of data"
        | y1 :: y2 :: _ =>
            let v := (Byte.to_N y1 + 256 * Byte.to_N y2)%N in
            if ((56320 <=? v) && (v <? 57344))%N
            then Decoded (65536 + (u - 55296) * 1024 + (v - 56320)) 4
            else Bad 2 "illegal UTF-16 surrogate"
        end
  end.

Definition utf_16_le : Codec :=
  mkCodec "utf-16-le" (fun errors => encode_with utf16le_enc1 errors 0)
          (fun errors => decode_with utf16le_scan errors 0 0).

(** *** The codec registry *)

Definition is_upper (a : ascii) : bool :=
  ((65 <=? N_of_ascii a) && (N_of_ascii a <=? 90))%N.

Definition is_lower (a : ascii) : bool :=
  ((97 <=? N_of_ascii a) && (N_of_ascii a <=? 122))%N.

Definition is_digit (a : ascii) : bool :=
  ((48 <=? N_of_ascii a) && (N_of_ascii a <=? 57))%N.

Definition lower_ascii (a : ascii) : ascii :=
  if is_upper a then ascii_of_N (N_of_ascii a + 32) else a.

(** [str.lower()] on a byte string of ASCII text. *)
Fixpoint lower (s : string) : string :=
  match s with
  | EmptyString => EmptyString
  | String a s' => String (lower_ascii a) (lower s')
  end.

(** [encodings.normalize_encoding]: runs of characters other than letters,
    digits and the dot become one underscore, except at the start. *)
Fixpoint normalize_chars (punct started : bool) (s : string) : string :=
  match s with
  | EmptyString => EmptyString
  | String a s' =>
      if is_upper a || is_lower a || is_digit a || Ascii.eqb a "."%char
      then
        let rest := String a (normalize_chars false true s') in
        if punct && started then String "_"%char rest else rest
      else normalize_chars true started s'
  end.

Definition normalize_encoding (encoding : string) : string :=
  normalize_chars false false (lower encoding).

Definition latin_1_aliases : list string :=
  ["latin_1"; "iso_8859_1"; "iso8859_1"; "iso8859"; "8859"; "cp819";
   "latin1"; "latin"; "l1"; "iso_ir_100"; "ibm819"; "csisolatin1";
   "iso_8859_1_1987"]%string.

Definition ascii_aliases : list string :=
  ["ascii"; "us_ascii"; "646"; "us"; "iso646_us"; "iso_646.irv_1991";
   "iso_ir_6"; "ansi_x3.4_1968"; "ansi_x3_4_1968"; "ansi_x3.4_1986";
   "cp367"; "ibm367"; "csascii"]%string.

Definition utf_8_aliases : list string :=
  ["utf_8"; "utf8"; "u8"; "utf"; "utf8_ucs2"; "utf8_ucs4"; "cp65001"]%string.

Definition utf_16_le_aliases : list string :=
  ["utf_16_le"; "utf_16le"; "unicodelittleunmarked"]%string.

Definition mem_string (s : string) (l : list string) : bool :=
  existsb (String.eqb s) l.

(** The codecs modelled here; every other name is left to the runtime. *)
Definition builtin_codec (encoding : string) : option Codec :=
  let n := normalize_encoding encoding in
  if mem_string n latin_1_aliases then Some latin_1
  else if mem_string n ascii_aliases then Some ascii_codec
  else if mem_string n utf_8_aliases then Some utf_8
  else if mem_string n utf_16_le_aliases then Some utf_16_le
  else None.

(** ** The runtime *)

(** A JSON library: [JSONDecoder().decode] and [JSONEncoder().iterencode]. *)
Record JsonLib : Type := mkJsonLib {
  lib_decode : PyVal -> result PyVal;
  lib_iterencode : PyVal -> result (Gen PyVal)
}.

Record Runtime : Type := mkRuntime {
  (** [sys.version_info[:2]] *)
  version_info : nat * nat;
  (** [sys.maxint] of a Python 2 *)
  maxint : Z;
  (** the codecs of the interpreter besides the ones modelled above *)
  other_codecs : string -> option Codec;
  (** [base64.decodebytes], or [base64.decodestring] where that is missing *)
  base64_decodebytes_impl : bytes -> result bytes;
  (** [simplejson], when it can be imported *)
  simplejson : option JsonLib;
  (** [json] of the standard library, there from Python 2.6 on *)
  stdlib_json : JsonLib
}.

(** [six.PY3] *)
Definition PY3 (rt : Runtime) : bool := Nat.eqb (fst (version_info rt)) 3.

(** Whether [urllib.parse] imports: it is a module of Python 3. *)
Definition has_urllib_parse (rt : Runtime) : bool := PY3 rt.

(** [sys.version_info >= (major, minor)], the order of tuples. *)
Definition version_ge (rt : Runtime) (major minor : nat) : bool :=
  let (M, m) := version_info rt in
  Nat.ltb major M || (Nat.eqb M major && Nat.leb minor m).

Definition lookup_codec (rt : Runtime) (encoding : string) : option Codec :=
  match builtin_codec encoding with
  | Some c => Some c
  | None => other_codecs rt encoding
  end.

Definition unknown_encoding (encoding : string) : exn :=
  LookupError ("unknown encoding: " ++ encoding).

Definition unknown_handler (errors : string) : exn :=
  LookupError ("unknown error handler name '" ++ errors ++ "'").

(** [unicode.encode(encoding, errors)] *)
Definition text_encode (rt : Runtime) (t : text) (encoding errors : string)
  : result bytes :=
  match lookup_codec rt encoding with
  | None => Raise (unknown_encoding encoding)
  | Some c =>
      match codec_encode c errors t with
      | inr b => Ok b
      | inl (Unhandled pos reason) => Raise (UnicodeEncodeError (codec_name c) pos reason)
      | inl (UnknownHandler h) => Raise (unknown_handler h)
      end
  end.

(** [bytes.decode(encoding, errors)], with the codec looked up first, as
    Python 2 does.  CPython 3 returns the empty string for an empty byte
    string before it looks the codec up: the two differ on empty bytes
    under an unknown encoding. *)
Definition bytes_decode (rt : Runtime) (b : bytes) (encoding errors : string)
  : result text :=
  match lookup_codec rt encoding with
  | None => Raise (unknown_encoding encoding)
  | Some c =>
      match codec_decode c errors b with
      | inr t => Ok t
      | inl (Unhandled pos reason) => Raise (UnicodeDecodeError (codec_name c) pos reason)
      | inl (UnknownHandler h) => Raise (unknown_handler h)
      end
  end.

(** ** Types and methods of the values *)

(** [type(v).__name__] *)
Definition type_name (rt : Runtime) (v : PyVal) : string :=
  match v with
  | VNone => "NoneType"
  | VBool _ => "bool"
  | VInt z =>
      if PY3 rt then "int"
      else if ((- maxint rt - 1 <=? z) && (z <=? maxint rt))%Z then "int" else "long"
  | VBytes _ => if PY3 rt then "bytes" else "str"
  | VText _ => if PY3 rt then "str" else "unicode"
  | VList _ => "list"
  | VDict _ => "dict"
  end.

(** [isinstance(v, str)] *)
Definition isinstance_str (rt : Runtime) (v : PyVal) : bool :=
  match v with
  | VText _ => PY3 rt
  | VBytes _ => negb (PY3 rt)
  | _ => false
  end.

(** [isinstance(v, six.text_type)], which is [unicode] on Python 2 *)
Definition isinstance_text (v : PyVal) : bool :=
  match v with
  | VText _ => true
  | _ => false
  end.

(** [isinstance(v, bytes)] *)
Definition isinstance_bytes (v : PyVal) : bool :=
  match v with
  | VBytes _ => true
  | _ => false
  end.

Definition no_attribute (rt : Runtime) (v : PyVal) (attr : string) : exn :=
  AttributeError ("'" ++ type_name rt v ++ "' object has no attribute '" ++ attr ++ "'").

(** [v.encode(encoding, errors)].  A Python 2 byte string is first decoded
    with the default encoding. *)
Definition py_encode (rt : Runtime) (v : PyVal) (encoding errors : string)
  : result PyVal :=
  match v with
  | VText t => b <- text_encode rt t encoding errors ;; Ok (VBytes b)
  | VBytes b =>
      if PY3 rt then Raise (no_attribute rt v "encode")
      else t <- bytes_decode rt b "ascii" "strict" ;;
           b' <- text_encode rt t encoding errors ;; Ok (VBytes b')
  | _ => Raise (no_attribute rt v "encode")
  end.

(** [v.decode(encoding, errors)].  A Python 2 unicode string is first
    encoded with the default encoding. *)
Definition py_decode (rt : Runtime) (v : PyVal) (encoding errors : string)
  : result PyVal :=
  match v with
  | VBytes b => t <- bytes_decode rt b encoding errors ;; Ok (VText t)
  | VText t =>
      if PY3 rt then Raise (no_attribute rt v "decode")
      else b <- text_encode rt t "ascii" "strict" ;;
           t' <- bytes_decode rt b encoding errors ;; Ok (VText t')
  | _ => Raise (no_attribute rt v "decode")
  end.

(** ** [_cpcompat]: native strings *)

Definition assert_native (rt : Runtime) (n : PyVal) : result unit :=
  if negb (isinstance_str rt n)
  then Raise (TypeError ("n must be a native str (got " ++ type_name rt n ++ ")"))
  else Ok tt.

Definition is_alnum (c : N) : bool :=
  ((48 <=? c) && (c <=? 57) || (97 <=? c) && (c <=? 122)
   || (65 <=? c) && (c <=? 90))%N.

Definition hex_digit_value (c : N) : option N :=
  if ((48 <=? c) && (c <=? 57))%N then Some (c - 48)%N
  else if ((97 <=? c) && (c <=? 102))%N then Some (c - 87)%N
  else if ((65 <=? c) && (c <=? 70))%N then Some (c - 55)%N
  else None.

(** [int(s, 16)] for the four characters of a match, which are letters or
    digits: four hexadecimal digits, or [0x] and two of them. *)
Definition int16 (c1 c2 c3 c4 : N) : result N :=
  let invalid := Raise (ValueError "invalid literal for int() with base 16") in
  match hex_digit_value c3, hex_digit_value c4 with
  | Some d3, Some d4 =>
      match hex_digit_value c1, hex_digit_value c2 with
      | Some d1, Some d2 => Ok (((d1 * 16 + d2) * 16 + d3) * 16 + d4)%N
      | _, _ =>
          if ((c1 =? 48) && ((c2 =? 120) || (c2 =? 88)))%N
          then Ok (d3 * 16 + d4)%N
          else invalid
      end
  | _, _ => invalid
  end.

(** [re.sub(r'\\u([0-9a-zA-Z]{4})', lambda m: unichr(int(m.group(1), 16)), t)] *)
Fixpoint sub_escapes (t : text) : result text :=
  match t with
  | [] => Ok []
  | c :: rest =>
      match rest with
      | u :: c1 :: c2 :: c3 :: c4 :: rest' =>
          if ((c =? 92) && (u =? 117))%N
             && is_alnum c1 && is_alnum c2 && is_alnum c3 && is_alnum c4
          then ch <- int16 c1 c2 c3 c4 ;;
               r <- sub_escapes rest' ;; Ok (ch :: r)
          else r <- sub_escapes rest ;; Ok (c :: r)
      | _ => r <- sub_escapes rest ;; Ok (c :: r)
      end
  end.

Definition ntob (rt : Runtime) (n : PyVal) (encoding : string) : result PyVal :=
  if PY3 rt then
    assert_native rt n ;;;
    py_encode rt n encoding "strict"
  else
    assert_native rt n ;;;
    Ok n.

Definition ntou (rt : Runtime) (n : PyVal) (encoding : string) : result PyVal :=
  if PY3 rt then
    assert_native rt n ;;;
    Ok n
  else
    assert_native rt n ;;;
    if String.eqb encoding "escape" then
      d <- py_decode rt n "ISO-8859-1" "strict" ;;
      match d with
      | VText t => r <- sub_escapes t ;; Ok (VText r)
      | _ => Ok d
      end
    else py_decode rt n encoding "strict".

Definition tonative (rt : Runtime) (n : PyVal) (encoding : string) : result PyVal :=
  if PY3 rt then
    if isinstance_bytes n then py_decode rt n encoding "strict"
    else Ok n
  else
    if isinstance_text n then py_encode rt n encoding "strict"
    else Ok n.

(** The default of the [encoding] parameters. *)
Definition default_encoding : string := "ISO-8859-1".

(** ** [_cpcompat]: base64 *)

Definition _base64_decodebytes (rt : Runtime) (b : PyVal) : result PyVal :=
  match b with
  | VBytes x => y <- base64_decodebytes_impl rt x ;; Ok (VBytes y)
  | _ => Raise (TypeError ("expected bytes-like object, not " ++ type_name rt b))
  end.

Definition base64_decode (rt : Runtime) (n : PyVal) (encoding : string)
  : result PyVal :=
  b <- (if isinstance_text n then py_encode rt n encoding "strict" else Ok n) ;;
  b <- _base64_decodebytes rt b ;;
  if PY3 rt then py_decode rt b encoding "strict"
  else Ok b.

(** [binascii.a2b_base64] of CPython 3, the decoder behind
    [base64.decodebytes]: characters outside the alphabet are skipped, and a
    padding character ends the input once it completes a group of four. *)

Definition b64_value (x : byte) : option N :=
  let c := Byte.to_N x in
  if ((65 <=? c) && (c <=? 90))%N then Some (c - 65)%N
  else if ((97 <=? c) && (c <=? 122))%N then Some (c - 71)%N
  else if ((48 <=? c) && (c <=? 57))%N then Some (c + 4)%N
  else if (c =? 43)%N then Some 62%N
  else if (c =? 47)%N then Some 63%N
  else None.

Definition decimal (n : nat) : string := NilZero.string_of_uint (Nat.to_uint n).

Definition b64_leftover (quad_pos ndata : nat) : result bytes :=
  match quad_pos with
  | 0 => Ok []
  | 1 => Raise (BinasciiError
           ("Invalid base64-encoded string: number of data characters ("
            ++ decimal ndata ++ ") cannot be 1 more than a multiple of 4"))
  | _ => Raise (BinasciiError "Incorrect padding")
  end.

Fixpoint a2b_loop (quad_pos : nat) (leftchar : N) (pads ndata : nat) (s : bytes)
  : result bytes :=
  match s with
  | [] => b64_leftover quad_pos ndata
  | x :: s' =>
      if Byte.eqb x x3d then
        if Nat.leb 2 quad_pos then
          if Nat.leb 4 (quad_pos + S pads) then Ok []
          else a2b_loop quad_pos leftchar (S pads) ndata s'
        else a2b_loop quad_pos leftchar pads ndata s'
      else
        match b64_value x with
        | None => a2b_loop quad_pos leftchar pads ndata s'
        | Some v =>
            match quad_pos with
            | 0 => a2b_loop 1 v 0 (S ndata) s'
            | 1 =>
                r <- a2b_loop 2 (N.land v 15) 0 (S ndata) s' ;;
                Ok (byte_of_N (N.lor (N.shiftl leftchar 2) (N.shiftr v 4)) :: r)
            | 2 =>
                r <- a2b_loop 3 (N.land v 3) 0 (S ndata) s' ;;
                Ok (byte_of_N (N.lor (N.shiftl leftchar 4) (N.shiftr v 2)) :: r)
            | _ =>
                r <- a2b_loop 0 0 0 (S ndata) s' ;;
                Ok (byte_of_N (N.lor (N.shiftl leftchar 6) v) :: r)
            end
        end
  end.

Definition a2b_base64 (s : bytes) : result bytes := a2b_loop 0 0 0 0 s.

(** ** [_cpcompat]: query strings *)

Definition is_hexdig (x : byte) : bool :=
  let c := Byte.to_N x in
  ((48 <=? c) && (c <=? 57) || (65 <=? c) && (c <=? 70)
   || (97 <=? c) && (c <=? 102))%N.

Definition hexdig_value (x : byte) : N :=
  let c := Byte.to_N x in
  if (c <=? 57)%N then (c - 48)%N
  else if (c <=? 70)%N then (c - 55)%N
  else (c - 87)%N.

(** [s.split(sep)]: the first item and the items after it. *)
Fixpoint split_on (sep : byte) (s : bytes) : bytes * list bytes :=
  match s with
  | [] => ([], [])
  | x :: s' =>
      let (item, items) := split_on sep s' in
      if Byte.eqb x sep then ([], item :: items) else (x :: item, items)
  end.

(** One item after a percent sign: two hexadecimal digits give a byte;
    anything else keeps its percent sign. *)
Definition unquote_item (item : bytes) : bytes :=
  match item with
  | h1 :: h2 :: rest =>
      if is_hexdig h1 && is_hexdig h2
      then byte_of_N (hexdig_value h1 * 16 + hexdig_value h2) :: rest
      else x25 :: item
  | _ => x25 :: item
  end.

(** [urllib.parse.unquote_to_bytes], and [urllib.unquote] of Python 2 on a
    byte string: the same loop over the items between percent signs. *)
Definition unquote_to_bytes (s : bytes) : bytes :=
  let (first, items) := split_on x25 s in
  first ++ List.concat (map unquote_item items).

(** [re.compile('([\x00-\x7f]+)').split(s)]: the characters before the
    first run of ASCII, then each run with the other characters after it. *)
Fixpoint asciire_split (s : text) : text * list (text * text) :=
  match s with
  | [] => ([], [])
  | c :: s' =>
      let (other, runs) := asciire_split s' in
      if (c <? 128)%N then
        match other, runs with
        | [], (run, after) :: runs' => ([], (c :: run, after) :: runs')
        | _, _ => ([], ([c], other) :: runs)
        end
      else (c :: other, runs)
  end.

Fixpoint unquote_runs (rt : Runtime) (runs : list (text * text))
    (encoding errors : string) : result text :=
  match runs with
  | [] => Ok []
  | (run, after) :: runs' =>
      d <- bytes_decode rt (unquote_to_bytes (map byte_of_N run)) encoding errors ;;
      r <- unquote_runs rt runs' encoding errors ;;
      Ok (d ++ after ++ r)
  end.

(** [urllib.parse.unquote(s, encoding=encoding, errors=errors)] on a [str]:
    a string without a percent sign is returned as it is; otherwise every
    run of ASCII is unquoted to bytes and decoded. *)
Definition parse_unquote (rt : Runtime) (s : text) (encoding errors : string)
  : result text :=
  if negb (existsb (N.eqb 37) s) then Ok s
  else
    let (first, runs) := asciire_split s in
    r <- unquote_runs rt runs encoding errors ;;
    Ok (first ++ r).

(** [atom.replace('+', ' ')] *)
Definition replace_plus_text (atom : text) : text :=
  map (fun c => if (c =? 43)%N then 32%N else c) atom.

Definition replace_plus_bytes (atom : bytes) : bytes :=
  map (fun x => if Byte.eqb x x2b then x20 else x) atom.

(** The definition taken when [urllib.parse] imports: Python 3, where an
    atom is a [str]. *)
Definition unquote_qs_py3 (rt : Runtime) (atom : text) (encoding errors : string)
  : result text :=
  parse_unquote rt (replace_plus_text atom) encoding errors.

(** The definition taken otherwise: Python 2, where an atom is a byte
    string. *)
Definition unquote_qs_py2 (rt : Runtime) (atom : bytes) (encoding errors : string)
  : result text :=
  bytes_decode rt (unquote_to_bytes (replace_plus_bytes atom)) encoding errors.

(** [unquote_qs] on a native string. *)
Definition unquote_qs (rt : Runtime) (atom : PyVal) (encoding errors : string)
  : result PyVal :=
  if has_urllib_parse rt then
    match atom with
    | VText t => r <- unquote_qs_py3 rt t encoding errors ;; Ok (VText r)
    | VBytes _ => Raise (TypeError "a bytes-like object is required, not 'str'")
    | _ => Raise (no_attribute rt atom "replace")
    end
  else
    match atom with
    | VBytes b => r <- unquote_qs_py2 rt b encoding errors ;; Ok (VText r)
    | VText t =>
        u <- parse_unquote rt (replace_plus_text t) "latin1" "strict" ;;
        py_decode rt (VText u) encoding errors
    | _ => Raise (no_attribute rt atom "replace")
    end.

(** ** [_cpcompat]: JSON *)

(** The name [json] after the imports: [simplejson] when it is there, the
    standard library's module from Python 2.6 on, [None] otherwise. *)
Definition json (rt : Runtime) : option JsonLib :=
  match simplejson rt with
  | Some lib => Some lib
  | None => if version_ge rt 2 6 then Some (stdlib_json rt) else None
  end.

Definition no_json_library : exn := ValueError "No JSON library is available".

Definition json_decode (rt : Runtime) (s : PyVal) : result PyVal :=
  match json rt with
  | Some lib => lib_decode lib s
  | None => Raise no_json_library
  end.

Definition _json_encode (rt : Runtime) (s : PyVal) : result (Gen PyVal) :=
  match json rt with
  | Some lib => lib_iterencode lib s
  | None => Raise no_json_library
  end.

(** The body of the generator: each chunk is encoded as it is taken from
    the encoder, so the first chunk that cannot be encoded ends it. *)
Fixpoint encode_chunks (rt : Runtime) (chunks : list PyVal) (stop : option exn)
  : Gen PyVal :=
  match chunks with
  | [] => mkGen [] stop
  | chunk :: chunks' =>
      match py_encode rt chunk "utf8" "strict" with
      | Ok b =>
          let g := encode_chunks rt chunks' stop in
          mkGen (b :: yielded g) (stopped_by g)
      | Raise e => mkGen [] (Some e)
      end
  end.

(** Calling a generator function runs nothing: what [_json_encode] raises
    is raised when the generator is first advanced. *)
Definition json_encode (rt : Runtime) (value : PyVal) : result (Gen PyVal) :=
  match json rt with
  | Some _ =>
      if PY3 rt then
        Ok (match _json_encode rt value with
            | Ok g => encode_chunks rt (yielded g) (stopped_by g)
            | Raise e => mkGen [] (Some e)
            end)
      else _json_encode rt value
  | None => _json_encode rt value
  end.

(** ** [_cpcompat]: random identifiers *)

(** The entropy source of the operating system: an unbounded supply of
    bytes and how many of them have been handed out. *)
Record Entropy : Type := mkEntropy {
  pool : nat -> byte;
  drawn : nat
}.

(** [os.urandom(n)] *)
Definition urandom (n : nat) (e : Entropy) : bytes * Entropy :=
  (map (pool e) (seq (drawn e) n), mkEntropy (pool e) (drawn e + n)).

Definition hex_char (n : N) : byte :=
  if (n <? 10)%N then byte_of_N (48 + n) else byte_of_N (87 + n).

(** [binascii.hexlify] *)
Definition hexlify (b : bytes) : bytes :=
  flat_map (fun x => [hex_char (Byte.to_N x / 16); hex_char (Byte.to_N x mod 16)]) b.

Definition random20 (rt : Runtime) (e : Entropy) : result PyVal * Entropy :=
  let (raw, e') := urandom 20 e in
  (py_decode rt (VBytes (hexlify raw)) "ascii" "strict", e').

(** ** [utils]: the MAC address of the machine *)

Inductive loglevel : Type := LOGNOTICE | LOGWARNING | LOGERROR.

(** The Kodi host as [get_mac] sees it: what the label
    [Network.MacAddress] reads at each request, the requests made, the
    milliseconds slept and the lines logged so far. *)
Record Kodi : Type := mkKodi {
  mac_label : nat -> string;
  requests : nat;
  slept : N;
  kodi_log : list (loglevel * string)
}.

Definition ADDON_ID : string := "plugin.audio.squeezebox".

(** [xbmc.log] *)
Definition xbmc_log (line : string) (level : loglevel) (k : Kodi) : Kodi :=
  mkKodi (mac_label k) (requests k) (slept k) (kodi_log k ++ [(level, line)]).

(** [log_msg] on a byte string *)
Definition log_msg (msg : string) (level : loglevel) (k : Kodi) : Kodi :=
  xbmc_log (ADDON_ID ++ " --> " ++ msg) level k.

(** [xbmc.getInfoLabel("Network.MacAddress")] *)
Definition getInfoLabel (k : Kodi) : string * Kodi :=
  (mac_label k (requests k),
   mkKodi (mac_label k) (S (requests k)) (slept k) (kodi_log k)).

(** [xbmc.sleep] *)
Definition xbmc_sleep (ms : N) (k : Kodi) : Kodi :=
  mkKodi (mac_label k) (requests k) (slept k + ms)%N (kodi_log k).

(** [":" in s] *)
Fixpoint has_colon (s : string) : bool :=
  match s with
  | EmptyString => false
  | String a s' => Ascii.eqb a ":"%char || has_colon s'
  end.

(** One turn of the loop of [get_mac]. *)
Definition poll_mac (k : Kodi) : string * Kodi :=
  let k1 := log_msg "Waiting for mac address..." LOGNOTICE k in
  let (label, k2) := getInfoLabel k1 in
  (lower label, xbmc_sleep 1000%N k2).

(** The turns the loop may still take once [count] of them are done. *)
Definition turns_left (count : nat) : nat := 360 - count.

Arguments turns_left : simpl never.

(** The loop of [get_mac]; it ends because [count] grows towards 360. *)
Equations get_mac_loop (mac : string) (count : nat) (k : Kodi) : string * nat * Kodi
  by wf (turns_left count) lt :=
get_mac_loop mac count k with has_colon mac := {
  | true => (mac, count, k)
  | false with lt_dec count 360 := {
      | left _ => get_mac_loop (fst (poll_mac k)) (S count) (snd (poll_mac k))
      | right _ => (mac, count, k) } }.
Next Obligation. unfold turns_left. lia. Qed.

Definition get_mac (k : Kodi) : string * Kodi :=
  let '(mac, _, k1) := get_mac_loop EmptyString 0 k in
  match mac with
  | EmptyString => (mac, log_msg "Mac detection failed!" LOGNOTICE k1)
  | _ => (mac, log_msg ("Detected Mac-Address: " ++ mac) LOGNOTICE k1)
  end.

(** ** The [json] module of CPython 3

    [JSONEncoder().iterencode] with its defaults (ASCII only output, the
    separators [", "] and [": "], no indentation) and
    [JSONDecoder().decode] with the scanner written in C, as CPython 3.11
    has them.  Two limits of the interpreter show in both: an integer is
    not converted from or to more than 4300 decimal digits, and the
    recursion limit bounds how deep containers may be nested.  How many
    nested containers there is room for depends on the depth of the stack
    where the library is called, so this number is a parameter, [room]
    for the encoder and [depth] for the decoder. *)

Definition hex4 (n : N) : text :=
  map (fun d => Byte.to_N (hex_char d))
      [(n / 4096) mod 16; (n / 256) mod 16; (n / 16) mod 16; n mod 16]%N.

(** [\uXXXX] *)
Definition u_escape (n : N) : text := 92%N :: 117%N :: hex4 n.

(** What [encode_basestring_ascii] writes for one character. *)
Definition escape_char (c : N) : text :=
  if (c =? 92)%N then u_lit "\\"
  else if (c =? 34)%N then [92; 34]%N
  else if (c =? 8)%N then u_lit "\b"
  else if (c =? 12)%N then u_lit "\f"
  else if (c =? 10)%N then u_lit "\n"
  else if (c =? 13)%N then u_lit "\r"
  else if (c =? 9)%N then u_lit "\t"
  else if ((32 <=? c) && (c <=? 126))%N then [c]
  else if (c <? 65536)%N then u_escape c
  else
    let n := (c - 65536)%N in
    u_escape (N.lor 55296 (N.land (N.shiftr n 10) 1023))
    ++ u_escape (N.lor 56320 (N.land n 1023)).

Definition encode_basestring_ascii (s : text) : text :=
  34%N :: flat_map escape_char s ++ [34%N].

(** The decimal numeral of an integer. *)
Definition intstr (z : Z) : text := u_lit (NilZero.string_of_int (Z.to_int z)).

(** [sys.get_int_max_str_digits()] *)
Definition int_max_str_digits : nat := 4300.

(** The number of decimal digits of an integer, its sign apart. *)
Definition int_digits (z : Z) : nat := List.length (intstr (Z.abs z)).

(** [int.__repr__], which does not write more than 4300 digits. *)
Definition int_repr (z : Z) : result text :=
  if Nat.ltb int_max_str_digits (int_digits z)
  then Raise (ValueError
         ("Exceeds the limit (4300 digits) for integer string conversion; "
          ++ "use sys.set_int_max_str_digits() to increase the limit"))
  else Ok (intstr z).

Definition one {A : Type} (x : A) : Gen A := mkGen [x] None.

Definition raising {A : Type} (e : exn) : Gen A := mkGen [] (Some e).

(** One generator after another: the second runs when the first is
    exhausted. *)
Definition gen_then {A : Type} (g1 g2 : Gen A) : Gen A :=
  match stopped_by g1 with
  | Some _ => g1
  | None => mkGen (yielded g1 ++ yielded g2) (stopped_by g2)
  end.

(** The values written without recursion, with the text of each. *)
Definition atom_repr (v : PyVal) : option text :=
  match v with
  | VText s => Some (encode_basestring_ascii s)
  | VNone => Some (u_lit "null")
  | VBool true => Some (u_lit "true")
  | VBool false => Some (u_lit "false")
  | VInt z => Some (intstr z)
  | _ => None
  end.

(** What the encoder makes of such a value: its text, or the exception of
    [int.__repr__]. *)
Definition atom_chunk (v : PyVal) : option (result text) :=
  match v with
  | VInt z => Some (int_repr z)
  | _ =>
      match atom_repr v with
      | Some r => Some (Ok r)
      | None => None
      end
  end.

(** A key of a dictionary, as the string it is written as. *)
Definition key_repr (k : PyVal) : result text :=
  match k with
  | VText s => Ok s
  | VBool true => Ok (u_lit "true")
  | VBool false => Ok (u_lit "false")
  | VNone => Ok (u_lit "null")
  | VInt z => int_repr z
  | VBytes _ =>
      Raise (TypeError "keys must be str, int, float, bool or None, not bytes")
  | VList _ =>
      Raise (TypeError "keys must be str, int, float, bool or None, not list")
  | VDict _ =>
      Raise (TypeError "keys must be str, int, float, bool or None, not dict")
  end.

(** What stops the encoder where the stack has no room for one more
    nested generator. *)
Definition recursion_error : exn :=
  RecursionError "maximum recursion depth exceeded".

(** [_iterencode]: the chunks in the order they are yielded, with [room]
    for that many nested containers.  The generator of a list or of a
    dictionary, empty or not, takes one level of it. *)
Fixpoint iterencode (room : nat) (o : PyVal) {struct o} : Gen text :=
  let fix elements (r : nat) (buf : text) (l : list PyVal) {struct l} : Gen text :=
    match l with
    | [] => one (u_lit "]")
    | v :: l' =>
        gen_then
          (match atom_chunk v with
           | Some (Ok t) => one (buf ++ t)
           | Some (Raise e) => raising e
           | None => gen_then (one buf) (iterencode r v)
           end)
          (elements r (u_lit ", ") l')
    end in
  let fix members (r : nat) (first : bool) (l : list (PyVal * PyVal)) {struct l}
    : Gen text :=
    match l with
    | [] => one (u_lit "}")
    | (k, v) :: l' =>
        match key_repr k with
        | Raise e => raising e
        | Ok key =>
            gen_then
              (mkGen ((if first then [] else [u_lit ", "])
                      ++ [encode_basestring_ascii key; u_lit ": "]) None)
              (gen_then
                 (match atom_chunk v with
                  | Some (Ok t) => one t
                  | Some (Raise e) => raising e
                  | None => iterencode r v
                  end)
                 (members r false l'))
        end
    end in
  match o with
  | VList l =>
      match room with
      | 0 => raising recursion_error
      | S r =>
          match l with
          | [] => one (u_lit "[]")
          | _ => elements r (u_lit "[") l
          end
      end
  | VDict l =>
      match room with
      | 0 => raising recursion_error
      | S r =>
          match l with
          | [] => one (u_lit "{}")
          | _ => gen_then (one (u_lit "{")) (members r true l)
          end
      end
  | VBytes _ => raising (TypeError "Object of type bytes is not JSON serializable")
  | _ =>
      match atom_chunk o with
      | Some (Ok t) => one t
      | Some (Raise e) => raising e
      | None => mkGen [] None
      end
  end.

Definition json_iterencode (room : nat) (o : PyVal) : result (Gen PyVal) :=
  let g := iterencode room o in
  Ok (mkGen (map VText (yielded g)) (stopped_by g)).

Definition is_whitespace (c : N) : bool :=
  ((c =? 32) || (c =? 9) || (c =? 10) || (c =? 13))%N.

Fixpoint skip_whitespace (s : text) : text :=
  match s with
  | c :: s' => if is_whitespace c then skip_whitespace s' else s
  | [] => []
  end.

Definition hex4_value (h1 h2 h3 h4 : N) : option N :=
  match hex_digit_value h1, hex_digit_value h2, hex_digit_value h3, hex_digit_value h4 with
  | Some d1, Some d2, Some d3, Some d4 => Some (((d1 * 16 + d2) * 16 + d3) * 16 + d4)%N
  | _, _, _, _ => None
  end.

(** The character a backslash and [e] stand for. *)
Definition backslash (e : N) : option N :=
  if (e =? 34)%N then Some 34%N
  else if (e =? 92)%N then Some 92%N
  else if (e =? 47)%N then Some 47%N
  else if (e =? 98)%N then Some 8%N
  else if (e =? 102)%N then Some 12%N
  else if (e =? 110)%N then Some 10%N
  else if (e =? 114)%N then Some 13%N
  else if (e =? 116)%N then Some 9%N
  else None.

Definition is_high_surrogate (c : N) : bool := ((55296 <=? c) && (c <=? 56319))%N.
Definition is_low_surrogate (c : N) : bool := ((56320 <=? c) && (c <=? 57343))%N.

Definition join_surrogates (hi lo : N) : N :=
  (65536 + (N.lor (N.shiftl (N.land hi 1023) 10) (N.land lo 1023)))%N.

Definition json_error (msg : string) : exn := ValueError msg.

(** [scanstring] from the character after the opening quote: the string
    and the input after its closing quote. *)
Fixpoint scanstring (s : text) : result (text * text) :=
  let keep (c : N) (r : result (text * text)) :=
    p <- r ;; Ok (c :: fst p, snd p) in
  match s with
  | [] => Raise (json_error "Unterminated string starting at")
  | c :: s1 =>
      if (c =? 34)%N then Ok ([], s1)
      else if (c =? 92)%N then
        match s1 with
        | [] => Raise (json_error "Unterminated string starting at")
        | e :: s2 =>
            if (e =? 117)%N then
              match s2 with
              | h1 :: h2 :: h3 :: h4 :: ((_ :: _) as s3) =>
                  match hex4_value h1 h2 h3 h4 with
                  | None => Raise (json_error "Invalid \uXXXX escape")
                  | Some u =>
                      match s3 with
                      | b :: u' :: g1 :: g2 :: g3 :: g4 :: ((_ :: _) as s4) =>
                          if is_high_surrogate u && (b =? 92)%N && (u' =? 117)%N then
                            match hex4_value g1 g2 g3 g4 with
                            | None => Raise (json_error "Invalid \uXXXX escape")
                            | Some u2 =>
                                if is_low_surrogate u2
                                then keep (join_surrogates u u2) (scanstring s4)
                                else keep u (scanstring s3)
                            end
                          else keep u (scanstring s3)
                      | _ => keep u (scanstring s3)
                      end
                  end
              | _ => Raise (json_error "Invalid \uXXXX escape")
              end
            else
              match backslash e with
              | Some ch => keep ch (scanstring s2)
              | None => Raise (json_error "Invalid \escape")
              end
        end
      else if (c <? 32)%N then Raise (json_error "Invalid control character at")
      else keep c (scanstring s1)
  end.

Definition is_digit_cp (c : N) : bool := ((48 <=? c) && (c <=? 57))%N.

(** The digits at the head of the input, as a number, and what follows. *)
Fixpoint scan_digits (acc : N) (s : text) : N * text :=
  match s with
  | c :: s' => if is_digit_cp c then scan_digits (acc * 10 + (c - 48)) s' else (acc, s)
  | [] => (acc, [])
  end.

(** Whether a fraction or an exponent follows the integer part. *)
Definition float_follows (s : text) : bool :=
  match s with
  | c :: d :: s' =>
      ((c =? 46)%N && is_digit_cp d)
      || (((c =? 101) || (c =? 69))%N
          && (is_digit_cp d
              || (((d =? 43) || (d =? 45))%N
                  && match s' with
                     | d' :: _ => is_digit_cp d'
                     | [] => false
                     end)))
  | _ => false
  end.

(** The integer part of a number, without its sign: a zero, or digits
    that do not start with one. *)
Definition scan_natural (s : text) : option (N * text) :=
  match s with
  | c :: s' =>
      if (c =? 48)%N then Some (0%N, s')
      else if is_digit_cp c then Some (scan_digits 0 s)
      else None
  | [] => None
  end.

Definition expecting_value : exn := json_error "Expecting value".

(** What [int] raises for a numeral of more than 4300 digits. *)
Definition too_many_digits (digits : nat) : exn :=
  ValueError
    ("Exceeds the limit (4300 digits) for integer string conversion: value has "
     ++ decimal digits
     ++ " digits; use sys.set_int_max_str_digits() to increase the limit").

(** [_match_number] *)
Definition match_number (s : text) : result (PyVal * text) :=
  let finish (negative : bool) (r : option (N * text)) :=
    match r with
    | None => Raise expecting_value
    | Some (n, rest) =>
        if float_follows rest then Raise (NotModelled "float")
        else if Nat.ltb int_max_str_digits (int_digits (Z.of_N n))
        then Raise (too_many_digits (int_digits (Z.of_N n)))
        else Ok (VInt (if negative then - Z.of_N n else Z.of_N n), rest)
    end in
  match s with
  | c :: s' => if (c =? 45)%N then finish true (scan_natural s') else finish false (scan_natural s)
  | [] => Raise expecting_value
  end.

Fixpoint starts_with (prefix s : text) : option text :=
  match prefix, s with
  | [], _ => Some s
  | p :: prefix', c :: s' => if (p =? c)%N then starts_with prefix' s' else None
  | _ :: _, [] => None
  end.

(** [PyDict_SetItem] on the items in insertion order. *)
Fixpoint dict_set (eqb : PyVal -> PyVal -> bool) (k v : PyVal)
    (d : list (PyVal * PyVal)) : list (PyVal * PyVal) :=
  match d with
  | [] => [(k, v)]
  | (k', v') :: d' => if eqb k' k then (k', v) :: d' else (k', v') :: dict_set eqb k v d'
  end.

Definition text_eqb (a b : text) : bool :=
  if list_eq_dec N.eq_dec a b then true else false.

(** Equality of two keys read by the scanner, which are strings. *)
Definition key_eqb (a b : PyVal) : bool :=
  match a, b with
  | VText x, VText y => text_eqb x y
  | _, _ => false
  end.

(** What stops the scanner where the stack has no room for one more
    nested container. *)
Definition too_deep (what : string) : exn :=
  RecursionError
    ("maximum recursion depth exceeded while decoding a JSON " ++ what
     ++ " from a unicode string").

(** The scanner is run on fuel, which the callers give enough of: this is
    what it would stop with, and never does. *)
Definition out_of_fuel : exn := NotModelled "out of fuel".

(** [scan_once], and the loops of [_parse_array] and [_parse_object] from
    the first element or key.  [depth] is the room for nested containers:
    entering an object or an array, empty or not, takes one level of it.
    [fuel] only makes the recursion structural: each call takes one unit,
    and of two calls in a row one consumes a character, so twice the
    length of the input and one is enough. *)
Fixpoint scan_once (depth fuel : nat) (s : text) : result (PyVal * text) :=
  match fuel with
  | 0 => Raise out_of_fuel
  | S fuel' =>
      match s with
      | [] => Raise expecting_value
      | c :: s1 =>
          if (c =? 34)%N then
            p <- scanstring s1 ;; Ok (VText (fst p), snd p)
          else if (c =? 123)%N then
            match depth with
            | 0 => Raise (too_deep "object")
            | S depth' =>
                match skip_whitespace s1 with
                | c' :: s2 =>
                    if (c' =? 125)%N then Ok (VDict [], s2)
                    else p <- parse_object depth' fuel' (c' :: s2) [] ;;
                         Ok (VDict (fst p), snd p)
                | [] =>
                    Raise (json_error "Expecting property name enclosed in double quotes")
                end
            end
          else if (c =? 91)%N then
            match depth with
            | 0 => Raise (too_deep "array")
            | S depth' =>
                match skip_whitespace s1 with
                | c' :: s2 =>
                    if (c' =? 93)%N then Ok (VList [], s2)
                    else p <- parse_array depth' fuel' (c' :: s2) [] ;;
                         Ok (VList (fst p), snd p)
                | [] => Raise expecting_value
                end
            end
          else
            match starts_with (u_lit "null") s, starts_with (u_lit "true") s,
                  starts_with (u_lit "false") s with
            | Some rest, _, _ => Ok (VNone, rest)
            | _, Some rest, _ => Ok (VBool true, rest)
            | _, _, Some rest => Ok (VBool false, rest)
            | None, None, None =>
                match starts_with (u_lit "NaN") s, starts_with (u_lit "Infinity") s,
                      starts_with (u_lit "-Infinity") s with
                | None, None, None => match_number s
                | _, _, _ => Raise (NotModelled "float")
                end
            end
      end
  end
with parse_array (depth fuel : nat) (s : text) (acc : list PyVal)
  : result (list PyVal * text) :=
  match fuel with
  | 0 => Raise out_of_fuel
  | S fuel' =>
      p <- scan_once depth fuel' s ;;
      match skip_whitespace (snd p) with
      | c :: s1 =>
          if (c =? 93)%N then Ok (acc ++ [fst p], s1)
          else if (c =? 44)%N
          then parse_array depth fuel' (skip_whitespace s1) (acc ++ [fst p])
          else Raise (json_error "Expecting ',' delimiter")
      | [] => Raise (json_error "Expecting ',' delimiter")
      end
  end
with parse_object (depth fuel : nat) (s : text) (acc : list (PyVal * PyVal))
  : result (list (PyVal * PyVal) * text) :=
  match fuel with
  | 0 => Raise out_of_fuel
  | S fuel' =>
      match s with
      | q :: s1 =>
          if negb (q =? 34)%N
          then Raise (json_error "Expecting property name enclosed in double quotes")
          else
            key <- scanstring s1 ;;
            match skip_whitespace (snd key) with
            | c :: s2 =>
                if negb (c =? 58)%N then Raise (json_error "Expecting ':' delimiter")
                else
                  p <- scan_once depth fuel' (skip_whitespace s2) ;;
                  let acc' := dict_set key_eqb (VText (fst key)) (fst p) acc in
                  match skip_whitespace (snd p) with
                  | c' :: s3 =>
                      if (c' =? 125)%N then Ok (acc', s3)
                      else if (c' =? 44)%N
                      then parse_object depth fuel' (skip_whitespace s3) acc'
                      else Raise (json_error "Expecting ',' delimiter")
                  | [] => Raise (json_error "Expecting ',' delimiter")
                  end
            | [] => Raise (json_error "Expecting ':' delimiter")
            end
      | [] => Raise (json_error "Expecting property name enclosed in double quotes")
      end
  end.

(** [JSONDecoder().decode] on a [str]. *)
Definition decode_text (depth : nat) (s : text) : result PyVal :=
  p <- scan_once depth (S (2 * List.length s)) (skip_whitespace s) ;;
  match skip_whitespace (snd p) with
  | [] => Ok (fst p)
  | _ :: _ => Raise (json_error "Extra data")
  end.

Definition json_decode_str (depth : nat) (s : PyVal) : result PyVal :=
  match s with
  | VText t => decode_text depth t
  | VBytes _ => Raise (TypeError "cannot use a string pattern on a bytes-like object")
  | _ => Raise (TypeError "expected string or bytes-like object")
  end.

(** The library, called where the stack has room for [room] nested
    containers in the encoder and for [depth] in the decoder. *)
Definition cpython3_json_at (room depth : nat) : JsonLib :=
  mkJsonLib (json_decode_str depth) (json_iterencode room).

(** [sys.getrecursionlimit()]: there is never room for more. *)
Definition recursion_limit : nat := 1000.

(** The library with the most room there can be. *)
Definition cpython3_json : JsonLib := cpython3_json_at recursion_limit recursion_limit.

(** ** Three interpreters *)

(** CPython 3.11 without [simplejson]. *)
Definition python3 : Runtime :=
  mkRuntime (3, 11) 0 (fun _ => None) a2b_base64 None cpython3_json.

(** CPython 2.7 without [simplejson], on the inputs where its codecs, its
    base64 decoder and its [json] module agree with the ones modelled
    above: Python 2 has codecs from bytes to bytes besides, such as [hex],
    and no limit on the digits of an integer. *)
Definition python27 : Runtime :=
  mkRuntime (2, 7) 9223372036854775807 (fun _ => None) a2b_base64 None cpython3_json.

(** CPython 2.5: no [json] in the standard library, no [simplejson]. *)
Definition python25 : Runtime :=
  mkRuntime (2, 5) 9223372036854775807 (fun _ => None) a2b_base64 None cpython3_json.

(** ** Comparing strings *)

(** [a == b] for two strings.  Python 3 never equates a byte string with
    a unicode string; Python 2 decodes the byte string as ASCII first and
    takes the two for different when that fails. *)
Definition str_eq (rt : Runtime) (a b : PyVal) : bool :=
  let mixed (t : text) (x : bytes) :=
    if PY3 rt then false
    else
      match codec_decode ascii_codec "strict" x with
      | inr t' => text_eqb t t'
      | inl _ => false
      end in
  match a, b with
  | VText t, VText t' => text_eqb t t'
  | VBytes x, VBytes x' => if list_eq_dec Byte.byte_eq_dec x x' then true else false
  | VText t, VBytes x => mixed t x
  | VBytes x, VText t => mixed t x
  | _, _ => false
  end.

(** ** Predicates of the statements *)

(** [needle in hay] *)
Fixpoint contains (needle hay : string) : bool :=
  if String.prefix needle hay then true
  else
    match hay with
    | EmptyString => false
    | String _ hay' => contains needle hay'
    end.

(** A lowercase hexadecimal digit. *)
Definition is_lower_hex (c : N) : bool :=
  ((48 <=? c) && (c <=? 57) || (97 <=? c) && (c <=? 102))%N.

(** A byte string of ASCII characters. *)
Definition ascii_only (b : bytes) : bool :=
  forallb (fun x => (Byte.to_N x <? 128)%N) b.

(** The message of [assert_native] for a value. *)
Definition not_native_message (rt : Runtime) (v : PyVal) : string :=
  "n must be a native str (got " ++ type_name rt v ++ ")".

(** [ntou(ntob(s, e), e)] *)
Definition ntou_of_ntob (rt : Runtime) (s : PyVal) (encoding : string) : result PyVal :=
  b <- ntob rt s encoding ;; ntou rt b encoding.

(** [tonative(ntob(s, e), e)] *)
Definition tonative_of_ntob (rt : Runtime) (s : PyVal) (encoding : string) : result PyVal :=
  b <- ntob rt s encoding ;; tonative rt b encoding.

(** A codec is lossless when decoding undoes every successful encoding. *)
Class Lossless (c : Codec) : Prop :=
  decode_encode :
    forall (t : text) (b : bytes),
      codec_encode c "strict" t = inr b -> codec_decode c "strict" b = inr t.

(** A codec is ASCII transparent when it decodes ASCII bytes to the
    characters of the same number, under every error handler. *)
Class AsciiTransparent (c : Codec) : Prop :=
  decode_ascii :
    forall (errors : string) (b : bytes),
      ascii_only b = true -> codec_decode c errors b = inr (map Byte.to_N b).

(** An encoding under which ASCII bytes decode to themselves. *)
Definition decodes_ascii_as_is (rt : Runtime) (encoding : string) : Prop :=
  exists c, lookup_codec rt encoding = Some c /\ AsciiTransparent c.

Definition is_hex_ascii (a : ascii) : bool :=
  is_digit a
  || ((65 <=? N_of_ascii a) && (N_of_ascii a <=? 70))%N
  || ((97 <=? N_of_ascii a) && (N_of_ascii a <=? 102))%N.

Definition is_lower_hex_ascii (a : ascii) : bool :=
  is_digit a || ((97 <=? N_of_ascii a) && (N_of_ascii a <=? 102))%N.

(** The hex-colon form: [groups + 1] pairs of digits with a colon
    between each two. *)
Fixpoint hex_colon_form (digit : ascii -> bool) (groups : nat) (s : string) : bool :=
  match s with
  | String a (String b rest) =>
      digit a && digit b
      && match groups with
         | 0 => match rest with EmptyString => true | _ => false end
         | S g =>
             match rest with
             | String c rest' => Ascii.eqb c ":" && hex_colon_form digit g rest'
             | EmptyString => false
             end
         end
  | _ => false
  end.

(** What the loop of [get_mac] has done when it ends in [r], started
    from [mac], [count] and [k]. *)
Definition loop_post (mac : string) (count : nat) (k : Kodi)
    (r : string * nat * Kodi) : Prop :=
  let '(mac', count', k') := r in
  count <= count'
  /\ (count <= 360 -> count' <= 360)
  /\ requests k' = requests k + (count' - count)
  /\ mac_label k' = mac_label k
  /\ slept k' = (slept k + 1000 * N.of_nat (count' - count))%N
  /\ (count' = count -> mac' = mac)
  /\ (count < count' -> mac' = lower (mac_label k (requests k' - 1)))
  /\ (has_colon mac' = false -> 360 <= count')
  /\ (has_colon mac = true -> count' = count)
  /\ (has_colon mac = false -> count < 360 -> count < count')
  /\ (forall i, requests k <= i -> i + 1 < requests k' ->
                has_colon (lower (mac_label k i)) = false).

(** A Unicode scalar value: a code point that is not a surrogate. *)
Definition is_scalar_value (c : N) : bool :=
  ((c <? 1114112) && negb (is_surrogate c))%N.

(** The chunks of a generator that was run to exhaustion. *)
Definition exhausted {A : Type} (items : list A) : Gen A := mkGen items None.

(** What a library does with a value it can represent: it writes the
    value as fragments of well-formed text, and reads their concatenation
    back as the value. *)
Definition represents (lib : JsonLib) (v : PyVal) (fragments : list text) : Prop :=
  lib_iterencode lib v = Ok (exhausted (map VText fragments))
  /\ forallb (forallb is_scalar_value) fragments = true
  /\ lib_decode lib (VText (List.concat fragments)) = Ok v.

(** The chunks [json_encode] makes of fragments of well-formed text. *)
Definition utf8_chunks (fragments : list text) : list bytes :=
  map (fun t => match encode_with utf8_enc1 "strict" 0 t with
                | inr b => b
                | inl _ => []
                end) fragments.

(** The values the [json] module writes and reads back as they are:
    [None], booleans, integers, strings of scalar values, lists of such
    values, and dictionaries from distinct such strings to such values. *)
Definition json_key (k : PyVal) : bool :=
  match k with
  | VText s => forallb is_scalar_value s
  | _ => false
  end.

Fixpoint distinct_keys (d : list (PyVal * PyVal)) : bool :=
  match d with
  | [] => true
  | (k, _) :: d' =>
      negb (existsb (fun kv => key_eqb (fst kv) k) d') && distinct_keys d'
  end.

Fixpoint json_value (v : PyVal) : bool :=
  match v with
  | VNone | VBool _ | VInt _ => true
  | VBytes _ => false
  | VText s => forallb is_scalar_value s
  | VList l => forallb json_value l
  | VDict d =>
      distinct_keys d
      && forallb (fun kv => json_key (fst kv) && json_value (snd kv)) d
  end.

(** An integer [int.__repr__] and [int] accept: one of at most 4300
    digits. *)
Definition int_fits (z : Z) : bool := Nat.leb (int_digits z) int_max_str_digits.

(** The value is within the limits of the interpreter: its integers have
    at most 4300 digits, and its containers are nested no deeper than
    [room]. *)
Fixpoint fits (room : nat) (v : PyVal) {struct v} : bool :=
  match v with
  | VInt z => int_fits z
  | VList l =>
      match room with
      | 0 => false
      | S r => forallb (fits r) l
      end
  | VDict d =>
      match room with
      | 0 => false
      | S r => forallb (fun kv => fits r (snd kv)) d
      end
  | _ => true
  end.

Definition key_text (k : PyVal) : text :=
  match key_repr k with
  | Ok s => s
  | Raise _ => []
  end.

(** The document of a value: the chunks of [iterencode], joined. *)
Fixpoint dumps (v : PyVal) : text :=
  match v with
  | VList [] => u_lit "[]"
  | VList (x :: l) =>
      u_lit "[" ++ dumps x ++ flat_map (fun y => u_lit ", " ++ dumps y) l ++ u_lit "]"
  | VDict [] => u_lit "{}"
  | VDict ((k, x) :: d) =>
      u_lit "{" ++ encode_basestring_ascii (key_text k) ++ u_lit ": " ++ dumps x
      ++ flat_map (fun kv => u_lit ", " ++ encode_basestring_ascii (key_text (fst kv))
                             ++ u_lit ": " ++ dumps (snd kv)) d
      ++ u_lit "}"
  | _ =>
      match atom_repr v with
      | Some r => r
      | None => []
      end
  end.

(** What may follow a value in a document: nothing, a comma, or a closing
    bracket or brace. *)
Definition delimited (rest : text) : bool :=
  match rest with
  | [] => true
  | c :: _ => ((c =? 44) || (c =? 93) || (c =? 125))%N
  end.

(** ** Documents, piece by piece *)

(** What [scanstring] does with a character it keeps. *)
Definition keep (c : N) (r : result (text * text)) : result (text * text) :=
  p <- r ;; Ok (c :: fst p, snd p).

(** The number of the digits [d] after the number [acc] read so far. *)
Fixpoint uint_value (d : Decimal.uint) (acc : N) : N :=
  match d with
  | Decimal.Nil => acc
  | Decimal.D0 l => uint_value l (acc * 10)
  | Decimal.D1 l => uint_value l (acc * 10 + 1)
  | Decimal.D2 l => uint_value l (acc * 10 + 2)
  | Decimal.D3 l => uint_value l (acc * 10 + 3)
  | Decimal.D4 l => uint_value l (acc * 10 + 4)
  | Decimal.D5 l => uint_value l (acc * 10 + 5)
  | Decimal.D6 l => uint_value l (acc * 10 + 6)
  | Decimal.D7 l => uint_value l (acc * 10 + 7)
  | Decimal.D8 l => uint_value l (acc * 10 + 8)
  | Decimal.D9 l => uint_value l (acc * 10 + 9)
  end.

Definition digits_text (d : Decimal.uint) : text := u_lit (NilEmpty.string_of_uint d).

Definition no_digit_ahead (rest : text) : bool :=
  match rest with
  | c :: _ => negb (is_digit_cp c)
  | [] => true
  end.

(** The first character of a document. *)
Definition value_start (c : N) : bool :=
  ((c =? 34) || (c =? 110) || (c =? 116) || (c =? 102) || is_digit_cp c
   || (c =? 45) || (c =? 91) || (c =? 123))%N.

(** A value within the limits is read back from its document, whatever
    text follows it after a delimiter, with fuel for the length of the
    document. *)
Definition read_back (v : PyVal) : Prop :=
  json_value v = true ->
  forall (depth fuel : nat) (rest : text),
    fits depth v = true ->
    List.length (dumps v) <= fuel -> delimited rest = true ->
    scan_once depth fuel (dumps v ++ rest) = Ok (v, rest).

Definition elements_tail (l : list PyVal) : text :=
  flat_map (fun y => u_lit ", " ++ dumps y) l ++ u_lit "]".

Definition member_text (kv : PyVal * PyVal) : text :=
  encode_basestring_ascii (key_text (fst kv)) ++ u_lit ": " ++ dumps (snd kv).

Definition members_tail (d : list (PyVal * PyVal)) : text :=
  flat_map (fun kv => u_lit ", " ++ encode_basestring_ascii (key_text (fst kv))
                      ++ u_lit ": " ++ dumps (snd kv)) d
  ++ u_lit "}".

(** The key [k] is not among the keys of [acc]. *)
Definition fresh_key (acc : list (PyVal * PyVal)) (k : PyVal) : bool :=
  negb (existsb (fun kv => key_eqb (fst kv) k) acc).

Definition ascii_text (t : text) : bool := forallb (fun c => (c <? 128)%N) t.

(** A generator that ends without an exception, yields ASCII fragments,
    and whose fragments make up the text [t]. *)
Definition writes (g : Gen text) (t : text) : Prop :=
  stopped_by g = None
  /\ List.concat (yielded g) = t
  /\ forallb ascii_text (yielded g) = true.

(** The two loops of [iterencode]. *)
Fixpoint elements_gen (r : nat) (buf : text) (l : list PyVal) : Gen text :=
  match l with
  | [] => one (u_lit "]")
  | v :: l' =>
      gen_then
        (match atom_chunk v with
         | Some (Ok t) => one (buf ++ t)
         | Some (Raise e) => raising e
         | None => gen_then (one buf) (iterencode r v)
         end)
        (elements_gen r (u_lit ", ") l')
  end.

Fixpoint members_gen (r : nat) (first : bool) (l : list (PyVal * PyVal)) : Gen text :=
  match l with
  | [] => one (u_lit "}")
  | (k, v) :: l' =>
      match key_repr k with
      | Raise e => raising e
      | Ok key =>
          gen_then
            (mkGen ((if first then [] else [u_lit ", "])
                    ++ [encode_basestring_ascii key; u_lit ": "]) None)
            (gen_then
               (match atom_chunk v with
                | Some (Ok t) => one t
                | Some (Raise e) => raising e
                | None => iterencode r v
                end)
               (members_gen r false l'))
      end
  end.

(** The encoder writes the document of a value within the limits. *)
Definition written (v : PyVal) : Prop :=
  json_value v = true ->
  forall room : nat, fits room v = true -> writes (iterencode room v) (dumps v).

(** ** [_cpcompat]: [reversed], where the builtin is missing *)

(** An object as [reversed] uses it: what [len(x)] and [x[i]] give. *)
Record Sequence : Type := mkSequence {
  seq_len : result nat;
  seq_getitem : nat -> result PyVal
}.

(** A list.  Beyond its end [x[i]] raises [IndexError], which is a
    [LookupError]. *)
Definition list_sequence (l : list PyVal) : Sequence :=
  mkSequence (Ok (List.length l))
             (fun i => match nth_error l i with
                       | Some v => Ok v
                       | None => Raise (LookupError "list index out of range")
                       end).

(** The loop of [reversed], entered with [i]: it counts down to zero and
    yields [x[i]] after each step. *)
Fixpoint reversed_from (x : Sequence) (i : nat) : Gen PyVal :=
  match i with
  | 0 => mkGen [] None
  | S i' =>
      match seq_getitem x i' with
      | Ok v => let g := reversed_from x i' in mkGen (v :: yielded g) (stopped_by g)
      | Raise e => mkGen [] (Some e)
      end
  end.

Definition reversed (x : Sequence) : Gen PyVal :=
  match seq_len x with
  | Ok n => reversed_from x n
  | Raise e => mkGen [] (Some e)
  end.

(** ** [_cpcompat]: [sorted], where the builtin is missing *)

(** Lists are objects: the heap holds the items of every list, at the
    address of the list. *)
Definition Heap : Type := list (list PyVal).

Definition heap_get (h : Heap) (a : nat) : option (list PyVal) := nth_error h a.

(** A new list: its address and the heap that holds it. *)
Definition heap_alloc (h : Heap) (items : list PyVal) : nat * Heap :=
  (List.length h, h ++ [items]).

(** The heap after the list at [a] was given new items. *)
Fixpoint heap_set (h : Heap) (a : nat) (items : list PyVal) : Heap :=
  match h, a with
  | [], _ => []
  | _ :: h', 0 => items :: h'
  | l :: h', S a' => l :: heap_set h' a' items
  end.

Section Sorted.

(** [list.sort], which sorts in place: the items it leaves in the list,
    and the exception a comparison raised, if any. *)
Variable list_sort : list PyVal -> list PyVal * option exn.

(** [sorted(i)] for the list at the address [i]: the address it returns
    and the heap it leaves. *)
Definition sorted (h : Heap) (i : nat) : result nat * Heap :=
  match heap_get h i with
  | None => (Raise (NotModelled "no list at this address"), h)
  | Some items =>
      let (i', h1) := heap_alloc h items in
      let (items', raised) := list_sort items in
      let h2 := heap_set h1 i' items' in
      match raised with
      | Some e => (Raise e, h2)
      | None => (Ok i', h2)
      end
  end.

End Sorted.

(** ** More predicates of the statements *)

(** Two hexadecimal digits come next. *)
Definition escape_ahead (s : bytes) : bool :=
  match s with
  | h1 :: h2 :: _ => is_hexdig h1 && is_hexdig h2
  | _ => false
  end.

(** The line [get_mac] logs before each request. *)
Definition waiting_line : loglevel * string :=
  (LOGNOTICE, ADDON_ID ++ " --> " ++ "Waiting for mac address...")%string.

(** The line [get_mac] logs before it returns [mac]. *)
Definition verdict_line (mac : string) : loglevel * string :=
  (LOGNOTICE,
   ADDON_ID ++ " --> " ++
   match mac with
   | EmptyString => "Mac detection failed!"
   | _ => "Detected Mac-Address: " ++ mac
   end)%string.

(** The code point four hexadecimal digits stand for. *)
Definition hex4_number (d1 d2 d3 d4 : N) : N := (((d1 * 16 + d2) * 16 + d3) * 16 + d4)%N.

(** A text [ISO-8859-1] can encode. *)
Definition latin1_text (t : text) : bool := forallb (fun c => (c <? 256)%N) t.

(** * Properties *)

(** ** Bytes and strings *)

Lemma to_N_byte_of_N (n : N) : (n < 256)%N -> Byte.to_N (byte_of_N n) = n.
Proof.
  intros H. unfold byte_of_N. rewrite N.mod_small by exact H.
  destruct (Byte.of_N n) as [b|] eqn:E.
  - now apply Byte.to_of_N.
  - apply Byte.of_N_None_iff in E. lia.
Qed.

Lemma byte_of_N_to_N (x : byte) : byte_of_N (Byte.to_N x) = x.
Proof.
  unfold byte_of_N. pose proof (Byte.to_N_bounded x) as B.
  rewrite N.mod_small by lia. now rewrite Byte.of_to_N.
Qed.

Lemma to_N_lt_256 (x : byte) : (Byte.to_N x < 256)%N.
Proof. pose proof (Byte.to_N_bounded x). lia. Qed.

Lemma map_byte_of_N_to_N (b : bytes) : map byte_of_N (map Byte.to_N b) = b.
Proof.
  induction b as [|x b IH]; simpl; [reflexivity|].
  now rewrite byte_of_N_to_N, IH.
Qed.

Lemma prefix_app (n s : string) : String.prefix n (n ++ s) = true.
Proof.
  induction n as [|a n IH]; simpl.
  - now destruct s.
  - destruct (ascii_dec a a) as [_|C]; [exact IH | now elim C].
Qed.

Lemma contains_prefix (n hay : string) :
  String.prefix n hay = true -> contains n hay = true.
Proof. intros H. destruct hay; cbn [contains]; now rewrite H. Qed.

Lemma contains_app (n a s : string) : contains n (a ++ n ++ s) = true.
Proof.
  induction a as [|c a IH].
  - exact (contains_prefix _ _ (prefix_app n s)).
  - cbn [append contains].
    destruct (String.prefix n (String c (a ++ n ++ s))); [reflexivity | exact IH].
Qed.

(** ** Native strings *)

Lemma assert_native_ok (rt : Runtime) (n : PyVal) :
  isinstance_str rt n = true -> assert_native rt n = Ok tt.
Proof. intros H. unfold assert_native. now rewrite H. Qed.

Lemma assert_native_raises (rt : Runtime) (n : PyVal) :
  isinstance_str rt n = false ->
  assert_native rt n = Raise (TypeError (not_native_message rt n)).
Proof. intros H. unfold assert_native. now rewrite H. Qed.

(** C2. [ntob] and [ntou] reject every value that is not a native string
    with the [TypeError] of [assert_native], whose message holds the name
    of the type of the value.  On a native string [assert_native] returns
    without an error, so its [TypeError] is not raised: [ntob] and [ntou]
    then give what their remaining statements give, the value itself or
    the result of its [encode] or [decode] method. *)
Theorem native_string_contract (rt : Runtime) (v : PyVal) (encoding : string) :
  if isinstance_str rt v then
    assert_native rt v = Ok tt
    /\ ntob rt v encoding
       = (if PY3 rt then py_encode rt v encoding "strict" else Ok v)
    /\ ntou rt v encoding
       = (if PY3 rt then Ok v
          else if String.eqb encoding "escape" then
                 d <- py_decode rt v "ISO-8859-1" "strict" ;;
                 match d with
                 | VText t => r <- sub_escapes t ;; Ok (VText r)
                 | _ => Ok d
                 end
               else py_decode rt v encoding "strict")
  else
    ntob rt v encoding = Raise (TypeError (not_native_message rt v))
    /\ ntou rt v encoding = Raise (TypeError (not_native_message rt v))
    /\ contains (type_name rt v) (not_native_message rt v) = true.
Proof.
  destruct (isinstance_str rt v) eqn:Hn.
  - unfold ntob, ntou. rewrite (assert_native_ok _ _ Hn). cbn [bind].
    now destruct (PY3 rt).
  - unfold ntob, ntou. rewrite (assert_native_raises _ _ Hn).
    repeat split; try (destruct (PY3 rt); reflexivity).
    apply contains_app.
Qed.

(** C10. [tonative] asserts nothing: a value that is neither a byte
    string nor a unicode string comes back unchanged, whatever the
    encoding. *)
Theorem tonative_leaves_other_values (rt : Runtime) (v : PyVal) (encoding : string) :
  isinstance_bytes v = false -> isinstance_text v = false ->
  tonative rt v encoding = Ok v.
Proof.
  intros Hb Ht. unfold tonative. rewrite Hb, Ht. now destruct (PY3 rt).
Qed.

Lemma tonative_leaves_other_values_witness :
  tonative python3 (VInt 7) "ISO-8859-1" = Ok (VInt 7)
  /\ tonative python27 VNone "no-such-codec" = Ok VNone
  /\ ntob python3 (VInt 7) "ISO-8859-1"
     = Raise (TypeError "n must be a native str (got int)").
Proof.
  split; [|split].
  - apply (tonative_leaves_other_values python3 (VInt 7)); reflexivity.
  - apply (tonative_leaves_other_values python27 VNone); reflexivity.
  - reflexivity.
Defined.

(** ** JSON without a library *)

Lemma json_none (rt : Runtime) :
  simplejson rt = None -> version_ge rt 2 6 = false -> json rt = None.
Proof. intros H1 H2. unfold json. now rewrite H1, H2. Qed.

(** C4. Without [simplejson] and below Python 2.6 there is no JSON
    library: the module still loads, and every call of [json_encode] and
    of [json_decode] raises the [ValueError] that says so, whatever the
    argument; neither returns a value. *)
Theorem no_json_library_raises (rt : Runtime) (v : PyVal) :
  simplejson rt = None -> version_ge rt 2 6 = false ->
  json_encode rt v = Raise (ValueError "No JSON library is available")
  /\ json_decode rt v = Raise (ValueError "No JSON library is available").
Proof.
  intros H1 H2. pose proof (json_none rt H1 H2) as J.
  unfold json_encode, json_decode, _json_encode. rewrite J.
  split; reflexivity.
Qed.

Lemma no_json_library_raises_witness :
  json_encode python25 (VDict [(VText (u_lit "k"), VInt 1)])
  = Raise (ValueError "No JSON library is available")
  /\ json_decode python25 (VText (u_lit "{}"))
     = Raise (ValueError "No JSON library is available")
  /\ tonative python25 (VBytes (b_lit "k")) "ISO-8859-1" = Ok (VBytes (b_lit "k")).
Proof.
  split; [|split].
  - apply (no_json_library_raises python25 (VDict [(VText (u_lit "k"), VInt 1)]));
      reflexivity.
  - apply (no_json_library_raises python25 (VText (u_lit "{}"))); reflexivity.
  - reflexivity.
Defined.

(** ** base64 *)

(** C7. [base64_decode] takes a unicode string and the byte string it
    encodes to, in the given encoding, to the same result: the decoded
    bytes, decoded again with the encoding into a [str] on Python 3 and
    returned as they are on Python 2. *)
Theorem base64_decode_text_and_bytes (rt : Runtime) (t : text) (b : bytes)
    (encoding : string) :
  text_encode rt t encoding "strict" = Ok b ->
  base64_decode rt (VText t) encoding = base64_decode rt (VBytes b) encoding
  /\ base64_decode rt (VBytes b) encoding
     = (payload <- base64_decodebytes_impl rt b ;;
        if PY3 rt
        then s <- bytes_decode rt payload encoding "strict" ;; Ok (VText s)
        else Ok (VBytes payload)).
Proof.
  intros H. unfold base64_decode. cbn [isinstance_text py_encode].
  rewrite H. cbn [bind _base64_decodebytes]. split; [reflexivity|].
  destruct (base64_decodebytes_impl rt b) as [payload|e]; cbn [bind]; [|reflexivity].
  destruct (PY3 rt); reflexivity.
Qed.

Lemma base64_decode_text_and_bytes_witness :
  text_encode python3 (u_lit "aGVsbG8=") "ISO-8859-1" "strict" = Ok (b_lit "aGVsbG8=")
  /\ base64_decode python3 (VText (u_lit "aGVsbG8=")) "ISO-8859-1" = Ok (VText (u_lit "hello"))
  /\ base64_decode python3 (VBytes (b_lit "aGVsbG8=")) "ISO-8859-1" = Ok (VText (u_lit "hello"))
  /\ base64_decode python27 (VText (u_lit "aGVsbG8=")) "ISO-8859-1" = Ok (VBytes (b_lit "hello"))
  /\ base64_decode python27 (VBytes (b_lit "aGVsbG8=")) "ISO-8859-1" = Ok (VBytes (b_lit "hello")).
Proof.
  pose proof (base64_decode_text_and_bytes python3 (u_lit "aGVsbG8=") (b_lit "aGVsbG8=")
                "ISO-8859-1" eq_refl) as [H3 H3'].
  pose proof (base64_decode_text_and_bytes python27 (u_lit "aGVsbG8=") (b_lit "aGVsbG8=")
                "ISO-8859-1" eq_refl) as [H2 H2'].
  split; [reflexivity|]. split; [|split; [|split]].
  - rewrite H3. exact H3'.
  - exact H3'.
  - rewrite H2. exact H2'.
  - exact H2'.
Defined.

(** ** Codecs *)

(** Division and remainder by a constant, as the two unknowns [lia]
    can reason about. *)
Ltac divmod c d :=
  let q := fresh "q" in
  let r := fresh "r" in
  let Hq := fresh "Hq" in
  let Hr := fresh "Hr" in
  pose proof (N.div_mod c d ltac:(discriminate)) as Hq;
  pose proof (N.mod_lt c d ltac:(discriminate)) as Hr;
  generalize dependent (c / d)%N; generalize dependent (c mod d)%N;
  intros r Hr q Hq.

Section EncodeDecode.

Variable enc1 : N -> string + bytes.
Variable sc : bytes -> scan.

Lemma decode_with_skip (errors : string) (pre rest : bytes) (pos : nat) :
  decode_with sc errors (List.length pre) pos (pre ++ rest)
  = decode_with sc errors 0 (pos + List.length pre) rest.
Proof.
  revert pos. induction pre as [|x pre IH]; intros pos; cbn [List.length app].
  - rewrite Nat.add_0_r. destruct rest; reflexivity.
  - cbn [decode_with]. rewrite IH. f_equal. lia.
Qed.

Lemma encode_with_strict_inv (pos : nat) (c : N) (t : text) (b : bytes) :
  encode_with enc1 "strict" pos (c :: t) = inr b ->
  exists bs rest,
    enc1 c = inr bs /\ encode_with enc1 "strict" (S pos) t = inr rest /\ b = bs ++ rest.
Proof.
  cbn [encode_with]. destruct (enc1 c) as [reason|bs].
  - cbn. discriminate.
  - destruct (encode_with enc1 "strict" (S pos) t) as [e|rest]; [discriminate|].
    intros H. injection H as <-. now exists bs, rest.
Qed.

Lemma encode_with_position (errors : string) (pos pos' : nat) (t : text) (b : bytes) :
  encode_with enc1 errors pos t = inr b -> encode_with enc1 errors pos' t = inr b.
Proof.
  revert pos pos' b. induction t as [|c t IH]; intros pos pos' b; cbn [encode_with].
  - trivial.
  - destruct (enc1 c) as [reason|bs].
    + destruct (handler_of errors) as [[| |]|]; try discriminate.
      * apply IH.
      * destruct (encode_with enc1 errors (S pos) t) as [e|rest] eqn:E; [discriminate|].
        now rewrite (IH _ (S pos') _ E).
    + destruct (encode_with enc1 errors (S pos) t) as [e|rest] eqn:E; [discriminate|].
      now rewrite (IH _ (S pos') _ E).
Qed.

Lemma encode_with_app (errors : string) (pos : nat) (t1 t2 : text) (b1 b2 : bytes) :
  encode_with enc1 errors pos t1 = inr b1 ->
  encode_with enc1 errors pos t2 = inr b2 ->
  encode_with enc1 errors pos (t1 ++ t2) = inr (b1 ++ b2).
Proof.
  revert pos b1. induction t1 as [|c t1 IH]; intros pos b1 H1 H2; cbn [encode_with app] in *.
  - injection H1 as <-. exact H2.
  - destruct (enc1 c) as [reason|bs].
    + destruct (handler_of errors) as [[| |]|]; try discriminate.
      * apply IH; [exact H1|]. exact (encode_with_position _ _ (S pos) _ _ H2).
      * destruct (encode_with enc1 errors (S pos) t1) as [e|rest] eqn:E; [discriminate|].
        injection H1 as <-.
        now rewrite (IH _ _ E (encode_with_position _ _ (S pos) _ _ H2)).
    + destruct (encode_with enc1 errors (S pos) t1) as [e|rest] eqn:E; [discriminate|].
      injection H1 as <-.
      rewrite (IH _ _ E (encode_with_position _ _ (S pos) _ _ H2)).
      now rewrite app_assoc.
Qed.

Hypothesis scan_encoded :
  forall (c : N) (bs rest : bytes),
    enc1 c = inr bs -> bs <> [] /\ sc (bs ++ rest) = Decoded c (List.length bs).

Lemma decode_with_encode_with (t : text) (pos pos' : nat) (b : bytes) :
  encode_with enc1 "strict" pos t = inr b ->
  decode_with sc "strict" 0 pos' b = inr t.
Proof.
  revert pos pos' b. induction t as [|c t IH]; intros pos pos' b H.
  - cbn in H. injection H as <-. reflexivity.
  - apply encode_with_strict_inv in H. destruct H as (bs & rest & Hc & Ht & ->).
    destruct (scan_encoded c bs rest Hc) as [Hne Hsc].
    destruct bs as [|x bs]; [now elim Hne|].
    cbn [app decode_with]. cbn [app] in Hsc. rewrite Hsc. cbn [List.length pred].
    rewrite decode_with_skip. now rewrite (IH _ _ _ Ht).
Qed.

End EncodeDecode.

Section AsciiDecode.

Variable sc : bytes -> scan.

Hypothesis scan_ascii :
  forall (x : byte) (rest : bytes),
    (Byte.to_N x <? 128)%N = true -> sc (x :: rest) = Decoded (Byte.to_N x) 1.

Lemma decode_with_ascii (errors : string) (pos : nat) (b : bytes) :
  ascii_only b = true -> decode_with sc errors 0 pos b = inr (map Byte.to_N b).
Proof.
  revert pos. induction b as [|x b IH]; intros pos H; [reflexivity|].
  cbn [ascii_only forallb] in H. apply andb_prop in H. destruct H as [Hx Hb].
  cbn [decode_with map]. rewrite (scan_ascii x b Hx). cbn [pred].
  now rewrite (IH (S pos) Hb).
Qed.

End AsciiDecode.

(** Case analysis on the comparisons of the goal, dropping the cases the
    bounds at hand exclude. *)
Ltac N_cases :=
  repeat (cbn [andb orb negb];
          match goal with
          | |- context [N.ltb ?a ?b] => destruct (N.ltb_spec a b); try lia
          | |- context [N.leb ?a ?b] => destruct (N.leb_spec a b); try lia
          | |- context [N.eqb ?a ?b] => destruct (N.eqb_spec a b); try lia
          end);
  cbn [andb orb negb].

Ltac N_cases_in H :=
  repeat (cbn [andb orb negb] in H;
          match type of H with
          | context [N.ltb ?a ?b] => destruct (N.ltb_spec a b); try lia
          | context [N.leb ?a ?b] => destruct (N.leb_spec a b); try lia
          | context [N.eqb ?a ?b] => destruct (N.eqb_spec a b); try lia
          end);
  cbn [andb orb negb] in H.

(** The bytes an encoder builds, each named and known by its number. *)
Ltac name_bytes :=
  repeat match goal with
  | |- context [byte_of_N ?n] =>
      let x := fresh "x" in
      let Hx := fresh "Hx" in
      assert (Hx : Byte.to_N (byte_of_N n) = n) by (apply to_N_byte_of_N; lia);
      generalize dependent (byte_of_N n); intros x Hx
  end.

Ltac use_bytes :=
  repeat match goal with
  | Hx : Byte.to_N ?x = _ |- _ => rewrite !Hx; clear Hx
  end.

Lemma inr_eq {A B : Type} (x y : B) : @inr A B x = inr y -> x = y.
Proof. congruence. Qed.

Lemma latin1_scan_encoded (c : N) (bs rest : bytes) :
  latin1_enc1 c = inr bs ->
  bs <> [] /\ latin1_scan (bs ++ rest) = Decoded c (List.length bs).
Proof.
  unfold latin1_enc1. intros H. N_cases_in H; [|discriminate].
  apply inr_eq in H; subst bs. split; [discriminate|].
  name_bytes. cbn [app latin1_scan List.length]. now use_bytes.
Qed.

Lemma ascii_scan_encoded (c : N) (bs rest : bytes) :
  ascii_enc1 c = inr bs ->
  bs <> [] /\ ascii_scan (bs ++ rest) = Decoded c (List.length bs).
Proof.
  unfold ascii_enc1. intros H. N_cases_in H; [|discriminate].
  apply inr_eq in H; subst bs. split; [discriminate|].
  name_bytes. cbn [app ascii_scan List.length]. use_bytes.
  N_cases. reflexivity.
Qed.

Lemma utf8_scan_encoded (c : N) (bs rest : bytes) :
  utf8_enc1 c = inr bs ->
  bs <> [] /\ utf8_scan (bs ++ rest) = Decoded c (List.length bs).
Proof.
  unfold utf8_enc1, is_surrogate. intros H.
  destruct (N.ltb_spec c 128).
  { apply inr_eq in H; subst bs. split; [discriminate|]. name_bytes.
    cbn [app utf8_scan List.length]. cbv zeta. use_bytes.
    N_cases. reflexivity. }
  destruct (N.ltb_spec c 2048).
  { apply inr_eq in H; subst bs. split; [discriminate|].
    divmod c 64%N. name_bytes.
    cbn [app utf8_scan List.length]. unfold is_continuation. cbv zeta.
    use_bytes. N_cases; f_equal; lia. }
  destruct (N.ltb_spec c 65536).
  { N_cases_in H; try discriminate; apply inr_eq in H; subst bs; (split; [discriminate|]);
      replace (c / 4096)%N with (c / 64 / 64)%N
        by (rewrite N.Div0.div_div; reflexivity);
      divmod c 64%N; divmod q 64%N; name_bytes;
      cbn [app utf8_scan List.length]; unfold is_continuation; cbv zeta;
      use_bytes; N_cases; f_equal; lia. }
  destruct (N.ltb_spec c 1114112); [|discriminate].
  apply inr_eq in H; subst bs. split; [discriminate|].
  replace (c / 262144)%N with (c / 64 / 64 / 64)%N
    by (rewrite !N.Div0.div_div; reflexivity).
  replace (c / 4096)%N with (c / 64 / 64)%N
    by (rewrite N.Div0.div_div; reflexivity).
  divmod c 64%N. divmod q 64%N. divmod q0 64%N. name_bytes.
  cbn [app utf8_scan List.length]. unfold is_continuation. cbv zeta.
  use_bytes. N_cases; f_equal; lia.
Qed.

Lemma utf16le_scan_encoded (c : N) (bs rest : bytes) :
  utf16le_enc1 c = inr bs ->
  bs <> [] /\ utf16le_scan (bs ++ rest) = Decoded c (List.length bs).
Proof.
  unfold utf16le_enc1, is_surrogate. intros H.
  destruct (N.ltb_spec c 65536).
  { N_cases_in H; try discriminate; apply inr_eq in H; subst bs; (split; [discriminate|]);
      divmod c 256%N; name_bytes;
      cbn [app utf16le_scan List.length]; unfold is_surrogate; cbv zeta;
      use_bytes; N_cases; f_equal; lia. }
  destruct (N.ltb_spec c 1114112); [|discriminate].
  cbv zeta in H. apply inr_eq in H; subst bs. split; [discriminate|].
  divmod (c - 65536)%N 1024%N.
  divmod (55296 + q)%N 256%N. divmod (56320 + r)%N 256%N. name_bytes.
  cbn [app utf16le_scan List.length]. unfold is_surrogate. cbv zeta.
  use_bytes. N_cases; f_equal; lia.
Qed.

#[export] Instance latin_1_lossless : Lossless latin_1.
Proof.
  intros t b H. exact (decode_with_encode_with _ _ latin1_scan_encoded t 0 0 b H).
Qed.

#[export] Instance ascii_lossless : Lossless ascii_codec.
Proof.
  intros t b H. exact (decode_with_encode_with _ _ ascii_scan_encoded t 0 0 b H).
Qed.

#[export] Instance utf_8_lossless : Lossless utf_8.
Proof.
  intros t b H. exact (decode_with_encode_with _ _ utf8_scan_encoded t 0 0 b H).
Qed.

#[export] Instance utf_16_le_lossless : Lossless utf_16_le.
Proof.
  intros t b H. exact (decode_with_encode_with _ _ utf16le_scan_encoded t 0 0 b H).
Qed.

#[export] Instance latin_1_ascii_transparent : AsciiTransparent latin_1.
Proof.
  intros errors b H. apply decode_with_ascii; [|exact H].
  intros x rest _. reflexivity.
Qed.

#[export] Instance ascii_ascii_transparent : AsciiTransparent ascii_codec.
Proof.
  intros errors b H. apply decode_with_ascii; [|exact H].
  intros x rest Hx. cbn [ascii_scan]. now rewrite Hx.
Qed.

#[export] Instance utf_8_ascii_transparent : AsciiTransparent utf_8.
Proof.
  intros errors b H. apply decode_with_ascii; [|exact H].
  intros x rest Hx. cbn [utf8_scan]. cbv zeta. now rewrite Hx.
Qed.

Lemma builtin_codec_cases (encoding : string) (c : Codec) :
  builtin_codec encoding = Some c ->
  c = latin_1 \/ c = ascii_codec \/ c = utf_8 \/ c = utf_16_le.
Proof.
  unfold builtin_codec. cbv zeta.
  repeat match goal with
         | |- context [if ?b then _ else _] => destruct b
         end; intros H; inversion H; auto.
Qed.

Lemma builtin_codec_lossless (encoding : string) (c : Codec) :
  builtin_codec encoding = Some c -> Lossless c.
Proof.
  intros H. destruct (builtin_codec_cases _ _ H) as [-> | [-> | [-> | ->]]];
    typeclasses eauto.
Qed.

Lemma lookup_codec_lossless (rt : Runtime) (encoding : string) (c : Codec) :
  (forall c', other_codecs rt encoding = Some c' -> Lossless c') ->
  lookup_codec rt encoding = Some c -> Lossless c.
Proof.
  intros Hother. unfold lookup_codec.
  destruct (builtin_codec encoding) as [c0|] eqn:E.
  - intros H. injection H as <-. exact (builtin_codec_lossless _ _ E).
  - apply Hother.
Qed.

(** Decoding what [text_encode] made gives the text back, for a lossless
    codec. *)
Lemma bytes_decode_text_encode (rt : Runtime) (encoding : string) (t : text) (b : bytes) :
  (forall c, other_codecs rt encoding = Some c -> Lossless c) ->
  text_encode rt t encoding "strict" = Ok b ->
  bytes_decode rt b encoding "strict" = Ok t.
Proof.
  intros Hother. unfold text_encode, bytes_decode.
  destruct (lookup_codec rt encoding) as [c|] eqn:L; [|discriminate].
  pose proof (lookup_codec_lossless rt encoding c Hother L) as Hc.
  destruct (codec_encode c "strict" t) as [[pos reason|h]|x] eqn:E; try discriminate.
  intros H. injection H as <-. now rewrite (Hc t x E).
Qed.

Lemma ascii_decode (rt : Runtime) (errors : string) (b : bytes) :
  ascii_only b = true ->
  bytes_decode rt b "ascii" errors = Ok (map Byte.to_N b).
Proof.
  intros H. unfold bytes_decode.
  change (lookup_codec rt "ascii") with (Some ascii_codec). cbv beta iota.
  now rewrite (decode_ascii (c := ascii_codec) errors b H).
Qed.

(** ** Random identifiers *)

Lemma hex_char_spec (n : N) :
  (n < 16)%N ->
  is_lower_hex (Byte.to_N (hex_char n)) = true
  /\ (Byte.to_N (hex_char n) <? 128)%N = true.
Proof.
  intros H. unfold hex_char, is_lower_hex.
  destruct (N.ltb_spec n 10); rewrite to_N_byte_of_N by lia; N_cases; auto.
Qed.

Lemma hex_digit_value_hex_char (d : N) :
  (d < 16)%N -> hex_digit_value (Byte.to_N (hex_char d)) = Some d.
Proof.
  intros H. unfold hex_char, hex_digit_value.
  destruct (N.ltb_spec d 10); rewrite to_N_byte_of_N by lia; N_cases; f_equal; lia.
Qed.

Lemma hexlify_spec (b : bytes) :
  List.length (hexlify b) = 2 * List.length b
  /\ ascii_only (hexlify b) = true
  /\ forallb is_lower_hex (map Byte.to_N (hexlify b)) = true.
Proof.
  induction b as [|x b (IHl & IHa & IHh)]; [repeat split|].
  pose proof (to_N_lt_256 x) as Hx.
  assert (Hhi : (Byte.to_N x / 16 < 16)%N) by (divmod (Byte.to_N x) 16%N; lia).
  assert (Hlo : (Byte.to_N x mod 16 < 16)%N) by (apply N.mod_lt; discriminate).
  destruct (hex_char_spec _ Hhi) as [H1 H2], (hex_char_spec _ Hlo) as [H3 H4].
  unfold hexlify in *. cbn [flat_map app List.length ascii_only forallb map].
  fold (ascii_only (flat_map
    (fun x => [hex_char (Byte.to_N x / 16); hex_char (Byte.to_N x mod 16)]) b)).
  rewrite IHl, IHa, IHh, H1, H2, H3, H4. repeat split. lia.
Qed.

(** The two digits [hexlify] writes for the byte at index [i]. *)
Lemma hexlify_nth (b : bytes) (i : nat) :
  i < List.length b ->
  nth (2 * i) (map Byte.to_N (hexlify b)) 0%N
  = Byte.to_N (hex_char (Byte.to_N (nth i b x00) / 16))
  /\ nth (2 * i + 1) (map Byte.to_N (hexlify b)) 0%N
     = Byte.to_N (hex_char (Byte.to_N (nth i b x00) mod 16)).
Proof.
  revert i. induction b as [|x b IH]; intros i H; [cbn in H; lia|].
  destruct i as [|i]; [split; reflexivity|].
  cbn [List.length] in H. destruct (IH i ltac:(lia)) as [H1 H2].
  replace (2 * S i) with (S (S (2 * i))) by lia.
  replace (S (S (2 * i)) + 1) with (S (S (2 * i + 1))) by lia.
  unfold hexlify in *. cbn [flat_map app map nth]. split; assumption.
Qed.

(** C9. [random20] reads twenty bytes from the entropy source and returns
    their hexadecimal form as a unicode string: forty characters, each a
    lowercase hexadecimal digit.  The characters at the indices [2 * i]
    and [2 * i + 1] are the digits of the byte at index [i]: the first
    has the value of its high four bits, the second of its low four
    bits. *)
Theorem random20_is_forty_hex_digits (rt : Runtime) (e : Entropy) :
  exists (raw : bytes) (t : text),
    fst (urandom 20 e) = raw
    /\ List.length raw = 20
    /\ drawn (snd (random20 rt e)) = drawn e + 20
    /\ fst (random20 rt e) = Ok (VText t)
    /\ t = map Byte.to_N (hexlify raw)
    /\ List.length t = 40
    /\ forallb is_lower_hex t = true
    /\ (forall i, i < 20 ->
          hex_digit_value (nth (2 * i) t 0%N)
          = Some (Byte.to_N (nth i raw x00) / 16)%N
          /\ hex_digit_value (nth (2 * i + 1) t 0%N)
             = Some (Byte.to_N (nth i raw x00) mod 16)%N).
Proof.
  exists (fst (urandom 20 e)), (map Byte.to_N (hexlify (fst (urandom 20 e)))).
  destruct (hexlify_spec (fst (urandom 20 e))) as (Hl & Ha & Hh).
  assert (L : List.length (fst (urandom 20 e)) = 20).
  { unfold urandom. cbn [fst]. now rewrite length_map, length_seq. }
  split; [reflexivity|]. split; [exact L|]. split; [reflexivity|].
  split; [|split; [reflexivity|split; [|split; [exact Hh|]]]].
  - unfold random20, urandom. cbn [fst snd py_decode].
    change (hexlify (map (pool e) (seq (drawn e) 20)))
      with (hexlify (fst (urandom 20 e))).
    now rewrite (ascii_decode rt "strict" _ Ha).
  - rewrite length_map, Hl, L. reflexivity.
  - intros i Hi. rewrite <- L in Hi.
    destruct (hexlify_nth (fst (urandom 20 e)) i Hi) as [H1 H2]. rewrite H1, H2.
    pose proof (to_N_lt_256 (nth i (fst (urandom 20 e)) x00)) as B.
    split; apply hex_digit_value_hex_char.
    + divmod (Byte.to_N (nth i (fst (urandom 20 e)) x00)) 16%N. lia.
    + apply N.mod_lt. discriminate.
Qed.

(** ** The round trip through bytes *)

(** C1, as the code has it.  [tonative] returns a native string as it
    is.  On Python 2 [ntob] does so too, hence [ntou] of [ntob] is [ntou]:
    the decoded text.  On Python 3 [ntob] makes a byte string, which
    [ntou] rejects with the [TypeError] of [assert_native]; it is
    [tonative] that takes the bytes back to the string, for an encoding
    whose decoding undoes its encoding. *)
Theorem ntob_round_trip (rt : Runtime) (s : PyVal) (encoding : string) :
  isinstance_str rt s = true ->
  (forall c, other_codecs rt encoding = Some c -> Lossless c) ->
  tonative rt s encoding = Ok s
  /\ (forall b, ntob rt s encoding = Ok b -> tonative_of_ntob rt s encoding = Ok s)
  /\ (if PY3 rt
      then forall b, ntob rt s encoding = Ok b ->
                     ntou_of_ntob rt s encoding
                     = Raise (TypeError "n must be a native str (got bytes)")
      else ntou_of_ntob rt s encoding = ntou rt s encoding).
Proof.
  intros Hn Hother. unfold tonative_of_ntob, ntou_of_ntob, ntob, ntou.
  rewrite (assert_native_ok _ _ Hn). cbn [bind].
  unfold isinstance_str in Hn. unfold tonative.
  destruct (PY3 rt) eqn:P; destruct s; cbn in Hn; try discriminate.
  - (* Python 3, a [str] *)
    cbn [isinstance_bytes py_encode].
    split; [reflexivity|]. split; intros b0 H.
    + destruct (text_encode rt t encoding "strict") as [x|] eqn:E; [|discriminate].
      cbn [bind isinstance_bytes py_decode].
      now rewrite (bytes_decode_text_encode rt encoding t x Hother E).
    + destruct (text_encode rt t encoding "strict") as [x|] eqn:E; [|discriminate].
      cbn [bind]. unfold assert_native, isinstance_str, type_name. now rewrite P.
  - (* Python 2, a byte string *)
    cbn [isinstance_text bind]. rewrite (assert_native_ok rt (VBytes b)).
    + repeat split.
    + unfold isinstance_str. now rewrite P.
Qed.

Lemma ntob_round_trip_witness :
  tonative python3 (VText [233%N]) "ISO-8859-1" = Ok (VText [233%N])
  /\ tonative_of_ntob python3 (VText [233%N]) "ISO-8859-1" = Ok (VText [233%N])
  /\ ntou_of_ntob python3 (VText [233%N]) "ISO-8859-1"
     = Raise (TypeError "n must be a native str (got bytes)")
  /\ ntou_of_ntob python27 (VBytes [xe9]) "ISO-8859-1" = Ok (VText [233%N]).
Proof.
  assert (H3 : forall c, other_codecs python3 "ISO-8859-1" = Some c -> Lossless c)
    by (intros c H; discriminate H).
  assert (H2 : forall c, other_codecs python27 "ISO-8859-1" = Some c -> Lossless c)
    by (intros c H; discriminate H).
  destruct (ntob_round_trip python3 (VText [233%N]) "ISO-8859-1" eq_refl H3)
    as (A & B & C).
  destruct (ntob_round_trip python27 (VBytes [xe9]) "ISO-8859-1" eq_refl H2)
    as (_ & _ & D).
  split; [exact A|]. split; [exact (B (VBytes [xe9]) eq_refl)|].
  split; [exact (C (VBytes [xe9]) eq_refl)|].
  cbn [PY3 python27 version_info fst Nat.eqb] in D. rewrite D. reflexivity.
Defined.

(** C1, as the specification has it, fails on both runtimes.  On Python 3
    the left side raises where the right side returns the string.  On
    Python 2 the left side is a unicode string and the right side the
    byte string, which compare unequal once a byte is not ASCII. *)
Lemma ntou_of_ntob_is_not_tonative :
  ntou_of_ntob python3 (VText (u_lit "a")) "ISO-8859-1"
  = Raise (TypeError "n must be a native str (got bytes)")
  /\ tonative python3 (VText (u_lit "a")) "ISO-8859-1" = Ok (VText (u_lit "a"))
  /\ ntou_of_ntob python27 (VBytes [xe9]) "ISO-8859-1" = Ok (VText [233%N])
  /\ tonative python27 (VBytes [xe9]) "ISO-8859-1" = Ok (VBytes [xe9])
  /\ str_eq python27 (VText [233%N]) (VBytes [xe9]) = false.
Proof. repeat split. Qed.

(** ** Query strings *)

Lemma to_N_inj (x y : byte) : Byte.to_N x = Byte.to_N y -> x = y.
Proof.
  intros H. pose proof (Byte.of_to_N x) as Hx. rewrite H, Byte.of_to_N in Hx.
  now injection Hx.
Qed.

Lemma byte_eqb_to_N (x y : byte) : Byte.eqb x y = (Byte.to_N x =? Byte.to_N y)%N.
Proof.
  destruct (Byte.eqb x y) eqn:E.
  - apply Byte.byte_dec_bl in E. subst. now rewrite N.eqb_refl.
  - apply Byte.eqb_false in E. symmetry. apply N.eqb_neq. intros H.
    now apply E, to_N_inj.
Qed.

Lemma replace_plus_text_bytes (atom : bytes) :
  replace_plus_text (map Byte.to_N atom) = map Byte.to_N (replace_plus_bytes atom).
Proof.
  unfold replace_plus_text, replace_plus_bytes. rewrite !map_map.
  apply map_ext. intros x. rewrite byte_eqb_to_N.
  change (Byte.to_N x2b) with 43%N. now destruct (Byte.to_N x =? 43)%N.
Qed.

Lemma replace_plus_bytes_ascii (atom : bytes) :
  ascii_only atom = true -> ascii_only (replace_plus_bytes atom) = true.
Proof.
  unfold ascii_only, replace_plus_bytes.
  induction atom as [|x atom IH]; [reflexivity|].
  cbn [map forallb]. intros H. apply andb_prop in H. destruct H as [Hx Hb].
  rewrite (IH Hb), andb_true_r.
  destruct (Byte.eqb x x2b); [reflexivity | exact Hx].
Qed.

Lemma replace_plus_bytes_no_plus (atom : bytes) :
  existsb (Byte.eqb x2b) (replace_plus_bytes atom) = false.
Proof.
  induction atom as [|x atom IH]; [reflexivity|].
  cbn [replace_plus_bytes map existsb]. fold (replace_plus_bytes atom). rewrite IH.
  destruct (Byte.eqb x x2b) eqn:E; [reflexivity|].
  rewrite orb_false_r. destruct (Byte.eqb x2b x) eqn:E'; [|reflexivity].
  apply Byte.byte_dec_bl in E'. subst. discriminate E.
Qed.

Lemma percent_in_text (b : bytes) :
  existsb (N.eqb 37) (map Byte.to_N b) = existsb (Byte.eqb x25) b.
Proof.
  induction b as [|x b IH]; [reflexivity|].
  cbn [map existsb]. now rewrite IH, byte_eqb_to_N.
Qed.

Lemma asciire_split_ascii (x : byte) (b : bytes) :
  ascii_only (x :: b) = true ->
  asciire_split (map Byte.to_N (x :: b)) = ([], [(map Byte.to_N (x :: b), [])]).
Proof.
  revert x. induction b as [|y b IH]; intros x H.
  - cbn [ascii_only forallb] in H. rewrite andb_true_r in H.
    cbn [map asciire_split]. now rewrite H.
  - cbn [ascii_only forallb] in H. apply andb_prop in H. destruct H as [Hx Hb].
    specialize (IH y Hb). change (map Byte.to_N (x :: y :: b))
      with (Byte.to_N x :: map Byte.to_N (y :: b)).
    cbn [asciire_split]. fold (asciire_split (map Byte.to_N (y :: b))).
    rewrite IH. now rewrite Hx.
Qed.

(** On an atom of ASCII with a percent sign, [urllib.parse.unquote] is
    the decoding of the unquoted bytes. *)
Lemma parse_unquote_ascii (rt : Runtime) (b : bytes) (encoding errors : string) :
  ascii_only b = true -> existsb (Byte.eqb x25) b = true ->
  parse_unquote rt (map Byte.to_N b) encoding errors
  = bytes_decode rt (unquote_to_bytes b) encoding errors.
Proof.
  intros Ha Hp. unfold parse_unquote. rewrite percent_in_text, Hp. cbn [negb].
  destruct b as [|x b]; [discriminate|].
  rewrite (asciire_split_ascii x b Ha). cbn [unquote_runs].
  rewrite map_byte_of_N_to_N.
  destruct (bytes_decode rt (unquote_to_bytes (x :: b)) encoding errors); cbn [bind app];
    [|reflexivity].
  now rewrite !app_nil_r.
Qed.

Lemma replace_plus_text_no_plus (atom : text) :
  existsb (N.eqb 43) (replace_plus_text atom) = false.
Proof.
  induction atom as [|c atom IH]; [reflexivity|].
  cbn [replace_plus_text map existsb]. fold (replace_plus_text atom). rewrite IH.
  destruct (N.eqb_spec c 43) as [->|Hc]; [reflexivity|].
  rewrite orb_false_r. apply N.eqb_neq. congruence.
Qed.

Lemma replace_plus_bytes_percent (atom : bytes) :
  existsb (Byte.eqb x25) (replace_plus_bytes atom) = existsb (Byte.eqb x25) atom.
Proof.
  unfold replace_plus_bytes. induction atom as [|x atom IH]; [reflexivity|].
  cbn [map existsb]. rewrite IH. f_equal.
  destruct (Byte.eqb x x2b) eqn:E; [|reflexivity].
  apply Byte.byte_dec_bl in E. now subst.
Qed.

Lemma unquote_qs_py3_ascii (rt : Runtime) (atom : bytes) (encoding errors : string) :
  ascii_only atom = true ->
  unquote_qs_py3 rt (map Byte.to_N atom) encoding errors
  = (if existsb (Byte.eqb x25) atom
     then bytes_decode rt (unquote_to_bytes (replace_plus_bytes atom)) encoding errors
     else Ok (map Byte.to_N (replace_plus_bytes atom))).
Proof.
  intros Ha. unfold unquote_qs_py3. rewrite replace_plus_text_bytes.
  pose proof (replace_plus_bytes_percent atom) as Hp.
  destruct (existsb (Byte.eqb x25) atom) eqn:P.
  - apply parse_unquote_ascii; [now apply replace_plus_bytes_ascii | exact Hp].
  - unfold parse_unquote. now rewrite percent_in_text, Hp.
Qed.

Lemma split_on_absent (sep : byte) (b : bytes) :
  existsb (Byte.eqb sep) b = false -> split_on sep b = (b, []).
Proof.
  induction b as [|x b IH]; [reflexivity|].
  cbn [existsb split_on]. intros H. apply orb_false_elim in H. destruct H as [Hx Hb].
  rewrite (IH Hb). destruct (Byte.eqb x sep) eqn:E; [|reflexivity].
  apply Byte.byte_dec_bl in E. subst. now rewrite (Byte.byte_dec_lb eq_refl) in Hx.
Qed.

Lemma unquote_to_bytes_no_percent (b : bytes) :
  existsb (Byte.eqb x25) b = false -> unquote_to_bytes b = b.
Proof.
  intros H. unfold unquote_to_bytes. rewrite (split_on_absent _ _ H).
  cbn [map List.concat]. apply app_nil_r.
Qed.

(** *** Unquoting, piece by piece *)

Lemma hexdig_not_percent (x : byte) : is_hexdig x = true -> Byte.eqb x x25 = false.
Proof.
  intros H. destruct (Byte.eqb x x25) eqn:E; [|reflexivity].
  apply Byte.byte_dec_bl in E. subst x. discriminate H.
Qed.

Lemma hexdig_not_plus (x : byte) : is_hexdig x = true -> Byte.eqb x x2b = false.
Proof.
  intros H. destruct (Byte.eqb x x2b) eqn:E; [|reflexivity].
  apply Byte.byte_dec_bl in E. subst x. discriminate H.
Qed.

Lemma unquote_to_bytes_other (x : byte) (s : bytes) :
  Byte.eqb x x25 = false -> unquote_to_bytes (x :: s) = x :: unquote_to_bytes s.
Proof.
  intros H. unfold unquote_to_bytes. cbn [split_on].
  destruct (split_on x25 s) as [first items]. now rewrite H.
Qed.

Lemma unquote_to_bytes_escape (h1 h2 : byte) (s : bytes) :
  is_hexdig h1 && is_hexdig h2 = true ->
  unquote_to_bytes (x25 :: h1 :: h2 :: s)
  = byte_of_N (hexdig_value h1 * 16 + hexdig_value h2) :: unquote_to_bytes s.
Proof.
  intros H. pose proof H as H'. apply andb_prop in H'. destruct H' as [H1 H2].
  unfold unquote_to_bytes. cbn [split_on].
  destruct (split_on x25 s) as [first items].
  rewrite (hexdig_not_percent _ H1), (hexdig_not_percent _ H2).
  change (Byte.eqb x25 x25) with true. cbv beta iota.
  cbn [map List.concat unquote_item app]. now rewrite H.
Qed.

Lemma unquote_to_bytes_percent (s : bytes) :
  escape_ahead s = false ->
  unquote_to_bytes (x25 :: s) = x25 :: unquote_to_bytes s.
Proof.
  intros H. unfold unquote_to_bytes. cbn [split_on].
  destruct s as [|h1 [|h2 s]].
  - reflexivity.
  - cbn [split_on]. destruct (Byte.eqb h1 x25); reflexivity.
  - cbn [escape_ahead] in H. cbn [split_on].
    destruct (split_on x25 s) as [first items].
    destruct (Byte.eqb h2 x25) eqn:E2; destruct (Byte.eqb h1 x25) eqn:E1;
      change (Byte.eqb x25 x25) with true; cbv beta iota;
      cbn [map List.concat unquote_item app]; try reflexivity.
    now rewrite H.
Qed.

Lemma escape_ahead_app (x : bytes) (c : byte) (y : bytes) :
  is_hexdig c = false -> escape_ahead (x ++ c :: y) = escape_ahead x.
Proof.
  intros H. destruct x as [|h1 [|h2 x]]; cbn [app escape_ahead].
  - destruct y; [reflexivity|]. now rewrite H.
  - rewrite H. apply andb_false_r.
  - reflexivity.
Qed.

(** Unquoting can be done piece by piece, when the second piece starts
    with a character that is no hexadecimal digit. *)
Lemma unquote_to_bytes_app (x : bytes) (c : byte) (y : bytes) :
  is_hexdig c = false ->
  unquote_to_bytes (x ++ c :: y) = unquote_to_bytes x ++ unquote_to_bytes (c :: y).
Proof.
  intros Hc.
  assert (G : forall n x, List.length x <= n ->
    unquote_to_bytes (x ++ c :: y) = unquote_to_bytes x ++ unquote_to_bytes (c :: y)).
  { clear x. induction n as [|n IH]; intros x Hn.
    - destruct x; [reflexivity | cbn in Hn; lia].
    - destruct x as [|a x]; [reflexivity|]. cbn [List.length] in Hn.
      destruct (Byte.eqb a x25) eqn:Ea.
      + apply Byte.byte_dec_bl in Ea. subst a. cbn [app].
        destruct (escape_ahead x) eqn:Ex.
        * destruct x as [|h1 [|h2 x]]; try discriminate Ex. cbn [escape_ahead] in Ex.
          cbn [app]. rewrite !(unquote_to_bytes_escape _ _ _ Ex).
          rewrite IH by (cbn [List.length] in Hn; lia). reflexivity.
        * rewrite (unquote_to_bytes_percent x Ex).
          rewrite unquote_to_bytes_percent by now rewrite escape_ahead_app.
          rewrite IH by lia. reflexivity.
      + cbn [app]. rewrite !(unquote_to_bytes_other a _ Ea).
        rewrite IH by lia. reflexivity. }
  exact (G (List.length x) x (le_n _)).
Qed.

Lemma replace_plus_bytes_app (x y : bytes) :
  replace_plus_bytes (x ++ y) = replace_plus_bytes x ++ replace_plus_bytes y.
Proof. unfold replace_plus_bytes. apply map_app. Qed.

Lemma replace_plus_hexdig (h : byte) :
  is_hexdig (if Byte.eqb h x2b then x20 else h) = is_hexdig h.
Proof.
  destruct (Byte.eqb h x2b) eqn:E; [|reflexivity].
  apply Byte.byte_dec_bl in E. now subst h.
Qed.

Lemma escape_ahead_replace_plus (y : bytes) :
  escape_ahead (replace_plus_bytes y) = escape_ahead y.
Proof.
  destruct y as [|h1 [|h2 y]]; try reflexivity.
  unfold replace_plus_bytes. cbn [map escape_ahead].
  now rewrite !replace_plus_hexdig.
Qed.

Lemma unquote_plus_is_space (x y : bytes) :
  unquote_to_bytes (replace_plus_bytes (x ++ x2b :: y))
  = unquote_to_bytes (replace_plus_bytes x) ++ x20 :: unquote_to_bytes (replace_plus_bytes y).
Proof.
  rewrite replace_plus_bytes_app.
  change (replace_plus_bytes (x2b :: y)) with (x20 :: replace_plus_bytes y).
  rewrite unquote_to_bytes_app by reflexivity.
  now rewrite (unquote_to_bytes_other x20) by reflexivity.
Qed.

Lemma unquote_escape_is_byte (x y : bytes) (h1 h2 : byte) :
  is_hexdig h1 && is_hexdig h2 = true ->
  unquote_to_bytes (replace_plus_bytes (x ++ x25 :: h1 :: h2 :: y))
  = unquote_to_bytes (replace_plus_bytes x)
    ++ byte_of_N (hexdig_value h1 * 16 + hexdig_value h2)
    :: unquote_to_bytes (replace_plus_bytes y).
Proof.
  intros H. rewrite replace_plus_bytes_app.
  assert (E : replace_plus_bytes (x25 :: h1 :: h2 :: y)
              = x25 :: h1 :: h2 :: replace_plus_bytes y).
  { apply andb_prop in H. destruct H as [H1 H2].
    unfold replace_plus_bytes. cbn [map].
    now rewrite (hexdig_not_plus _ H1), (hexdig_not_plus _ H2). }
  rewrite E, unquote_to_bytes_app by reflexivity.
  now rewrite (unquote_to_bytes_escape _ _ _ H).
Qed.

Lemma unquote_percent_is_kept (x y : bytes) :
  escape_ahead y = false ->
  unquote_to_bytes (replace_plus_bytes (x ++ x25 :: y))
  = unquote_to_bytes (replace_plus_bytes x) ++ x25 :: unquote_to_bytes (replace_plus_bytes y).
Proof.
  intros H. rewrite replace_plus_bytes_app.
  change (replace_plus_bytes (x25 :: y)) with (x25 :: replace_plus_bytes y).
  rewrite unquote_to_bytes_app by reflexivity.
  now rewrite unquote_to_bytes_percent by now rewrite escape_ahead_replace_plus.
Qed.

(** The value [int(h, 16)] gives a hexadecimal digit is the one
    [unquote_to_bytes] takes for it. *)
Lemma hexdig_value_spec (h : byte) (d : N) :
  hex_digit_value (Byte.to_N h) = Some d -> is_hexdig h = true /\ hexdig_value h = d.
Proof.
  unfold hex_digit_value, is_hexdig, hexdig_value. cbv zeta.
  generalize (Byte.to_N h). intros c H.
  destruct (N.leb_spec 48 c), (N.leb_spec c 57), (N.leb_spec 97 c), (N.leb_spec c 102),
    (N.leb_spec 65 c), (N.leb_spec c 70);
    cbn [andb orb] in *; try discriminate H; try lia;
    (split; [reflexivity | congruence]).
Qed.

(** C5. [unquote_qs] replaces every plus sign of the atom by a space, so
    that none is left, and then unquotes with the encoding and the error
    handler given: on Python 2 the percent escapes are resolved and the
    bytes decoded; on Python 3 that is what [urllib.parse.unquote] does
    to an atom of ASCII with a percent sign, and it returns an atom
    without one as it is.  Piece by piece, before the bytes are decoded:
    a plus sign gives a space; a percent sign with two hexadecimal digits
    gives the byte of value sixteen times the first digit plus the second;
    a percent sign without them stays; and an atom without a plus or a
    percent sign stays as it is.  On either runtime the atom [a+b%20c]
    comes out as [a b c]. *)
Theorem unquote_qs_plus_then_percent (rt : Runtime) (encoding errors : string) :
  (forall atom : bytes,
      existsb (Byte.eqb x2b) (replace_plus_bytes atom) = false
      /\ unquote_qs_py2 rt atom encoding errors
         = bytes_decode rt (unquote_to_bytes (replace_plus_bytes atom)) encoding errors)
  /\ (forall atom : text,
        existsb (N.eqb 43) (replace_plus_text atom) = false
        /\ unquote_qs_py3 rt atom encoding errors
           = parse_unquote rt (replace_plus_text atom) encoding errors)
  /\ (forall atom : bytes,
        ascii_only atom = true ->
        unquote_qs_py3 rt (map Byte.to_N atom) encoding errors
        = (if existsb (Byte.eqb x25) atom
           then bytes_decode rt (unquote_to_bytes (replace_plus_bytes atom))
                             encoding errors
           else Ok (map Byte.to_N (replace_plus_bytes atom))))
  /\ (forall x y : bytes,
        unquote_to_bytes (replace_plus_bytes (x ++ x2b :: y))
        = unquote_to_bytes (replace_plus_bytes x)
          ++ x20 :: unquote_to_bytes (replace_plus_bytes y))
  /\ (forall (x y : bytes) (h1 h2 : byte) (d1 d2 : N),
        hex_digit_value (Byte.to_N h1) = Some d1 ->
        hex_digit_value (Byte.to_N h2) = Some d2 ->
        unquote_to_bytes (replace_plus_bytes (x ++ x25 :: h1 :: h2 :: y))
        = unquote_to_bytes (replace_plus_bytes x)
          ++ byte_of_N (d1 * 16 + d2) :: unquote_to_bytes (replace_plus_bytes y))
  /\ (forall x y : bytes,
        escape_ahead y = false ->
        unquote_to_bytes (replace_plus_bytes (x ++ x25 :: y))
        = unquote_to_bytes (replace_plus_bytes x)
          ++ x25 :: unquote_to_bytes (replace_plus_bytes y))
  /\ (forall atom : bytes,
        existsb (Byte.eqb x2b) atom = false ->
        existsb (Byte.eqb x25) atom = false ->
        unquote_to_bytes (replace_plus_bytes atom) = atom)
  /\ unquote_qs rt (if PY3 rt then VText (u_lit "a+b%20c") else VBytes (b_lit "a+b%20c"))
                 "utf-8" "strict"
     = Ok (VText (u_lit "a b c")).
Proof.
  split; [|split; [|split; [|split; [|split; [|split; [|split]]]]]].
  - intros atom. split; [apply replace_plus_bytes_no_plus | reflexivity].
  - intros atom. split; [apply replace_plus_text_no_plus | reflexivity].
  - intros atom Ha. now apply unquote_qs_py3_ascii.
  - apply unquote_plus_is_space.
  - intros x y h1 h2 d1 d2 H1 H2.
    destruct (hexdig_value_spec h1 d1 H1) as [D1 <-].
    destruct (hexdig_value_spec h2 d2 H2) as [D2 <-].
    apply unquote_escape_is_byte. now rewrite D1, D2.
  - apply unquote_percent_is_kept.
  - intros atom Hplus Hpercent.
    assert (E : replace_plus_bytes atom = atom).
    { clear Hpercent. induction atom as [|a atom IH]; [reflexivity|].
      cbn [existsb] in Hplus. apply orb_false_elim in Hplus. destruct Hplus as [Ha Hr].
      unfold replace_plus_bytes in *. cbn [map]. rewrite (IH Hr).
      destruct (Byte.eqb a x2b) eqn:E; [|reflexivity].
      apply Byte.byte_dec_bl in E. subst a. discriminate Ha. }
    rewrite E. now apply unquote_to_bytes_no_percent.
  - unfold unquote_qs, has_urllib_parse. destruct (PY3 rt); reflexivity.
Qed.

Lemma bytes_decode_ascii_as_is (rt : Runtime) (encoding errors : string) (b : bytes) :
  decodes_ascii_as_is rt encoding -> ascii_only b = true ->
  bytes_decode rt b encoding errors = Ok (map Byte.to_N b).
Proof.
  intros (c & L & T) H. unfold bytes_decode. rewrite L.
  now rewrite (decode_ascii (c := c) errors b H).
Qed.

(** ISO-8859-1, ASCII and UTF-8 are such encodings on every runtime. *)
Lemma common_encodings_decode_ascii_as_is (rt : Runtime) :
  decodes_ascii_as_is rt "ISO-8859-1"
  /\ decodes_ascii_as_is rt "ascii"
  /\ decodes_ascii_as_is rt "utf-8".
Proof.
  split; [|split].
  - exists latin_1. split; [reflexivity | typeclasses eauto].
  - exists ascii_codec. split; [reflexivity | typeclasses eauto].
  - exists utf_8. split; [reflexivity | typeclasses eauto].
Qed.

(** C6, as the code has it.  On an atom of ASCII the two definitions of
    [unquote_qs] agree when the atom has a percent sign, and when the
    encoding decodes ASCII bytes to themselves.  Elsewhere they need not:
    the first returns an atom without a percent sign undecoded. *)
Theorem unquote_qs_variants_agree (rt : Runtime) (atom : bytes)
    (encoding errors : string) :
  ascii_only atom = true ->
  existsb (Byte.eqb x25) atom = true \/ decodes_ascii_as_is rt encoding ->
  unquote_qs_py3 rt (map Byte.to_N atom) encoding errors
  = unquote_qs_py2 rt atom encoding errors.
Proof.
  intros Ha Hcase. rewrite (unquote_qs_py3_ascii rt atom encoding errors Ha).
  unfold unquote_qs_py2.
  destruct (existsb (Byte.eqb x25) atom) eqn:P; [reflexivity|].
  destruct Hcase as [Hp|Hc]; [discriminate|].
  rewrite (unquote_to_bytes_no_percent (replace_plus_bytes atom)).
  - symmetry. apply bytes_decode_ascii_as_is; [exact Hc|].
    now apply replace_plus_bytes_ascii.
  - now rewrite replace_plus_bytes_percent.
Qed.

Lemma unquote_qs_variants_agree_witness :
  unquote_qs_py3 python3 (u_lit "a+b%20c") "utf-8" "strict"
  = unquote_qs_py2 python3 (b_lit "a+b%20c") "utf-8" "strict"
  /\ unquote_qs_py3 python3 (u_lit "a+b") "ISO-8859-1" "strict"
     = unquote_qs_py2 python3 (b_lit "a+b") "ISO-8859-1" "strict".
Proof.
  split.
  - exact (unquote_qs_variants_agree python3 (b_lit "a+b%20c") "utf-8" "strict"
             eq_refl (or_introl eq_refl)).
  - exact (unquote_qs_variants_agree python3 (b_lit "a+b") "ISO-8859-1" "strict"
             eq_refl
             (or_intror (ex_intro _ latin_1 (conj eq_refl latin_1_ascii_transparent)))).
Defined.

(** C6, as the specification has it, fails: without a percent sign the
    first definition returns the atom where the second decodes it, or
    fails to. *)
Lemma unquote_qs_variants_differ :
  unquote_qs python3 (VText (u_lit "ab")) "utf-16-le" "strict"
  = Ok (VText (u_lit "ab"))
  /\ unquote_qs python27 (VBytes (b_lit "ab")) "utf-16-le" "strict"
     = Ok (VText [25185%N])
  /\ unquote_qs python3 (VText (u_lit "a+b")) "no-such-encoding" "strict"
     = Ok (VText (u_lit "a b"))
  /\ unquote_qs python27 (VBytes (b_lit "a+b")) "no-such-encoding" "strict"
     = Raise (LookupError "unknown encoding: no-such-encoding").
Proof. repeat split. Qed.

(** ** The MAC address *)

Lemma get_mac_loop_post (mac : string) (count : nat) (k : Kodi) :
  loop_post mac count k (get_mac_loop mac count k).
Proof.
  funelim (get_mac_loop mac count k).
  - (* the address is there *)
    unfold loop_post. rewrite Nat.sub_diag, Nat.add_0_r, N.mul_0_r, N.add_0_r.
    repeat split; try lia; try congruence.
  - (* one more turn *)
    clear Heq. rename Heq0 into Hmac.
    unfold loop_post in *.
    destruct (get_mac_loop (fst (poll_mac k)) (S count) (snd (poll_mac k)))
      as [[mac' count'] k'].
    unfold poll_mac, getInfoLabel, xbmc_sleep, log_msg, xbmc_log in H.
    cbn [fst snd requests mac_label slept kodi_log] in H.
    destruct H as (H1 & H2 & H3 & H4 & H5 & H6 & H7 & H8 & H9 & H10 & H11).
    repeat split; try lia; try congruence; try exact H8.
    + intros Hlt. destruct (Nat.eq_dec count' (S count)) as [E|E].
      * rewrite (H6 E). f_equal. f_equal. lia.
      * apply H7. lia.
    + intros i Hi1 Hi2. destruct (Nat.eq_dec i (requests k)) as [->|E].
      * destruct (has_colon (lower (mac_label k (requests k)))) eqn:C; [|reflexivity].
        specialize (H9 eq_refl). lia.
      * apply H11; lia.
  - (* no turn left *)
    unfold loop_post. rewrite Nat.sub_diag, Nat.add_0_r, N.mul_0_r, N.add_0_r.
    repeat split; try lia; try congruence.
Qed.

Lemma lower_ascii_idempotent (a : ascii) : lower_ascii (lower_ascii a) = lower_ascii a.
Proof. destruct a as [[] [] [] [] [] [] [] []]; reflexivity. Qed.

Lemma lower_idempotent (s : string) : lower (lower s) = lower s.
Proof.
  induction s as [|a s IH]; [reflexivity|].
  cbn [lower]. now rewrite lower_ascii_idempotent, IH.
Qed.

Lemma lower_ascii_hex (a : ascii) :
  implb (is_hex_ascii a) (is_lower_hex_ascii (lower_ascii a)) = true.
Proof. destruct a as [[] [] [] [] [] [] [] []]; reflexivity. Qed.

Lemma lower_ascii_colon (a : ascii) :
  Ascii.eqb (lower_ascii a) ":" = Ascii.eqb a ":".
Proof. destruct a as [[] [] [] [] [] [] [] []]; reflexivity. Qed.

Lemma lower_hex_colon_form (groups : nat) (s : string) :
  hex_colon_form is_hex_ascii groups s = true ->
  hex_colon_form is_lower_hex_ascii groups (lower s) = true.
Proof.
  revert s. induction groups as [|g IH]; intros [|a [|b rest]]; try discriminate;
    cbn [hex_colon_form lower]; intros H;
    apply andb_prop in H; destruct H as [H Hrest];
    apply andb_prop in H; destruct H as [Ha Hb];
    pose proof (lower_ascii_hex a) as La; pose proof (lower_ascii_hex b) as Lb;
    rewrite Ha in La; rewrite Hb in Lb; cbn [implb] in La, Lb; rewrite La, Lb;
    cbn [andb].
  - destruct rest; [reflexivity | discriminate].
  - destruct rest as [|c rest]; [discriminate|].
    apply andb_prop in Hrest. destruct Hrest as [Hc Hr].
    cbn [lower]. now rewrite lower_ascii_colon, Hc, (IH _ Hr).
Qed.

Lemma get_mac_result (k : Kodi) :
  exists mac count k1,
    get_mac_loop EmptyString 0 k = (mac, count, k1)
    /\ fst (get_mac k) = mac
    /\ requests (snd (get_mac k)) = requests k1
    /\ slept (snd (get_mac k)) = slept k1.
Proof.
  unfold get_mac. destruct (get_mac_loop EmptyString 0 k) as [[mac count] k1].
  exists mac, count, k1. destruct mac; repeat split.
Qed.

(** The loop of [get_mac], request by request.  [get_mac] asks for the
    label at least once and at most 360 times, sleeping a second after
    each request, and stops at the first label with a colon.  What it
    returns is the last label it read, in lower case: the address in
    hex-colon form with lowercase digits when the label was one, and the
    empty string when the 360 labels it read were all empty. *)
Lemma get_mac_polls (k : Kodi) :
  let mac := fst (get_mac k) in
  let n := requests (snd (get_mac k)) - requests k in
  1 <= n <= 360
  /\ slept (snd (get_mac k)) = (slept k + 1000 * N.of_nat n)%N
  /\ mac = lower (mac_label k (requests k + n - 1))
  /\ lower mac = mac
  /\ (forall i, i < n - 1 -> has_colon (lower (mac_label k (requests k + i))) = false)
  /\ (has_colon mac = false -> n = 360)
  /\ (hex_colon_form is_hex_ascii 5 (mac_label k (requests k + n - 1)) = true ->
      hex_colon_form is_lower_hex_ascii 5 mac = true)
  /\ ((forall i, i < 360 -> mac_label k (requests k + i) = EmptyString) ->
      mac = EmptyString).
Proof.
  cbv zeta. destruct (get_mac_result k) as (mac & count & k1 & E & -> & -> & ->).
  pose proof (get_mac_loop_post EmptyString 0 k) as P. rewrite E in P. unfold loop_post in P.
  destruct P as (_ & H2 & H3 & _ & H5 & _ & H7 & H8 & _ & H10 & H11).
  rewrite Nat.sub_0_r in *. specialize (H2 ltac:(lia)). specialize (H10 eq_refl ltac:(lia)).
  assert (Hn : requests k1 - requests k = count) by lia. rewrite Hn.
  assert (Hmac : mac = lower (mac_label k (requests k + count - 1))).
  { rewrite (H7 H10). f_equal. f_equal. lia. }
  split; [lia|]. split; [exact H5|]. split; [exact Hmac|].
  split; [rewrite Hmac; apply lower_idempotent|].
  split; [intros i Hi; apply H11; lia|].
  split; [intros C; specialize (H8 C); lia|].
  split; [intros F; rewrite Hmac; now apply lower_hex_colon_form|].
  intros Hempty. rewrite Hmac.
  replace (requests k + count - 1) with (requests k + (count - 1)) by lia.
  rewrite Hempty by lia. reflexivity.
Qed.

(** C8.  After 360 requests without an address [get_mac] is to return the
    empty string, and the code has a branch for it ([if not mac]); but the
    loop tests the label for a colon and that branch tests it for
    emptiness.  When Kodi answers [Busy] to every request, as it does
    while it looks the address up, no address was detected within the 360
    attempts, and [get_mac] returns [busy] and logs it as the detected
    address instead of returning the empty string. *)
Lemma get_mac_returns_the_last_label :
  let busy := mkKodi (fun _ => "Busy"%string) 0 0 [] in
  fst (get_mac busy) = "busy"%string
  /\ requests (snd (get_mac busy)) = 360
  /\ has_colon "Busy" = false
  /\ last (kodi_log (snd (get_mac busy))) (LOGERROR, EmptyString)
     = (LOGNOTICE, "plugin.audio.squeezebox --> Detected Mac-Address: busy"%string).
Proof. cbv zeta. repeat split; vm_compute; reflexivity. Qed.

(** ** The [json] module of CPython 3 reads back what it writes *)

Lemma lor_disjoint (a b : N) (k : N) :
  (b < 2 ^ k)%N -> N.lor (a * 2 ^ k) b = (a * 2 ^ k + b)%N.
Proof.
  intros H.
  assert (D : N.land (a * 2 ^ k) b = 0%N).
  { apply N.bits_inj. intros i. rewrite N.land_spec, N.bits_0.
    destruct (N.ltb_spec i k) as [L|L].
    - now rewrite N.mul_pow2_bits_low.
    - rewrite <- (N.mod_small b (2 ^ k)) by exact H.
      rewrite N.mod_pow2_bits_high by exact L. apply andb_false_r. }
  rewrite <- N.lxor_lor by exact D. symmetry. now apply N.add_nocarry_lxor.
Qed.

Lemma lor_1024 (a b : N) : (b < 1024)%N -> N.lor (a * 1024) b = (a * 1024 + b)%N.
Proof. intros H. exact (lor_disjoint a b 10 H). Qed.

Lemma land_1023 (x : N) : N.land x 1023 = (x mod 1024)%N.
Proof. exact (N.land_ones x 10). Qed.

Lemma shiftr_10 (x : N) : N.shiftr x 10 = (x / 1024)%N.
Proof. exact (N.shiftr_div_pow2 x 10). Qed.

Lemma shiftl_10 (x : N) : N.shiftl x 10 = (x * 1024)%N.
Proof. exact (N.shiftl_mul_pow2 x 10). Qed.

Lemma surrogate_pair (c : N) :
  (65536 <= c)%N -> (c < 1114112)%N ->
  let n := (c - 65536)%N in
  let hi := N.lor 55296 (N.land (N.shiftr n 10) 1023) in
  let lo := N.lor 56320 (N.land n 1023) in
  (hi < 65536)%N /\ (lo < 65536)%N
  /\ is_high_surrogate hi = true /\ is_low_surrogate lo = true
  /\ join_surrogates hi lo = c.
Proof.
  intros H1 H2. cbv zeta.
  assert (Hn : (c - 65536 < 1048576)%N) by lia.
  remember (c - 65536)%N as n eqn:En.
  rewrite !land_1023, shiftr_10.
  assert (Hq : (n / 1024 < 1024)%N) by (divmod n 1024%N; lia).
  rewrite (N.mod_small (n / 1024) 1024) by exact Hq.
  pose proof (N.mod_lt n 1024 ltac:(discriminate)) as Hr.
  change 55296%N with (54 * 1024)%N. change 56320%N with (55 * 1024)%N.
  rewrite !lor_1024 by assumption.
  unfold is_high_surrogate, is_low_surrogate, join_surrogates.
  rewrite !land_1023, shiftl_10.
  replace ((54 * 1024 + n / 1024) mod 1024)%N with (n / 1024)%N.
  2:{ rewrite N.add_comm, N.Div0.mod_add. now rewrite N.mod_small. }
  replace ((55 * 1024 + n mod 1024) mod 1024)%N with (n mod 1024)%N.
  2:{ rewrite N.add_comm, N.Div0.mod_add. now rewrite N.Div0.mod_mod. }
  rewrite lor_1024 by assumption.
  divmod n 1024%N.
  repeat split; N_cases; lia.
Qed.

Lemma hex4_value_hex4 (n : N) :
  (n < 65536)%N ->
  exists h1 h2 h3 h4,
    hex4 n = [h1; h2; h3; h4] /\ hex4_value h1 h2 h3 h4 = Some n.
Proof.
  intros H. unfold hex4. cbn [map]. do 4 eexists. split; [reflexivity|].
  unfold hex4_value.
  rewrite !hex_digit_value_hex_char by (apply N.mod_lt; discriminate).
  f_equal.
  replace (n / 4096)%N with (n / 16 / 16 / 16)%N by (rewrite !N.Div0.div_div; reflexivity).
  replace (n / 256)%N with (n / 16 / 16)%N by (rewrite !N.Div0.div_div; reflexivity).
  divmod n 16%N. divmod q 16%N. divmod q0 16%N.
  rewrite (N.mod_small q1 16) by lia. lia.
Qed.

Lemma scanstring_plain (c : N) (tail : text) :
  (c =? 34)%N = false -> (c =? 92)%N = false -> (c <? 32)%N = false ->
  scanstring (c :: tail) = keep c (scanstring tail).
Proof. intros H1 H2 H3. cbn [scanstring]. now rewrite H1, H2, H3. Qed.

Lemma scanstring_backslash (e ch : N) (tail : text) :
  (e =? 117)%N = false -> backslash e = Some ch ->
  scanstring (92%N :: e :: tail) = keep ch (scanstring tail).
Proof.
  intros H1 H2. cbn [scanstring].
  change (92 =? 34)%N with false. change (92 =? 92)%N with true. cbv iota.
  now rewrite H1, H2.
Qed.

Lemma scanstring_u_escape (h1 h2 h3 h4 u t0 : N) (tail : text) :
  hex4_value h1 h2 h3 h4 = Some u -> is_high_surrogate u = false ->
  scanstring (92%N :: 117%N :: h1 :: h2 :: h3 :: h4 :: t0 :: tail)
  = keep u (scanstring (t0 :: tail)).
Proof.
  intros H1 H2. cbn [scanstring].
  change (92 =? 34)%N with false. change (92 =? 92)%N with true.
  change (117 =? 117)%N with true. cbv iota. rewrite H1, H2. cbn [andb].
  destruct tail as [|a1 [|a2 [|a3 [|a4 [|a5 [|a6 tail]]]]]]; reflexivity.
Qed.

Lemma scanstring_u_pair (h1 h2 h3 h4 g1 g2 g3 g4 hi lo t0 : N) (tail : text) :
  hex4_value h1 h2 h3 h4 = Some hi -> is_high_surrogate hi = true ->
  hex4_value g1 g2 g3 g4 = Some lo -> is_low_surrogate lo = true ->
  scanstring (92%N :: 117%N :: h1 :: h2 :: h3 :: h4
              :: 92%N :: 117%N :: g1 :: g2 :: g3 :: g4 :: t0 :: tail)
  = keep (join_surrogates hi lo) (scanstring (t0 :: tail)).
Proof.
  intros H1 H2 H3 H4. cbn [scanstring].
  change (92 =? 34)%N with false. change (92 =? 92)%N with true.
  change (117 =? 117)%N with true. cbv iota. rewrite H1, H2. cbn [andb].
  cbv iota. now rewrite H3, H4.
Qed.

Lemma scanstring_escape_char (c t0 : N) (tail s rest : text) :
  is_scalar_value c = true ->
  scanstring (t0 :: tail) = Ok (s, rest) ->
  scanstring (escape_char c ++ t0 :: tail) = Ok (c :: s, rest).
Proof.
  intros Hc Ht. unfold is_scalar_value, is_surrogate in Hc.
  assert (K : forall ch, keep ch (scanstring (t0 :: tail)) = Ok (ch :: s, rest))
    by (intros ch; now rewrite Ht).
  unfold escape_char.
  destruct (N.eqb_spec c 92) as [->|N92];
    [rewrite <- K; exact (scanstring_backslash 92 92 _ eq_refl eq_refl)|].
  destruct (N.eqb_spec c 34) as [->|N34];
    [rewrite <- K; exact (scanstring_backslash 34 34 _ eq_refl eq_refl)|].
  destruct (N.eqb_spec c 8) as [->|N8];
    [rewrite <- K; exact (scanstring_backslash 98 8 _ eq_refl eq_refl)|].
  destruct (N.eqb_spec c 12) as [->|N12];
    [rewrite <- K; exact (scanstring_backslash 102 12 _ eq_refl eq_refl)|].
  destruct (N.eqb_spec c 10) as [->|N10];
    [rewrite <- K; exact (scanstring_backslash 110 10 _ eq_refl eq_refl)|].
  destruct (N.eqb_spec c 13) as [->|N13];
    [rewrite <- K; exact (scanstring_backslash 114 13 _ eq_refl eq_refl)|].
  destruct (N.eqb_spec c 9) as [->|N9];
    [rewrite <- K; exact (scanstring_backslash 116 9 _ eq_refl eq_refl)|].
  destruct ((32 <=? c) && (c <=? 126))%N eqn:Hp.
  { cbn [app]. rewrite scanstring_plain; [apply K| | |]; N_cases_in Hp; N_cases;
      try reflexivity; try discriminate; lia. }
  destruct (N.ltb_spec c 65536) as [L|L].
  - destruct (hex4_value_hex4 c L) as (h1 & h2 & h3 & h4 & E & V).
    unfold u_escape. rewrite E. cbn [app].
    rewrite (scanstring_u_escape h1 h2 h3 h4 c t0 tail V); [apply K|].
    unfold is_high_surrogate. N_cases_in Hc; N_cases; try reflexivity; try discriminate; lia.
  - assert (U : (c < 1114112)%N) by (N_cases_in Hc; try discriminate; lia).
    destruct (surrogate_pair c L U) as (Hhi & Hlo & Shi & Slo & J).
    cbv zeta in *.
    destruct (hex4_value_hex4 _ Hhi) as (h1 & h2 & h3 & h4 & E & V).
    destruct (hex4_value_hex4 _ Hlo) as (g1 & g2 & g3 & g4 & E' & V').
    unfold u_escape. rewrite E, E'. cbn [app].
    rewrite (scanstring_u_pair h1 h2 h3 h4 g1 g2 g3 g4 _ _ t0 tail V Shi V' Slo).
    rewrite J. apply K.
Qed.

Lemma scanstring_escaped (s rest : text) :
  forallb is_scalar_value s = true ->
  scanstring (flat_map escape_char s ++ 34%N :: rest) = Ok (s, rest).
Proof.
  induction s as [|c s IH]; intros H.
  - reflexivity.
  - cbn [forallb] in H. apply andb_prop in H. destruct H as [Hc Hs].
    specialize (IH Hs). cbn [flat_map]. rewrite <- app_assoc.
    destruct (flat_map escape_char s ++ 34%N :: rest) as [|t0 tail] eqn:E.
    + destruct (flat_map escape_char s); discriminate E.
    + now apply scanstring_escape_char.
Qed.

(** *** Integers *)

Lemma scan_digits_text (d : Decimal.uint) (acc : N) (rest : text) :
  no_digit_ahead rest = true ->
  scan_digits acc (digits_text d ++ rest) = (uint_value d acc, rest).
Proof.
  intros H. revert acc.
  induction d as [|d IH|d IH|d IH|d IH|d IH|d IH|d IH|d IH|d IH|d IH]; intros acc;
    try exact (IH _).
  - change (digits_text Decimal.Nil ++ rest) with rest. cbn [uint_value].
    destruct rest as [|c rest]; [reflexivity|].
    cbn [no_digit_ahead] in H. cbn [scan_digits].
    now rewrite (proj1 (negb_true_iff _) H).
  - change (scan_digits (acc * 10 + 0) (digits_text d ++ rest)
            = (uint_value d (acc * 10), rest)).
    rewrite N.add_0_r. apply IH.
Qed.

Lemma uint_value_pos (d : Decimal.uint) (p : positive) :
  uint_value d (Npos p) = Npos (Pos.of_uint_acc d p).
Proof.
  revert p.
  induction d as [|d IH|d IH|d IH|d IH|d IH|d IH|d IH|d IH|d IH|d IH]; intros p;
    cbn [uint_value Pos.of_uint_acc]; try reflexivity;
    rewrite <- IH; f_equal; lia.
Qed.

Lemma uint_value_0 (d : Decimal.uint) : uint_value d 0 = Pos.of_uint d.
Proof.
  induction d as [|d IH|d IH|d IH|d IH|d IH|d IH|d IH|d IH|d IH|d IH];
    cbn [uint_value Pos.of_uint N.mul N.add]; try reflexivity; try exact IH;
    apply uint_value_pos.
Qed.

Lemma to_uint_first_digit (p : positive) :
  exists c tail,
    digits_text (Pos.to_uint p) = c :: tail
    /\ is_digit_cp c = true /\ (c =? 48)%N = false.
Proof.
  pose proof (DecimalPos.Unsigned.to_of (Pos.to_uint p)) as H.
  rewrite DecimalPos.Unsigned.of_to in H. cbn [N.to_uint] in H.
  pose proof (DecimalPos.Unsigned.to_uint_nonzero p) as Hz.
  destruct (Pos.to_uint p) as [|d|d|d|d|d|d|d|d|d|d] eqn:E;
    try (do 2 eexists; split; [reflexivity | split; reflexivity]).
  - now elim (DecimalPos.Unsigned.to_uint_nonnil p).
  - exfalso. rewrite DecimalFacts.unorm_D0 in H.
    destruct d as [|d|d|d|d|d|d|d|d|d|d]; try (now elim Hz);
      match type of H with
      | _ = Decimal.unorm ?u =>
          pose proof (DecimalFacts.nb_digits_unorm u ltac:(discriminate)) as L;
          rewrite <- H in L; cbn [Decimal.nb_digits] in L; lia
      end.
Qed.

Lemma delimited_no_digit (rest : text) :
  delimited rest = true -> no_digit_ahead rest = true /\ float_follows rest = false.
Proof.
  destruct rest as [|c rest]; [now split|].
  unfold delimited, no_digit_ahead, float_follows, is_digit_cp. intros H.
  destruct rest as [|d rest]; N_cases_in H; try discriminate; subst;
    split; reflexivity.
Qed.

Lemma scan_natural_pos (p : positive) (rest : text) :
  no_digit_ahead rest = true ->
  scan_natural (digits_text (Pos.to_uint p) ++ rest) = Some (Npos p, rest).
Proof.
  intros H. pose proof (scan_digits_text (Pos.to_uint p) 0 rest H) as S.
  destruct (to_uint_first_digit p) as (c & tail & E & Hd & Hz).
  rewrite E in *. cbn [app scan_natural] in *. rewrite Hz, Hd, S. f_equal. f_equal.
  rewrite uint_value_0. apply DecimalPos.Unsigned.of_to.
Qed.

Lemma intstr_pos (p : positive) : intstr (Zpos p) = digits_text (Pos.to_uint p).
Proof.
  unfold intstr, digits_text. cbn [Z.to_int NilZero.string_of_int NilZero.string_of_uint].
  pose proof (DecimalPos.Unsigned.to_uint_nonnil p) as H.
  now destruct (Pos.to_uint p).
Qed.

Lemma intstr_neg (p : positive) : intstr (Zneg p) = 45%N :: digits_text (Pos.to_uint p).
Proof.
  unfold intstr, digits_text. cbn [Z.to_int NilZero.string_of_int NilZero.string_of_uint].
  pose proof (DecimalPos.Unsigned.to_uint_nonnil p) as H.
  now destruct (Pos.to_uint p).
Qed.

Lemma int_fits_digits (z : Z) :
  int_fits z = true -> Nat.ltb int_max_str_digits (int_digits z) = false.
Proof. unfold int_fits. intros H. apply Nat.ltb_ge. now apply Nat.leb_le. Qed.

Lemma int_repr_fits (z : Z) : int_fits z = true -> int_repr z = Ok (intstr z).
Proof. intros H. unfold int_repr. now rewrite (int_fits_digits z H). Qed.

Lemma match_number_intstr (z : Z) (rest : text) :
  int_fits z = true -> delimited rest = true ->
  match_number (intstr z ++ rest) = Ok (VInt z, rest).
Proof.
  intros Hz H. destruct (delimited_no_digit rest H) as [Hd Hf].
  pose proof (int_fits_digits z Hz) as L.
  destruct z as [|p|p].
  - change (intstr 0) with [48%N]. cbn [app match_number scan_natural].
    change (48 =? 45)%N with false. change (48 =? 48)%N with true. cbv iota.
    rewrite Hf. change (Z.of_N 0) with 0%Z. now rewrite L.
  - rewrite intstr_pos. destruct (to_uint_first_digit p) as (c & tail & E & Hc & _).
    pose proof (scan_natural_pos p rest Hd) as S. rewrite E in *. cbn [app] in *.
    cbn [match_number]. unfold is_digit_cp in Hc.
    replace (c =? 45)%N with false by (N_cases_in Hc; N_cases; try discriminate; lia).
    rewrite S, Hf. change (Z.of_N (N.pos p)) with (Z.pos p). now rewrite L.
  - rewrite intstr_neg. cbn [app match_number]. change (45 =? 45)%N with true. cbv iota.
    rewrite (scan_natural_pos p rest Hd), Hf.
    change (Z.of_N (N.pos p)) with (Z.pos p).
    change (int_digits (Z.pos p)) with (int_digits (Z.neg p)). now rewrite L.
Qed.

Lemma scan_once_number (depth f : nat) (c : N) (tail : text) :
  is_digit_cp c = true
  \/ (c = 45%N /\ match tail with d :: _ => is_digit_cp d = true | [] => False end) ->
  scan_once depth (S f) (c :: tail) = match_number (c :: tail).
Proof.
  intros H. cbn [scan_once].
  change (u_lit "null") with [110; 117; 108; 108]%N.
  change (u_lit "true") with [116; 114; 117; 101]%N.
  change (u_lit "false") with [102; 97; 108; 115; 101]%N.
  change (u_lit "NaN") with [78; 97; 78]%N.
  change (u_lit "Infinity") with [73; 110; 102; 105; 110; 105; 116; 121]%N.
  change (u_lit "-Infinity") with [45; 73; 110; 102; 105; 110; 105; 116; 121]%N.
  unfold is_digit_cp in H. destruct H as [H|[-> H]].
  - cbn [starts_with]. N_cases_in H; try discriminate. N_cases; reflexivity.
  - destruct tail as [|d tail]; [now elim H|].
    cbn [starts_with]. N_cases_in H; try discriminate.
    change (45 =? 34)%N with false. change (45 =? 123)%N with false.
    change (45 =? 91)%N with false. change (110 =? 45)%N with false.
    change (116 =? 45)%N with false. change (102 =? 45)%N with false.
    change (78 =? 45)%N with false. change (73 =? 45)%N with false.
    change (45 =? 45)%N with true. cbv iota. N_cases. reflexivity.
Qed.

Lemma scan_once_int (depth f : nat) (z : Z) (rest : text) :
  int_fits z = true -> delimited rest = true ->
  scan_once depth (S f) (intstr z ++ rest) = Ok (VInt z, rest).
Proof.
  intros Hz H. rewrite <- (match_number_intstr z rest Hz H).
  destruct z as [|p|p].
  - apply scan_once_number. now left.
  - rewrite intstr_pos. destruct (to_uint_first_digit p) as (c & tail & E & Hc & _).
    rewrite E. apply scan_once_number. now left.
  - rewrite intstr_neg. destruct (to_uint_first_digit p) as (c & tail & E & Hc & _).
    rewrite E. apply scan_once_number. right. split; [reflexivity | exact Hc].
Qed.

(** *** Values *)

Lemma PyVal_induction (P : PyVal -> Prop) :
  P VNone -> (forall b, P (VBool b)) -> (forall z, P (VInt z)) ->
  (forall b, P (VBytes b)) -> (forall t, P (VText t)) ->
  (forall l, Forall P l -> P (VList l)) ->
  (forall d, Forall (fun kv => P (fst kv) /\ P (snd kv)) d -> P (VDict d)) ->
  forall v, P v.
Proof.
  intros HN HB HI HY HT HL HD. fix IH 1. intros [| b | z | b | t | l | d].
  - exact HN.
  - apply HB.
  - apply HI.
  - apply HY.
  - apply HT.
  - apply HL. induction l as [|x l IHl]; constructor; [apply IH | exact IHl].
  - apply HD. induction d as [|[k x] d IHd]; constructor;
      [split; apply IH | exact IHd].
Qed.

Lemma value_start_facts (c : N) :
  value_start c = true ->
  is_whitespace c = false /\ (c =? 93)%N = false /\ (c =? 125)%N = false.
Proof.
  unfold value_start, is_whitespace, is_digit_cp. intros H.
  N_cases_in H; try discriminate; subst; repeat split; N_cases; reflexivity || lia.
Qed.

Lemma dumps_start (v : PyVal) :
  json_value v = true ->
  exists c tail, dumps v = c :: tail /\ value_start c = true.
Proof.
  destruct v as [| [|] | z | b | t | [|x l] | [|[k x] d]]; intros H;
    try discriminate; try (do 2 eexists; split; reflexivity).
  destruct z as [|p|p].
  - do 2 eexists; split; reflexivity.
  - cbn [dumps atom_repr]. rewrite intstr_pos.
    destruct (to_uint_first_digit p) as (c & tail & E & Hc & _). rewrite E.
    exists c, tail. split; [reflexivity|]. unfold value_start. rewrite Hc.
    now rewrite !orb_true_r.
  - cbn [dumps atom_repr]. rewrite intstr_neg. do 2 eexists; split; reflexivity.
Qed.

Lemma skip_whitespace_start (c : N) (tail : text) :
  is_whitespace c = false -> skip_whitespace (c :: tail) = c :: tail.
Proof. intros H. cbn [skip_whitespace]. now rewrite H. Qed.

Lemma skip_whitespace_dumps (v : PyVal) (rest : text) :
  json_value v = true -> skip_whitespace (dumps v ++ rest) = dumps v ++ rest.
Proof.
  intros H. destruct (dumps_start v H) as (c & tail & E & Hc). rewrite E.
  apply skip_whitespace_start. now apply value_start_facts.
Qed.

Lemma elements_tail_delimited (l : list PyVal) (rest : text) :
  delimited (elements_tail l ++ rest) = true.
Proof. destruct l; reflexivity. Qed.

Lemma elements_tail_length (l : list PyVal) : 1 <= List.length (elements_tail l).
Proof. unfold elements_tail. rewrite length_app. cbn. lia. Qed.

Lemma elements_tail_cons (y : PyVal) (l : list PyVal) :
  elements_tail (y :: l) = 44%N :: 32%N :: dumps y ++ elements_tail l.
Proof.
  unfold elements_tail. cbn [flat_map]. rewrite <- app_assoc. reflexivity.
Qed.

Lemma parse_array_elements (l : list PyVal) :
  Forall read_back l ->
  forall (x : PyVal) (acc : list PyVal) (depth fuel : nat) (rest : text),
    read_back x -> json_value x = true -> forallb json_value l = true ->
    fits depth x = true -> forallb (fits depth) l = true ->
    List.length (dumps x ++ elements_tail l) <= fuel ->
    parse_array depth fuel (dumps x ++ elements_tail l ++ rest) acc
    = Ok (acc ++ x :: l, rest).
Proof.
  induction 1 as [|y l Hy Hl IH]; intros x acc depth fuel rest Hx Jx Jl Fx Fl Hfuel;
    rewrite length_app in Hfuel.
  - destruct fuel as [|f]; [cbn in Hfuel; lia|]. cbn [parse_array].
    rewrite (Hx Jx depth f _ Fx ltac:(cbn in Hfuel; lia) (elements_tail_delimited [] rest)).
    reflexivity.
  - cbn [forallb] in Jl. apply andb_prop in Jl. destruct Jl as [Jy Jl].
    cbn [forallb] in Fl. apply andb_prop in Fl. destruct Fl as [Fy Fl].
    pose proof (elements_tail_length (y :: l)) as L2.
    destruct fuel as [|f]; [lia|]. cbn [parse_array].
    rewrite (Hx Jx depth f _ Fx ltac:(lia) (elements_tail_delimited (y :: l) rest)).
    cbn [bind fst snd].
    rewrite elements_tail_cons in *. cbn [app]. rewrite <- app_assoc.
    change (skip_whitespace (44%N :: 32%N :: dumps y ++ elements_tail l ++ rest))
      with (44%N :: 32%N :: dumps y ++ elements_tail l ++ rest).
    cbv iota. change (44 =? 93)%N with false. change (44 =? 44)%N with true. cbv iota.
    change (skip_whitespace (32%N :: dumps y ++ elements_tail l ++ rest))
      with (skip_whitespace (dumps y ++ elements_tail l ++ rest)).
    rewrite (skip_whitespace_dumps y _ Jy).
    rewrite (IH y (acc ++ [x]) depth f rest Hy Jy Jl Fy Fl).
    + now rewrite <- app_assoc.
    + cbn [List.length] in Hfuel. lia.
Qed.

Lemma members_tail_cons (kv : PyVal * PyVal) (d : list (PyVal * PyVal)) :
  members_tail (kv :: d) = 44%N :: 32%N :: member_text kv ++ members_tail d.
Proof.
  unfold members_tail, member_text. cbn [flat_map].
  rewrite <- !app_assoc. reflexivity.
Qed.

Lemma members_tail_delimited (d : list (PyVal * PyVal)) (rest : text) :
  delimited (members_tail d ++ rest) = true.
Proof. destruct d; reflexivity. Qed.

Lemma members_tail_length (d : list (PyVal * PyVal)) : 1 <= List.length (members_tail d).
Proof. unfold members_tail. rewrite length_app. cbn. lia. Qed.

Lemma text_eqb_eq (a b : text) : text_eqb a b = true <-> a = b.
Proof. unfold text_eqb. destruct (list_eq_dec N.eq_dec a b); split; congruence. Qed.

Lemma key_eqb_sym (a b : PyVal) : key_eqb a b = key_eqb b a.
Proof.
  destruct a, b; try reflexivity. cbn [key_eqb].
  destruct (text_eqb t t0) eqn:E, (text_eqb t0 t) eqn:E'; try reflexivity.
  - apply text_eqb_eq in E. subst. rewrite (proj2 (text_eqb_eq _ _) eq_refl) in E'.
    discriminate.
  - apply text_eqb_eq in E'. subst. rewrite (proj2 (text_eqb_eq _ _) eq_refl) in E.
    discriminate.
Qed.

Lemma dict_set_fresh (k v : PyVal) (acc : list (PyVal * PyVal)) :
  fresh_key acc k = true -> dict_set key_eqb k v acc = acc ++ [(k, v)].
Proof.
  unfold fresh_key. induction acc as [|[k' v'] acc IH]; [reflexivity|].
  cbn [existsb fst dict_set app]. intros H. apply negb_true_iff in H.
  apply orb_false_elim in H. destruct H as [H1 H2]. rewrite H1.
  now rewrite IH by now apply negb_true_iff.
Qed.

Lemma fresh_key_app (acc : list (PyVal * PyVal)) (k' v' k : PyVal) :
  fresh_key acc k = true -> key_eqb k' k = false ->
  fresh_key (acc ++ [(k', v')]) k = true.
Proof.
  unfold fresh_key. intros H1 H2. apply negb_true_iff in H1. apply negb_true_iff.
  rewrite existsb_app, H1. cbn [existsb fst]. now rewrite H2.
Qed.

Lemma member_text_eq (ks : text) (x : PyVal) :
  member_text (VText ks, x)
  = 34%N :: flat_map escape_char ks ++ 34%N :: 58%N :: 32%N :: dumps x.
Proof.
  unfold member_text, encode_basestring_ascii. cbn [fst snd key_text key_repr app].
  rewrite <- app_assoc. reflexivity.
Qed.

Lemma parse_object_members (d : list (PyVal * PyVal)) :
  Forall (fun kv => read_back (fst kv) /\ read_back (snd kv)) d ->
  forall (kv : PyVal * PyVal) (acc : list (PyVal * PyVal)) (depth fuel : nat)
         (rest : text),
    read_back (snd kv) ->
    json_key (fst kv) = true -> json_value (snd kv) = true ->
    forallb (fun kv => json_key (fst kv) && json_value (snd kv)) d = true ->
    fits depth (snd kv) = true ->
    forallb (fun kv => fits depth (snd kv)) d = true ->
    distinct_keys (kv :: d) = true ->
    forallb (fun kv => fresh_key acc (fst kv)) (kv :: d) = true ->
    List.length (member_text kv ++ members_tail d) <= fuel ->
    parse_object depth fuel (member_text kv ++ members_tail d ++ rest) acc
    = Ok (acc ++ kv :: d, rest).
Proof.
  induction 1 as [|kv' d [_ Hy] Hd IH];
    intros [k x] acc depth fuel rest Hx Jk Jx Jd Fx Fd' Hdist Hfresh Hfuel;
    cbn [fst snd] in *; destruct k as [| | | |ks| |]; try discriminate Jk;
    rewrite member_text_eq in *; rewrite length_app in Hfuel;
    cbn [List.length] in Hfuel; rewrite length_app in Hfuel; cbn [List.length] in Hfuel;
    (destruct fuel as [|f]; [lia|]);
    cbn [app parse_object]; change (34 =? 34)%N with true; cbn [negb];
    rewrite <- app_assoc; cbn [app];
    rewrite (scanstring_escaped ks _ Jk); cbn [bind fst snd];
    change (skip_whitespace (58%N :: 32%N :: ?r)) with (58%N :: 32%N :: r);
    cbv iota; change (58 =? 58)%N with true; cbn [negb];
    cbn [forallb fst] in Hfresh; apply andb_prop in Hfresh; destruct Hfresh as [Fk Fd].
  - change (skip_whitespace (32%N :: dumps x ++ members_tail [] ++ rest))
      with (skip_whitespace (dumps x ++ members_tail [] ++ rest)).
    rewrite (skip_whitespace_dumps x _ Jx).
    rewrite (Hx Jx depth f _ Fx ltac:(lia) (members_tail_delimited [] rest)).
    cbn [bind fst snd]. rewrite (dict_set_fresh _ _ _ Fk). reflexivity.
  - pose proof (members_tail_length (kv' :: d)) as L.
    change (skip_whitespace (32%N :: dumps x ++ members_tail (kv' :: d) ++ rest))
      with (skip_whitespace (dumps x ++ members_tail (kv' :: d) ++ rest)).
    rewrite (skip_whitespace_dumps x _ Jx).
    rewrite (Hx Jx depth f _ Fx ltac:(lia) (members_tail_delimited (kv' :: d) rest)).
    cbn [bind fst snd]. rewrite (dict_set_fresh _ _ _ Fk).
    rewrite members_tail_cons in *. cbn [app].
    rewrite <- app_assoc.
    change (skip_whitespace (44%N :: 32%N :: ?r)) with (44%N :: 32%N :: r).
    cbv iota. change (44 =? 125)%N with false. change (44 =? 44)%N with true. cbv iota.
    cbn [forallb] in Jd. apply andb_prop in Jd. destruct Jd as [Jkv Jd].
    apply andb_prop in Jkv. destruct Jkv as [Jk' Jy].
    cbn [distinct_keys] in Hdist. apply andb_prop in Hdist. destruct Hdist as [Hk Hdist].
    assert (Hskip : skip_whitespace (32%N :: member_text kv' ++ members_tail d ++ rest)
                    = member_text kv' ++ members_tail d ++ rest).
    { destruct kv' as [k' y]. destruct k' as [| | | |ks'| |]; try discriminate Jk'.
      rewrite member_text_eq. reflexivity. }
    rewrite Hskip.
    cbn [forallb] in Fd'. apply andb_prop in Fd'. destruct Fd' as [Fy Fd'].
    rewrite (IH kv' (acc ++ [(VText ks, x)]) depth f rest Hy Jk' Jy Jd Fy Fd').
    + now rewrite <- app_assoc.
    + destruct kv' as [k' y]. exact Hdist.
    + cbn [forallb] in Fd |- *. apply andb_prop in Fd. destruct Fd as [Fk' Fd].
      apply negb_true_iff in Hk. cbn [existsb] in Hk. apply orb_false_elim in Hk.
      destruct Hk as [Hk1 Hk2].
      apply andb_true_intro. split.
      * apply fresh_key_app; [exact Fk'|]. now rewrite key_eqb_sym.
      * rewrite forallb_forall in *. intros kv Hin. apply fresh_key_app; [now apply Fd|].
        rewrite key_eqb_sym.
        destruct (key_eqb (fst kv) (VText ks)) eqn:E; [|reflexivity].
        rewrite <- Hk2. symmetry. apply existsb_exists. now exists kv.
    + cbn [List.length] in Hfuel. lia.
Qed.

Lemma scan_once_read_back (v : PyVal) : read_back v.
Proof.
  induction v as [| b | z | b | t | l IHl | d IHd] using PyVal_induction;
    intros J depth fuel rest F Hfuel Hrest.
  - destruct fuel as [|f]; [cbn in Hfuel; lia | reflexivity].
  - destruct fuel as [|f]; [destruct b; cbn in Hfuel; lia | destruct b; reflexivity].
  - destruct fuel as [|f].
    + destruct (dumps_start (VInt z) J) as (c & tail & E & _). rewrite E in Hfuel.
      cbn in Hfuel. lia.
    + now apply scan_once_int.
  - discriminate J.
  - destruct fuel as [|f]; [cbn in Hfuel; lia|].
    cbn [json_value] in J. cbn [dumps atom_repr]. unfold encode_basestring_ascii.
    cbn [app scan_once]. change (34 =? 34)%N with true. cbv iota.
    rewrite <- app_assoc. cbn [app]. now rewrite (scanstring_escaped t rest J).
  - cbn [fits] in F. destruct depth as [|dp]; [discriminate F|].
    destruct l as [|x l].
    + destruct fuel as [|f]; [cbn in Hfuel; lia | reflexivity].
    + cbn [json_value forallb] in J. apply andb_prop in J. destruct J as [Jx Jl].
      cbn [forallb] in F. apply andb_prop in F. destruct F as [Fx Fl].
      inversion IHl as [|? ? Hx Hl]; subst.
      assert (E0 : dumps (VList (x :: l)) = 91%N :: dumps x ++ elements_tail l)
        by reflexivity.
      rewrite E0 in *. clear E0.
      cbn [List.length] in Hfuel. destruct fuel as [|f]; [lia|].
      cbn [app scan_once]. change (91 =? 34)%N with false.
      change (91 =? 123)%N with false. change (91 =? 91)%N with true. cbv iota.
      rewrite <- app_assoc. rewrite (skip_whitespace_dumps x _ Jx).
      destruct (dumps_start x Jx) as (c & tail & E & Hc).
      destruct (value_start_facts c Hc) as (_ & H93 & _).
      pose proof (parse_array_elements l Hl x [] dp f rest Hx Jx Jl Fx Fl ltac:(lia))
        as P.
      rewrite E in *. cbn [app] in *. rewrite H93, P. reflexivity.
  - cbn [fits] in F. destruct depth as [|dp]; [discriminate F|].
    destruct d as [|[k x] d].
    + destruct fuel as [|f]; [cbn in Hfuel; lia | reflexivity].
    + cbn [forallb snd] in F. apply andb_prop in F. destruct F as [Fx Fd].
      cbn [json_value forallb fst snd] in J. apply andb_prop in J. destruct J as [Jdist J].
      apply andb_prop in J. destruct J as [Jkx Jd]. apply andb_prop in Jkx.
      destruct Jkx as [Jk Jx].
      inversion IHd as [|? ? [_ Hx] Hd]; subst. cbn [snd] in Hx.
      assert (E0 : dumps (VDict ((k, x) :: d))
                   = 123%N :: member_text (k, x) ++ members_tail d).
      { unfold member_text, members_tail. cbn [dumps fst snd app].
        rewrite <- !app_assoc. reflexivity. }
      rewrite E0 in *. clear E0.
      cbn [List.length] in Hfuel. destruct fuel as [|f]; [lia|].
      cbn [app scan_once]. change (123 =? 34)%N with false.
      change (123 =? 123)%N with true. cbv iota. rewrite <- app_assoc.
      pose proof (parse_object_members d Hd (k, x) [] dp f rest Hx Jk Jx Jd Fx Fd Jdist)
        as P.
      destruct k as [| | | |ks| |]; try discriminate Jk.
      rewrite member_text_eq in *. cbn [app] in *.
      change (skip_whitespace (34%N :: ?r)) with (34%N :: r). cbv iota.
      change (34 =? 125)%N with false. cbv iota.
      rewrite P; [reflexivity| |lia].
      clear. induction ((VText ks, x) :: d); [reflexivity | exact IHl].
Qed.

(** [JSONDecoder().decode] reads the document of a value back. *)
Lemma decode_text_dumps (depth : nat) (v : PyVal) :
  json_value v = true -> fits depth v = true -> decode_text depth (dumps v) = Ok v.
Proof.
  intros J F. unfold decode_text.
  pose proof (skip_whitespace_dumps v [] J) as S1. rewrite app_nil_r in S1.
  pose proof (scan_once_read_back v J depth (S (2 * List.length (dumps v))) [] F
                ltac:(lia) eq_refl) as S2.
  rewrite app_nil_r in S2. rewrite S1, S2. reflexivity.
Qed.

(** *** The encoder *)

Lemma iterencode_list (r : nat) (x : PyVal) (l : list PyVal) :
  iterencode (S r) (VList (x :: l)) = elements_gen r (u_lit "[") (x :: l).
Proof. reflexivity. Qed.

Lemma iterencode_dict (r : nat) (kv : PyVal * PyVal) (d : list (PyVal * PyVal)) :
  iterencode (S r) (VDict (kv :: d))
  = gen_then (one (u_lit "{")) (members_gen r true (kv :: d)).
Proof. reflexivity. Qed.

Lemma ascii_text_app (a b : text) :
  ascii_text (a ++ b) = ascii_text a && ascii_text b.
Proof. apply forallb_app. Qed.

Lemma writes_one (t : text) : ascii_text t = true -> writes (one t) t.
Proof.
  intros H. unfold writes, one. cbn [stopped_by yielded List.concat forallb].
  now rewrite app_nil_r, H.
Qed.

Lemma writes_then (g1 g2 : Gen text) (t1 t2 : text) :
  writes g1 t1 -> writes g2 t2 -> writes (gen_then g1 g2) (t1 ++ t2).
Proof.
  intros (S1 & C1 & A1) (S2 & C2 & A2). unfold writes, gen_then. rewrite S1.
  cbn [stopped_by yielded]. rewrite concat_app, forallb_app, C1, C2, A1, A2.
  now repeat split.
Qed.

Lemma hex4_ascii (n : N) : ascii_text (hex4 n) = true.
Proof.
  unfold hex4, ascii_text. cbn [map forallb].
  repeat match goal with
         | |- context [hex_char (?d mod 16)] =>
             let H := fresh in
             destruct (hex_char_spec (d mod 16) ltac:(apply N.mod_lt; discriminate))
               as [_ H];
             rewrite H; clear H
         end.
  reflexivity.
Qed.

Lemma u_escape_ascii (n : N) : ascii_text (u_escape n) = true.
Proof.
  unfold u_escape. change (92%N :: 117%N :: hex4 n) with ([92%N; 117%N] ++ hex4 n).
  now rewrite ascii_text_app, hex4_ascii.
Qed.

Lemma escape_char_ascii (c : N) : ascii_text (escape_char c) = true.
Proof.
  unfold escape_char.
  repeat match goal with
         | |- context [if ?b then _ else _] => destruct b eqn:?
         end; try reflexivity.
  - unfold ascii_text. cbn [forallb]. rewrite andb_true_r.
    match goal with H : (_ && _)%bool = true |- _ => N_cases_in H; try discriminate end.
    N_cases; try reflexivity.
  - apply u_escape_ascii.
  - now rewrite ascii_text_app, !u_escape_ascii.
Qed.

Lemma encode_basestring_ascii_ascii (s : text) :
  ascii_text (encode_basestring_ascii s) = true.
Proof.
  unfold encode_basestring_ascii. change (34%N :: ?r) with ([34%N] ++ r).
  rewrite !ascii_text_app. cbn [ascii_text forallb andb].
  induction s as [|c s IH]; [reflexivity|].
  cbn [flat_map]. fold (ascii_text (escape_char c ++ flat_map escape_char s)).
  rewrite ascii_text_app, escape_char_ascii. exact IH.
Qed.

Lemma digits_text_ascii (d : Decimal.uint) : ascii_text (digits_text d) = true.
Proof. induction d; try reflexivity; exact IHd. Qed.

Lemma intstr_ascii (z : Z) : ascii_text (intstr z) = true.
Proof.
  destruct z as [|p|p]; [reflexivity | |].
  - rewrite intstr_pos. apply digits_text_ascii.
  - rewrite intstr_neg. exact (digits_text_ascii (Pos.to_uint p)).
Qed.

Lemma atom_repr_ascii (v : PyVal) (r : text) :
  atom_repr v = Some r -> ascii_text r = true /\ dumps v = r.
Proof.
  destruct v as [| [|] | z | b | t | l | d]; intros H; inversion H; subst;
    (split; [|reflexivity]); try reflexivity.
  - apply intstr_ascii.
  - apply encode_basestring_ascii_ascii.
Qed.

(** Within the limits, the numeral of an atom is written without an
    error. *)
Lemma atom_chunk_fits (r : nat) (v : PyVal) :
  fits r v = true ->
  atom_chunk v = match atom_repr v with Some t => Some (Ok t) | None => None end.
Proof.
  destruct v as [| b | z | b | t | l | d]; intros F; try reflexivity.
  cbn [atom_chunk atom_repr]. cbn [fits] in F. now rewrite (int_repr_fits z F).
Qed.

Lemma writes_value (r : nat) (buf : text) (x : PyVal) :
  written x -> json_value x = true -> fits r x = true -> ascii_text buf = true ->
  writes (match atom_chunk x with
          | Some (Ok t) => one (buf ++ t)
          | Some (Raise e) => raising e
          | None => gen_then (one buf) (iterencode r x)
          end) (buf ++ dumps x).
Proof.
  intros Hx Jx Fx Hbuf. rewrite (atom_chunk_fits r x Fx).
  destruct (atom_repr x) as [t|] eqn:E.
  - destruct (atom_repr_ascii x t E) as [Ht ->]. apply writes_one.
    now rewrite ascii_text_app, Hbuf, Ht.
  - apply writes_then; [now apply writes_one | now apply Hx].
Qed.

Lemma elements_gen_writes (r : nat) (l : list PyVal) :
  Forall written l -> forallb json_value l = true -> forallb (fits r) l = true ->
  forall (buf : text) (x : PyVal),
    written x -> json_value x = true -> fits r x = true -> ascii_text buf = true ->
    writes (elements_gen r buf (x :: l)) (buf ++ dumps x ++ elements_tail l).
Proof.
  induction 1 as [|y l Hy Hl IH]; intros Jl Fl buf x Hx Jx Fx Hbuf; cbn [elements_gen].
  - rewrite app_assoc. apply writes_then; [now apply writes_value|].
    now apply writes_one.
  - cbn [forallb] in Jl. apply andb_prop in Jl. destruct Jl as [Jy Jl].
    cbn [forallb] in Fl. apply andb_prop in Fl. destruct Fl as [Fy Fl].
    rewrite app_assoc. apply writes_then; [now apply writes_value|].
    rewrite elements_tail_cons.
    exact (IH Jl Fl (u_lit ", ") y Hy Jy Fy eq_refl).
Qed.

Lemma writes_member (r : nat) (first : bool) (ks : text) (x : PyVal) (g : Gen text)
    (tail : text) :
  written x -> json_value x = true -> fits r x = true -> writes g tail ->
  writes (gen_then
            (mkGen ((if first then [] else [u_lit ", "])
                    ++ [encode_basestring_ascii ks; u_lit ": "]) None)
            (gen_then (match atom_chunk x with
                       | Some (Ok t) => one t
                       | Some (Raise e) => raising e
                       | None => iterencode r x
                       end) g))
         ((if first then [] else u_lit ", ") ++ member_text (VText ks, x) ++ tail).
Proof.
  intros Hx Jx Fx Hg. rewrite (atom_chunk_fits r x Fx). unfold member_text. cbn [fst snd key_text key_repr].
  replace ((if first then [] else u_lit ", ")
           ++ (encode_basestring_ascii ks ++ u_lit ": " ++ dumps x) ++ tail)
    with (((if first then [] else u_lit ", ") ++ encode_basestring_ascii ks ++ u_lit ": ")
          ++ dumps x ++ tail)
    by (rewrite <- !app_assoc; reflexivity).
  apply writes_then; [|apply writes_then; [|exact Hg]].
  - unfold writes. cbn [stopped_by yielded].
    pose proof (encode_basestring_ascii_ascii ks) as A.
    destruct first; cbn [app List.concat forallb]; rewrite ?app_nil_r, A; now repeat split.
  - destruct (atom_repr x) as [t|] eqn:E.
    + destruct (atom_repr_ascii x t E) as [Ht ->]. now apply writes_one.
    + now apply Hx.
Qed.

Lemma members_gen_writes (r : nat) (d : list (PyVal * PyVal)) :
  Forall (fun kv => written (fst kv) /\ written (snd kv)) d ->
  forallb (fun kv => json_key (fst kv) && json_value (snd kv)) d = true ->
  forallb (fun kv => fits r (snd kv)) d = true ->
  forall (first : bool) (kv : PyVal * PyVal),
    written (snd kv) -> json_key (fst kv) = true -> json_value (snd kv) = true ->
    fits r (snd kv) = true ->
    writes (members_gen r first (kv :: d))
           ((if first then [] else u_lit ", ") ++ member_text kv ++ members_tail d).
Proof.
  induction 1 as [|kv' d [_ Hy] Hd IH]; intros Jd Fd first [k x] Hx Jk Jx Fx;
    cbn [fst snd] in *; destruct k as [| | | |ks| |]; try discriminate Jk;
    cbn [members_gen key_repr].
  - apply writes_member; [exact Hx | exact Jx | exact Fx | now apply writes_one].
  - cbn [forallb] in Jd. apply andb_prop in Jd. destruct Jd as [Jkv Jd].
    apply andb_prop in Jkv. destruct Jkv as [Jk' Jy].
    cbn [forallb] in Fd. apply andb_prop in Fd. destruct Fd as [Fy Fd].
    apply writes_member; [exact Hx | exact Jx | exact Fx |].
    rewrite members_tail_cons. exact (IH Jd Fd false kv' Hy Jk' Jy Fy).
Qed.

Lemma iterencode_written (v : PyVal) : written v.
Proof.
  induction v as [| b | z | b | t | l IHl | d IHd] using PyVal_induction;
    intros J room F.
  - now apply writes_one.
  - destruct b; now apply writes_one.
  - cbn [fits] in F. cbn [iterencode atom_chunk]. rewrite (int_repr_fits z F).
    apply (writes_one (intstr z)), intstr_ascii.
  - discriminate J.
  - apply (writes_one (encode_basestring_ascii t)), encode_basestring_ascii_ascii.
  - cbn [fits] in F. destruct room as [|r]; [discriminate F|].
    destruct l as [|x l]; [now apply writes_one|].
    cbn [json_value forallb] in J. apply andb_prop in J. destruct J as [Jx Jl].
    cbn [forallb] in F. apply andb_prop in F. destruct F as [Fx Fl].
    inversion IHl as [|? ? Hx Hl]; subst.
    rewrite iterencode_list.
    exact (elements_gen_writes r l Hl Jl Fl (u_lit "[") x Hx Jx Fx eq_refl).
  - cbn [fits] in F. destruct room as [|r]; [discriminate F|].
    destruct d as [|[k x] d]; [now apply writes_one|].
    cbn [forallb snd] in F. apply andb_prop in F. destruct F as [Fx Fd].
    cbn [json_value forallb fst snd] in J. apply andb_prop in J. destruct J as [_ J].
    apply andb_prop in J. destruct J as [Jkx Jd]. apply andb_prop in Jkx.
    destruct Jkx as [Jk Jx].
    inversion IHd as [|? ? [_ Hx] Hd]; subst. cbn [snd] in Hx.
    rewrite iterencode_dict.
    assert (E0 : dumps (VDict ((k, x) :: d))
                 = u_lit "{" ++ member_text (k, x) ++ members_tail d).
    { unfold member_text, members_tail. cbn [dumps fst snd app].
      rewrite <- !app_assoc. reflexivity. }
    rewrite E0. apply writes_then; [now apply writes_one|].
    exact (members_gen_writes r d Hd Jd Fd true (k, x) Hx Jk Jx Fx).
Qed.

Lemma ascii_text_scalar (t : text) :
  ascii_text t = true -> forallb is_scalar_value t = true.
Proof.
  unfold ascii_text. rewrite !forallb_forall. intros H c Hc. specialize (H c Hc).
  unfold is_scalar_value, is_surrogate. N_cases_in H; try discriminate.
  N_cases; reflexivity.
Qed.

(** The [json] module of CPython 3 represents a JSON value within its
    limits by the fragments of its encoder. *)
Lemma cpython3_json_represents (room depth : nat) (v : PyVal) :
  json_value v = true -> fits room v = true -> fits depth v = true ->
  represents (cpython3_json_at room depth) v (yielded (iterencode room v)).
Proof.
  intros J Fr Fd. destruct (iterencode_written v J room Fr) as (S & C & A).
  unfold represents, exhausted. cbn [cpython3_json_at lib_iterencode lib_decode].
  unfold json_iterencode, json_decode_str. cbv zeta.
  rewrite S, C. split; [reflexivity|]. split.
  - rewrite forallb_forall in *. intros t Ht. apply ascii_text_scalar. now apply A.
  - exact (decode_text_dumps depth v J Fd).
Qed.

(** ** JSON through a library *)

Lemma utf8_enc1_scalar (c : N) :
  is_scalar_value c = true -> exists bs, utf8_enc1 c = inr bs.
Proof.
  unfold is_scalar_value, utf8_enc1. intros H. apply andb_prop in H.
  destruct H as [H1 H2]. rewrite H1. apply negb_true_iff in H2. rewrite H2.
  repeat match goal with
         | |- context [if ?b then _ else _] => destruct b
         end; eexists; reflexivity.
Qed.

Lemma utf8_encode_scalars (t : text) (pos : nat) :
  forallb is_scalar_value t = true ->
  exists b, encode_with utf8_enc1 "strict" pos t = inr b.
Proof.
  revert pos. induction t as [|c t IH]; intros pos H; [now exists []|].
  cbn [forallb] in H. apply andb_prop in H. destruct H as [Hc Ht].
  destruct (utf8_enc1_scalar c Hc) as [bs Hbs].
  destruct (IH (S pos) Ht) as [rest Hrest].
  exists (bs ++ rest). cbn [encode_with]. now rewrite Hbs, Hrest.
Qed.

Lemma text_encode_utf8 (rt : Runtime) (t : text) (b : bytes) :
  encode_with utf8_enc1 "strict" 0 t = inr b ->
  text_encode rt t "utf8" "strict" = Ok b.
Proof.
  intros H. unfold text_encode.
  change (lookup_codec rt "utf8") with (Some utf_8). cbv beta iota.
  cbn [codec_encode utf_8]. now rewrite H.
Qed.

Lemma encode_chunks_utf8 (rt : Runtime) (fragments : list text) :
  forallb (forallb is_scalar_value) fragments = true ->
  encode_chunks rt (map VText fragments) None
  = exhausted (map VBytes (utf8_chunks fragments))
  /\ Forall2 (fun t b => text_encode rt t "utf8" "strict" = Ok b)
             fragments (utf8_chunks fragments)
  /\ encode_with utf8_enc1 "strict" 0 (List.concat fragments)
     = inr (List.concat (utf8_chunks fragments)).
Proof.
  induction fragments as [|t fragments IH]; intros H.
  - repeat split. constructor.
  - cbn [forallb] in H. apply andb_prop in H. destruct H as [Ht Hf].
    destruct (IH Hf) as (IH1 & IH2 & IH3).
    destruct (utf8_encode_scalars t 0 Ht) as [b Hb].
    pose proof (text_encode_utf8 rt t b Hb) as Hb'.
    cbn [map encode_chunks py_encode utf8_chunks List.concat].
    fold (utf8_chunks fragments). rewrite Hb, Hb'. cbn [bind]. rewrite IH1.
    split; [reflexivity|]. split; [now constructor|].
    now apply encode_with_app.
Qed.

Lemma json_encode_represented (rt : Runtime) (lib : JsonLib) (v : PyVal)
    (fragments : list text) :
  PY3 rt = true ->
  json rt = Some lib ->
  represents lib v fragments ->
  exists chunks : list bytes,
    json_encode rt v = Ok (exhausted (map VBytes chunks))
    /\ Forall2 (fun t b => text_encode rt t "utf8" "strict" = Ok b) fragments chunks
    /\ (t <- bytes_decode rt (List.concat chunks) "utf-8" "strict" ;;
        json_decode rt (VText t)) = Ok v.
Proof.
  intros P J (Henc & Hwf & Hdec).
  destruct (encode_chunks_utf8 rt fragments Hwf) as (H1 & H2 & H3).
  exists (utf8_chunks fragments). split; [|split].
  - unfold json_encode, _json_encode. rewrite J, P, Henc.
    cbn [exhausted yielded stopped_by]. now rewrite H1.
  - exact H2.
  - unfold bytes_decode. change (lookup_codec rt "utf-8") with (Some utf_8).
    cbv beta iota. rewrite (decode_encode (c := utf_8) _ _ H3). cbn [bind].
    unfold json_decode. now rewrite J.
Qed.




(** * Further properties *)

(** ** The default encoding *)

Lemma latin1_decode_all (errors : string) (pos : nat) (b : bytes) :
  decode_with latin1_scan errors 0 pos b = inr (map Byte.to_N b).
Proof.
  revert pos. induction b as [|x b IH]; intros pos; [reflexivity|].
  cbn [decode_with latin1_scan pred map]. now rewrite IH.
Qed.

Lemma default_encoding_codec (rt : Runtime) :
  lookup_codec rt default_encoding = Some latin_1.
Proof. reflexivity. Qed.

Lemma bytes_decode_default (rt : Runtime) (errors : string) (b : bytes) :
  bytes_decode rt b default_encoding errors = Ok (map Byte.to_N b).
Proof.
  unfold bytes_decode. rewrite default_encoding_codec.
  cbn [codec_decode latin_1]. now rewrite latin1_decode_all.
Qed.

Lemma latin1_encode_small (errors : string) (pos : nat) (t : text) :
  latin1_text t = true ->
  encode_with latin1_enc1 errors pos t = inr (map byte_of_N t).
Proof.
  revert pos. induction t as [|c t IH]; intros pos H; [reflexivity|].
  unfold latin1_text in H. cbn [forallb] in H. apply andb_prop in H.
  destruct H as [Hc Ht].
  cbn [encode_with map]. unfold latin1_enc1. rewrite Hc, (IH _ Ht). reflexivity.
Qed.

Lemma latin1_encode_first_large (pos : nat) (pre post : text) (c : N) :
  latin1_text pre = true -> (256 <= c)%N ->
  encode_with latin1_enc1 "strict" pos (pre ++ c :: post)
  = inl (Unhandled (pos + List.length pre) "ordinal not in range(256)").
Proof.
  revert pos. induction pre as [|a pre IH]; intros pos H Hc.
  - cbn [app encode_with List.length]. unfold latin1_enc1.
    destruct (N.ltb_spec c 256); [lia|]. cbn. now rewrite Nat.add_0_r.
  - unfold latin1_text in H. cbn [forallb] in H. apply andb_prop in H.
    destruct H as [Ha Hp].
    cbn [app encode_with List.length]. unfold latin1_enc1 at 1. rewrite Ha.
    rewrite (IH (S pos) Hp Hc). f_equal. f_equal. lia.
Qed.

Lemma text_encode_default (rt : Runtime) (t : text) :
  latin1_text t = true ->
  text_encode rt t default_encoding "strict" = Ok (map byte_of_N t).
Proof.
  intros H. unfold text_encode. rewrite default_encoding_codec.
  cbn [codec_encode latin_1]. now rewrite latin1_encode_small.
Qed.

Lemma latin1_text_of_bytes (b : bytes) : latin1_text (map Byte.to_N b) = true.
Proof.
  induction b as [|x b IH]; [reflexivity|].
  unfold latin1_text in *. cbn [map forallb]. rewrite IH.
  pose proof (to_N_lt_256 x). destruct (N.ltb_spec (Byte.to_N x) 256); [reflexivity|lia].
Qed.

(** ** What the three conversions return *)

(** X1. Whatever [ntob] returns is a byte string, on Python 2 as on
    Python 3 and for every argument and encoding.  Whatever [ntou] returns
    is a unicode string on Python 3, and on Python 2 when the encoding is
    [escape] or names a codec between text and bytes; the codecs of
    Python 2 from bytes to bytes, such as [hex], are not covered. *)
Theorem ntob_ntou_result_types (rt : Runtime) (n : PyVal) (encoding : string) :
  (forall m, ntob rt n encoding = Ok m -> isinstance_bytes m = true)
  /\ (PY3 rt = true \/ String.eqb encoding "escape" = true
      \/ lookup_codec rt encoding <> None ->
      forall m, ntou rt n encoding = Ok m -> isinstance_text m = true).
Proof.
  unfold ntob, ntou, assert_native.
  destruct (isinstance_str rt n) eqn:Hn; cbn [negb bind].
  2:{ split; [|intros _]; intros m; destruct (PY3 rt); discriminate. }
  unfold isinstance_str in Hn.
  destruct (PY3 rt) eqn:P; destruct n; cbn in Hn; try discriminate;
    (split; [|intros _]); intros m; cbn [py_encode py_decode].
  - destruct (text_encode rt t encoding "strict"); cbn [bind]; [|discriminate].
    intros H. now injection H as <-.
  - intros H. now injection H as <-.
  - intros H. now injection H as <-.
  - destruct (String.eqb encoding "escape").
    + destruct (bytes_decode rt b "ISO-8859-1" "strict") as [t|]; cbn [bind]; [|discriminate].
      destruct (sub_escapes t); cbn [bind]; [|discriminate].
      intros H. now injection H as <-.
    + destruct (bytes_decode rt b encoding "strict"); cbn [bind]; [|discriminate].
      intros H. now injection H as <-.
Qed.

(** X2. [tonative] is idempotent: what it returns it returns again
    unchanged, under any encoding; and when its argument is a byte string
    or a unicode string, what it returns is a native string. *)
Theorem tonative_idempotent (rt : Runtime) (n m : PyVal) (encoding encoding' : string) :
  tonative rt n encoding = Ok m ->
  tonative rt m encoding' = Ok m
  /\ (isinstance_bytes n || isinstance_text n = true -> isinstance_str rt m = true).
Proof.
  unfold tonative, isinstance_str.
  destruct (PY3 rt) eqn:P; destruct n;
    cbn [isinstance_bytes isinstance_text py_decode py_encode orb];
    intros H;
    try (injection H as <-; cbn; split; [reflexivity | try discriminate; try reflexivity]).
  - destruct (bytes_decode rt b encoding "strict"); cbn [bind] in H; [|discriminate].
    injection H as <-. cbn. now split.
  - destruct (text_encode rt t encoding "strict"); cbn [bind] in H; [|discriminate].
    injection H as <-. cbn. now split.
Qed.

Lemma tonative_idempotent_witness :
  tonative python3 (VBytes [xe9]) "ISO-8859-1" = Ok (VText [233%N])
  /\ tonative python3 (VText [233%N]) "utf-8" = Ok (VText [233%N])
  /\ isinstance_str python3 (VText [233%N]) = true.
Proof.
  split; [reflexivity|].
  destruct (tonative_idempotent python3 (VBytes [xe9]) (VText [233%N])
              "ISO-8859-1" "utf-8" eq_refl) as [A B].
  split; [exact A | exact (B eq_refl)].
Defined.

(** X3. [ntob] and [ntou] of the same native string agree: the unicode
    string [ntou] returns is the decoding, in the given encoding, of the
    byte string [ntob] returns.  The encoding is one whose decoding undoes
    its encoding, and on Python 2 it is not the special name [escape]. *)
Theorem ntou_decodes_ntob (rt : Runtime) (s : PyVal) (encoding : string)
    (b : bytes) (u : text) :
  (forall c, other_codecs rt encoding = Some c -> Lossless c) ->
  PY3 rt || negb (String.eqb encoding "escape") = true ->
  ntob rt s encoding = Ok (VBytes b) ->
  ntou rt s encoding = Ok (VText u) ->
  bytes_decode rt b encoding "strict" = Ok u.
Proof.
  intros Hother He. unfold ntob, ntou, assert_native.
  destruct (isinstance_str rt s) eqn:Hn; cbn [negb bind].
  2:{ destruct (PY3 rt); discriminate. }
  unfold isinstance_str in Hn.
  destruct (PY3 rt) eqn:P; destruct s; cbn in Hn; try discriminate; cbn [py_encode py_decode].
  - destruct (text_encode rt t encoding "strict") as [x|] eqn:E; cbn [bind]; [|discriminate].
    intros Hb Hu. injection Hb as <-. injection Hu as <-.
    exact (bytes_decode_text_encode rt encoding t x Hother E).
  - cbn [orb negb] in He. apply negb_true_iff in He. rewrite He.
    intros Hb. injection Hb as <-.
    destruct (bytes_decode rt b0 encoding "strict"); cbn [bind]; [|discriminate].
    intros Hu. now injection Hu as <-.
Qed.

Lemma ntou_decodes_ntob_witness :
  ntob python3 (VText [8364%N]) "utf-8" = Ok (VBytes [xe2; x82; xac])
  /\ ntou python3 (VText [8364%N]) "utf-8" = Ok (VText [8364%N])
  /\ bytes_decode python3 [xe2; x82; xac] "utf-8" "strict" = Ok [8364%N]
  /\ bytes_decode python27 [xe9] "ISO-8859-1" "strict" = Ok [233%N].
Proof.
  split; [reflexivity|]. split; [reflexivity|]. split.
  - apply (ntou_decodes_ntob python3 (VText [8364%N]) "utf-8");
      [intros c H; discriminate H | reflexivity | reflexivity | reflexivity].
  - apply (ntou_decodes_ntob python27 (VBytes [xe9]) "ISO-8859-1");
      [intros c H; discriminate H | reflexivity | reflexivity | reflexivity].
Defined.

(** X4. On Python 3, with the default encoding, [ntob] maps each
    character below 256 to the byte of the same number, and raises
    [UnicodeEncodeError] at the position of the first character that is
    not below 256. *)
Theorem ntob_default_encoding (rt : Runtime) :
  PY3 rt = true ->
  (forall t, latin1_text t = true ->
             ntob rt (VText t) default_encoding = Ok (VBytes (map byte_of_N t)))
  /\ (forall pre c post,
         latin1_text pre = true -> (256 <= c)%N ->
         ntob rt (VText (pre ++ c :: post)) default_encoding
         = Raise (UnicodeEncodeError "latin-1" (List.length pre)
                                     "ordinal not in range(256)")).
Proof.
  intros P. unfold ntob, assert_native, isinstance_str. rewrite P. cbn [negb bind py_encode].
  split.
  - intros t H. now rewrite (text_encode_default rt t H).
  - intros pre c post H Hc. unfold text_encode. rewrite default_encoding_codec.
    cbn [codec_encode latin_1]. now rewrite (latin1_encode_first_large 0 pre post c H Hc).
Qed.

Lemma ntob_default_encoding_witness :
  ntob python3 (VText [104; 233]%N) "ISO-8859-1" = Ok (VBytes [x68; xe9])
  /\ ntob python3 (VText [97; 8364; 98]%N) "ISO-8859-1"
     = Raise (UnicodeEncodeError "latin-1" 1 "ordinal not in range(256)").
Proof.
  destruct (ntob_default_encoding python3 eq_refl) as [A B].
  assert (L : (256 <= 8364)%N) by lia.
  split; [exact (A [104; 233]%N eq_refl) | exact (B [97%N] 8364%N [98%N] eq_refl L)].
Defined.

(** X5. With the default encoding every byte string survives [tonative]
    followed by [ntob], on both runtimes: [tonative] cannot fail on a byte
    string, since every byte is a character of ISO-8859-1. *)
Theorem bytes_survive_tonative_ntob (rt : Runtime) (b : bytes) :
  (s <- tonative rt (VBytes b) default_encoding ;; ntob rt s default_encoding)
  = Ok (VBytes b)
  /\ tonative rt (VBytes b) default_encoding
     = Ok (if PY3 rt then VText (map Byte.to_N b) else VBytes b).
Proof.
  unfold tonative, ntob, assert_native, isinstance_str.
  destruct (PY3 rt) eqn:P; cbn [isinstance_bytes isinstance_text py_decode].
  - rewrite bytes_decode_default. cbn [bind negb py_encode].
    rewrite (text_encode_default rt _ (latin1_text_of_bytes b)). cbn [bind].
    now rewrite map_byte_of_N_to_N.
  - cbn [bind negb]. now split.
Qed.

(** ** The escapes of [ntou] *)

Lemma bytes_decode_latin1 (rt : Runtime) (errors : string) (b : bytes) :
  bytes_decode rt b "ISO-8859-1" errors = Ok (map Byte.to_N b).
Proof. exact (bytes_decode_default rt errors b). Qed.

Lemma sub_escapes_other (c : N) (rest : text) :
  (c =? 92)%N = false ->
  sub_escapes (c :: rest) = (r <- sub_escapes rest ;; Ok (c :: r)).
Proof.
  intros H. cbn [sub_escapes].
  destruct rest as [|u [|c1 [|c2 [|c3 [|c4 rest']]]]]; try reflexivity.
  rewrite H. reflexivity.
Qed.

Lemma sub_escapes_plain (pre rest : text) :
  existsb (N.eqb 92) pre = false ->
  sub_escapes (pre ++ rest) = (r <- sub_escapes rest ;; Ok (pre ++ r)).
Proof.
  induction pre as [|c pre IH]; intros H.
  - cbn [app]. now destruct (sub_escapes rest).
  - cbn [existsb] in H. apply orb_false_elim in H. destruct H as [Hc Hp].
    rewrite N.eqb_sym in Hc.
    cbn [app]. rewrite (sub_escapes_other c _ Hc), (IH Hp).
    now destruct (sub_escapes rest).
Qed.

Lemma sub_escapes_match (c1 c2 c3 c4 : N) (rest : text) :
  is_alnum c1 && is_alnum c2 && is_alnum c3 && is_alnum c4 = true ->
  sub_escapes (92 :: 117 :: c1 :: c2 :: c3 :: c4 :: rest)%N
  = (ch <- int16 c1 c2 c3 c4 ;; r <- sub_escapes rest ;; Ok (ch :: r)).
Proof.
  intros H. cbn [sub_escapes].
  change ((92 =? 92)%N && (117 =? 117)%N) with true. cbn [andb].
  rewrite <- !andb_assoc in H |- *. now rewrite H.
Qed.

Lemma hex_digit_alnum (c d : N) : hex_digit_value c = Some d -> is_alnum c = true.
Proof.
  unfold hex_digit_value, is_alnum. intros H.
  N_cases_in H; try discriminate; N_cases; reflexivity.
Qed.

Lemma backslash_in_text (b : bytes) :
  existsb (N.eqb 92) (map Byte.to_N b) = existsb (Byte.eqb x5c) b.
Proof.
  induction b as [|x b IH]; [reflexivity|]. cbn [map existsb]. rewrite IH.
  f_equal. rewrite byte_eqb_to_N. reflexivity.
Qed.

Lemma ntou_escape (rt : Runtime) (b : bytes) :
  PY3 rt = false ->
  ntou rt (VBytes b) "escape" = (r <- sub_escapes (map Byte.to_N b) ;; Ok (VText r)).
Proof.
  intros P. unfold ntou, assert_native, isinstance_str. rewrite P. cbn [negb bind].
  cbn [String.eqb Ascii.eqb Bool.eqb]. cbn [py_decode].
  rewrite bytes_decode_latin1. reflexivity.
Qed.

(** X6. On Python 2, [ntou] with the encoding [escape] decodes the bytes
    as ISO-8859-1 and replaces a backslash, [u] and four hexadecimal
    digits by the character of that number.  A string without a backslash
    is only decoded; after the first escape the rest of the string is
    treated the same way. *)
Theorem ntou_escape_substitutes (rt : Runtime) (pre post : bytes) (c1 c2 c3 c4 : byte)
    (d1 d2 d3 d4 : N) :
  PY3 rt = false ->
  existsb (Byte.eqb x5c) pre = false ->
  hex_digit_value (Byte.to_N c1) = Some d1 -> hex_digit_value (Byte.to_N c2) = Some d2 ->
  hex_digit_value (Byte.to_N c3) = Some d3 -> hex_digit_value (Byte.to_N c4) = Some d4 ->
  ntou rt (VBytes pre) "escape" = Ok (VText (map Byte.to_N pre))
  /\ ntou rt (VBytes (pre ++ x5c :: x75 :: c1 :: c2 :: c3 :: c4 :: post)) "escape"
     = (r <- sub_escapes (map Byte.to_N post) ;;
        Ok (VText (map Byte.to_N pre ++ hex4_number d1 d2 d3 d4 :: r))).
Proof.
  intros P Hpre H1 H2 H3 H4. rewrite <- backslash_in_text in Hpre.
  rewrite !(ntou_escape rt _ P). split.
  - rewrite <- (app_nil_r (map Byte.to_N pre)) at 1.
    rewrite (sub_escapes_plain _ _ Hpre). cbn [sub_escapes bind]. now rewrite app_nil_r.
  - rewrite map_app. cbn [map]. rewrite (sub_escapes_plain _ _ Hpre).
    change (Byte.to_N x5c) with 92%N. change (Byte.to_N x75) with 117%N.
    rewrite sub_escapes_match
      by now rewrite (hex_digit_alnum _ _ H1), (hex_digit_alnum _ _ H2),
                     (hex_digit_alnum _ _ H3), (hex_digit_alnum _ _ H4).
    unfold int16, hex4_number. rewrite H1, H2, H3, H4. cbn [bind].
    now destruct (sub_escapes (map Byte.to_N post)).
Qed.

Lemma ntou_escape_substitutes_witness :
  ntou python27 (VBytes (b_lit "caf\u00e9s")) "escape"
  = Ok (VText [99; 97; 102; 233; 115]%N)
  /\ ntou python27 (VBytes (b_lit "caf")) "escape" = Ok (VText [99; 97; 102]%N).
Proof.
  destruct (ntou_escape_substitutes python27 (b_lit "caf") (b_lit "s") x30 x30 x65 x39
              0 0 14 9 eq_refl eq_refl eq_refl eq_refl eq_refl eq_refl) as [A B].
  split; [exact B | exact A].
Defined.

(** X7. On Python 2, [ntou] with the encoding [escape] raises
    [ValueError] when a backslash and [u] are followed by four letters or
    digits of which the third or the fourth is not a hexadecimal digit:
    the pattern takes every letter, and [int] then rejects the match. *)
Theorem ntou_escape_rejects (rt : Runtime) (pre post : bytes) (c1 c2 c3 c4 : byte) :
  PY3 rt = false ->
  existsb (Byte.eqb x5c) pre = false ->
  is_alnum (Byte.to_N c1) && is_alnum (Byte.to_N c2)
  && is_alnum (Byte.to_N c3) && is_alnum (Byte.to_N c4) = true ->
  hex_digit_value (Byte.to_N c3) = None \/ hex_digit_value (Byte.to_N c4) = None ->
  exists msg,
    ntou rt (VBytes (pre ++ x5c :: x75 :: c1 :: c2 :: c3 :: c4 :: post)) "escape"
    = Raise (ValueError msg).
Proof.
  intros P Hpre Ha Hx. rewrite <- backslash_in_text in Hpre.
  rewrite (ntou_escape rt _ P). rewrite map_app. cbn [map].
  rewrite (sub_escapes_plain _ _ Hpre).
  change (Byte.to_N x5c) with 92%N. change (Byte.to_N x75) with 117%N.
  rewrite (sub_escapes_match _ _ _ _ _ Ha).
  exists "invalid literal for int() with base 16"%string.
  unfold int16. destruct Hx as [-> | ->]; [reflexivity|].
  destruct (hex_digit_value (Byte.to_N c3)); reflexivity.
Qed.

Lemma ntou_escape_rejects_witness :
  exists msg, ntou python27 (VBytes (b_lit "a\u12xyb")) "escape" = Raise (ValueError msg).
Proof.
  exact (ntou_escape_rejects python27 (b_lit "a") (b_lit "b") x31 x32 x78 x79
           eq_refl eq_refl eq_refl (or_introl eq_refl)).
Defined.

(** ** base64 with the default encoding *)

(** X8. With the default encoding [base64_decode] of a byte string fails
    only where the base64 decoder fails: on Python 3 the decoded bytes
    become the characters of the same numbers, on Python 2 they are
    returned as they are. *)
Theorem base64_decode_default_encoding (rt : Runtime) (b : bytes) :
  base64_decode rt (VBytes b) default_encoding
  = (payload <- base64_decodebytes_impl rt b ;;
     Ok (if PY3 rt then VText (map Byte.to_N payload) else VBytes payload)).
Proof.
  unfold base64_decode. cbn [isinstance_text bind _base64_decodebytes].
  destruct (base64_decodebytes_impl rt b) as [payload|e]; cbn [bind]; [|reflexivity].
  destruct (PY3 rt); [|reflexivity].
  cbn [py_decode]. now rewrite bytes_decode_default.
Qed.

(** ** [reversed] *)

Lemma reversed_from_list (l tail : list PyVal) :
  reversed_from (list_sequence (l ++ tail)) (List.length l) = exhausted (rev l).
Proof.
  revert tail. induction l as [|a l IH] using rev_ind; intros tail; [reflexivity|].
  rewrite length_app, Nat.add_comm. cbn [List.length Nat.add reversed_from].
  cbn [seq_getitem list_sequence]. rewrite <- app_assoc. cbn [app].
  rewrite nth_error_app2 by lia. rewrite Nat.sub_diag. cbn [nth_error].
  specialize (IH (a :: tail)). unfold list_sequence in IH. cbn [app] in IH.
  unfold list_sequence. rewrite IH. rewrite rev_app_distr. reflexivity.
Qed.

(** X9. The [reversed] of the module, run over a list, yields the items
    of the list from the last to the first and then ends: it never reads
    beyond the list, and reversing twice gives the list back. *)
Theorem reversed_yields_rev (l : list PyVal) :
  reversed (list_sequence l) = exhausted (rev l)
  /\ reversed (list_sequence (rev l)) = exhausted l.
Proof.
  assert (G : forall l, reversed (list_sequence l) = exhausted (rev l)).
  { intros l0. unfold reversed. cbn [seq_len list_sequence].
    pose proof (reversed_from_list l0 []) as H. now rewrite app_nil_r in H. }
  split; [apply G|]. now rewrite G, rev_involutive.
Qed.

(** ** Query strings: plus signs and escapes *)

Lemma ascii_only_around (x mid y : bytes) :
  ascii_only x = true -> ascii_only mid = true -> ascii_only y = true ->
  ascii_only (x ++ mid ++ y) = true.
Proof.
  unfold ascii_only. intros Hx Hm Hy. now rewrite !forallb_app, Hx, Hm, Hy.
Qed.

Lemma percent_around (x y rest : bytes) :
  existsb (Byte.eqb x25) (x ++ x25 :: rest ++ y) = true.
Proof.
  rewrite existsb_app. cbn [existsb]. change (Byte.eqb x25 x25) with true.
  cbn [orb]. apply orb_true_r.
Qed.

(** X10. A plus sign and [%20] are interchangeable in an atom: both
    definitions of [unquote_qs] give the same result for the two atoms.
    For the Python 2 definition this holds for every atom, encoding and
    error handler; for the Python 3 definition on ASCII atoms, when
    another percent sign is there or the encoding decodes ASCII bytes to
    the same characters. *)
Theorem unquote_qs_plus_is_percent_20 (rt : Runtime) (x y : bytes)
    (encoding errors : string) :
  unquote_qs_py2 rt (x ++ x2b :: y) encoding errors
  = unquote_qs_py2 rt (x ++ b_lit "%20" ++ y) encoding errors
  /\ (ascii_only x = true -> ascii_only y = true ->
      existsb (Byte.eqb x25) (x ++ y) = true \/ decodes_ascii_as_is rt encoding ->
      unquote_qs_py3 rt (map Byte.to_N (x ++ x2b :: y)) encoding errors
      = unquote_qs_py3 rt (map Byte.to_N (x ++ b_lit "%20" ++ y)) encoding errors).
Proof.
  assert (E : unquote_to_bytes (replace_plus_bytes (x ++ x2b :: y))
              = unquote_to_bytes (replace_plus_bytes (x ++ b_lit "%20" ++ y))).
  { rewrite unquote_plus_is_space.
    change (x ++ b_lit "%20" ++ y) with (x ++ x25 :: x32 :: x30 :: y).
    now rewrite unquote_escape_is_byte by reflexivity. }
  split.
  - unfold unquote_qs_py2. now rewrite E.
  - intros Hx Hy Hp.
    pose proof (ascii_only_around x [x2b] y Hx eq_refl Hy) as A1.
    pose proof (ascii_only_around x (b_lit "%20") y Hx eq_refl Hy) as A2.
    cbn [app] in A1.
    rewrite (unquote_qs_py3_ascii rt _ encoding errors A1).
    rewrite (unquote_qs_py3_ascii rt _ encoding errors A2).
    change (x ++ b_lit "%20" ++ y) with (x ++ x25 :: [x32; x30] ++ y) at 1.
    rewrite percent_around, <- E.
    assert (P1 : existsb (Byte.eqb x25) (x ++ x2b :: y) = existsb (Byte.eqb x25) (x ++ y)).
    { rewrite !existsb_app. reflexivity. }
    rewrite P1 in *. destruct (existsb (Byte.eqb x25) (x ++ y)) eqn:Pxy; [reflexivity|].
    destruct Hp as [Hp|Hp]; [discriminate|].
    symmetry. rewrite unquote_to_bytes_no_percent
      by (rewrite replace_plus_bytes_percent, !existsb_app; rewrite existsb_app in Pxy;
          exact Pxy).
    apply (bytes_decode_ascii_as_is rt encoding errors _ Hp).
    now apply replace_plus_bytes_ascii.
Qed.

(** X11. An escaped plus sign stays a plus sign: the plus signs are
    replaced before the percent escapes are decoded, so [%2B] gives the
    byte of a plus sign where a plus sign itself gives a space. *)
Theorem unquote_qs_escaped_plus (rt : Runtime) (x y : bytes) (encoding errors : string) :
  unquote_qs_py2 rt (x ++ b_lit "%2B" ++ y) encoding errors
  = bytes_decode rt (unquote_to_bytes (replace_plus_bytes x)
                     ++ x2b :: unquote_to_bytes (replace_plus_bytes y)) encoding errors
  /\ unquote_qs_py2 rt (x ++ b_lit "+" ++ y) encoding errors
     = bytes_decode rt (unquote_to_bytes (replace_plus_bytes x)
                        ++ x20 :: unquote_to_bytes (replace_plus_bytes y)) encoding errors
  /\ (ascii_only x = true -> ascii_only y = true ->
      unquote_qs_py3 rt (map Byte.to_N (x ++ b_lit "%2B" ++ y)) encoding errors
      = bytes_decode rt (unquote_to_bytes (replace_plus_bytes x)
                         ++ x2b :: unquote_to_bytes (replace_plus_bytes y)) encoding errors).
Proof.
  assert (E : unquote_to_bytes (replace_plus_bytes (x ++ b_lit "%2B" ++ y))
              = unquote_to_bytes (replace_plus_bytes x)
                ++ x2b :: unquote_to_bytes (replace_plus_bytes y)).
  { change (x ++ b_lit "%2B" ++ y) with (x ++ x25 :: x32 :: x42 :: y).
    now rewrite unquote_escape_is_byte by reflexivity. }
  split; [|split].
  - unfold unquote_qs_py2. now rewrite E.
  - unfold unquote_qs_py2. change (x ++ b_lit "+" ++ y) with (x ++ x2b :: y).
    now rewrite unquote_plus_is_space.
  - intros Hx Hy.
    pose proof (ascii_only_around x (b_lit "%2B") y Hx eq_refl Hy) as A.
    rewrite (unquote_qs_py3_ascii rt _ encoding errors A).
    change (x ++ b_lit "%2B" ++ y) with (x ++ x25 :: [x32; x42] ++ y) at 1.
    now rewrite percent_around, E.
Qed.

(** X12. A percent sign that is not followed by two hexadecimal digits is
    no error: [unquote_qs] keeps it as it is and goes on with the rest of
    the atom. *)
Theorem unquote_qs_keeps_other_percent (rt : Runtime) (x y : bytes)
    (encoding errors : string) :
  escape_ahead y = false ->
  unquote_qs_py2 rt (x ++ x25 :: y) encoding errors
  = bytes_decode rt (unquote_to_bytes (replace_plus_bytes x)
                     ++ x25 :: unquote_to_bytes (replace_plus_bytes y)) encoding errors
  /\ (ascii_only x = true -> ascii_only y = true ->
      unquote_qs_py3 rt (map Byte.to_N (x ++ x25 :: y)) encoding errors
      = bytes_decode rt (unquote_to_bytes (replace_plus_bytes x)
                         ++ x25 :: unquote_to_bytes (replace_plus_bytes y)) encoding errors).
Proof.
  intros H. split.
  - unfold unquote_qs_py2. now rewrite (unquote_percent_is_kept x y H).
  - intros Hx Hy.
    pose proof (ascii_only_around x [x25] y Hx eq_refl Hy) as A. cbn [app] in A.
    rewrite (unquote_qs_py3_ascii rt _ encoding errors A).
    pose proof (percent_around x y []) as P. cbn [app] in P.
    now rewrite P, (unquote_percent_is_kept x y H).
Qed.

Lemma unquote_qs_keeps_other_percent_witness :
  unquote_qs_py2 python27 (b_lit "100%+sure") "utf-8" "strict" = Ok (u_lit "100% sure")
  /\ unquote_qs_py3 python3 (u_lit "100%") "utf-8" "strict" = Ok (u_lit "100%").
Proof.
  split.
  - exact (proj1 (unquote_qs_keeps_other_percent python27 (b_lit "100") (b_lit "+sure")
                    "utf-8" "strict" eq_refl)).
  - exact (proj2 (unquote_qs_keeps_other_percent python3 (b_lit "100") []
                    "utf-8" "strict" eq_refl) eq_refl eq_refl).
Defined.

(** ** JSON: errors and the bytes on the wire *)

Lemma utf8_encode_ascii (t : text) (pos : nat) :
  ascii_text t = true -> encode_with utf8_enc1 "strict" pos t = inr (map byte_of_N t).
Proof.
  revert pos. induction t as [|c t IH]; intros pos H; [reflexivity|].
  unfold ascii_text in H. cbn [forallb] in H. apply andb_prop in H. destruct H as [Hc Ht].
  cbn [encode_with map]. unfold utf8_enc1 at 1. rewrite Hc.
  now rewrite (IH (S pos) Ht).
Qed.

Lemma utf8_chunks_ascii (fragments : list text) :
  forallb ascii_text fragments = true ->
  utf8_chunks fragments = map (map byte_of_N) fragments.
Proof.
  induction fragments as [|t f IH]; intros H; [reflexivity|].
  cbn [forallb] in H. apply andb_prop in H. destruct H as [Ht Hf].
  unfold utf8_chunks in *. cbn [map]. now rewrite (utf8_encode_ascii t 0 Ht), (IH Hf).
Qed.

Lemma encode_chunks_stop (rt : Runtime) (fragments : list text) (stop : option exn) :
  forallb (forallb is_scalar_value) fragments = true ->
  encode_chunks rt (map VText fragments) stop
  = mkGen (map VBytes (utf8_chunks fragments)) stop.
Proof.
  induction fragments as [|t f IH]; intros H; [reflexivity|].
  cbn [forallb] in H. apply andb_prop in H. destruct H as [Ht Hf].
  destruct (utf8_encode_scalars t 0 Ht) as [b Hb].
  cbn [map encode_chunks py_encode]. rewrite (text_encode_utf8 rt t b Hb). cbn [bind].
  rewrite (IH Hf). unfold utf8_chunks. cbn [map yielded stopped_by]. now rewrite Hb.
Qed.

Lemma forallb_ascii_scalar (fragments : list text) :
  forallb ascii_text fragments = true ->
  forallb (forallb is_scalar_value) fragments = true.
Proof.
  induction fragments as [|t f IH]; intros H; [reflexivity|].
  cbn [forallb] in *. apply andb_prop in H. destruct H as [Ht Hf].
  now rewrite (ascii_text_scalar t Ht), (IH Hf).
Qed.

(** X13. On Python 3 with a JSON library, calling [json_encode] never
    raises: what the encoder raises, at once or after some fragments, ends
    the generator instead, after the chunks of the fragments that came
    before it. *)
Theorem json_encode_defers_errors (rt : Runtime) (lib : JsonLib) (v : PyVal) :
  PY3 rt = true -> json rt = Some lib ->
  (forall e, lib_iterencode lib v = Raise e -> json_encode rt v = Ok (mkGen [] (Some e)))
  /\ (forall fragments stop,
         lib_iterencode lib v = Ok (mkGen (map VText fragments) stop) ->
         forallb (forallb is_scalar_value) fragments = true ->
         json_encode rt v = Ok (mkGen (map VBytes (utf8_chunks fragments)) stop)).
Proof.
  intros P J. unfold json_encode, _json_encode. rewrite J, P. split.
  - intros e ->. reflexivity.
  - intros fragments stop -> H. cbn [yielded stopped_by].
    now rewrite (encode_chunks_stop rt fragments stop H).
Qed.

Lemma json_encode_defers_errors_witness :
  json_encode python3 (VList [VInt 1; VBytes []])
  = Ok (mkGen [VBytes (b_lit "[1"); VBytes (b_lit ", ")]
              (Some (TypeError "Object of type bytes is not JSON serializable"))).
Proof.
  exact (proj2 (json_encode_defers_errors python3 cpython3_json
                  (VList [VInt 1; VBytes []]) eq_refl eq_refl)
               [u_lit "[1"; u_lit ", "]
               (Some (TypeError "Object of type bytes is not JSON serializable"))
               eq_refl eq_refl).
Defined.

(** X14. With the [json] module of CPython 3, the chunks [json_encode]
    yields for a JSON value within the limits of the interpreter
    (integers of at most 4300 digits, containers nested no deeper than
    the encoder can recurse) hold ASCII bytes only, whatever characters
    the strings of the value hold: each chunk is a fragment of the
    encoder, byte for character, and the generator ends normally. *)
Theorem json_encode_is_ascii (rt : Runtime) (room depth : nat) (v : PyVal) :
  PY3 rt = true -> json rt = Some (cpython3_json_at room depth) ->
  json_value v = true -> fits room v = true ->
  json_encode rt v
  = Ok (exhausted (map (fun t => VBytes (map byte_of_N t)) (yielded (iterencode room v))))
  /\ forallb ascii_text (yielded (iterencode room v)) = true
  /\ List.concat (yielded (iterencode room v)) = dumps v.
Proof.
  intros P J Hv F. destruct (iterencode_written v Hv room F) as (Hstop & Hcat & Hascii).
  split; [|split; assumption].
  unfold json_encode, _json_encode. rewrite J, P.
  cbn [lib_iterencode cpython3_json_at json_iterencode yielded stopped_by]. rewrite Hstop.
  rewrite (encode_chunks_stop rt _ None (forallb_ascii_scalar _ Hascii)).
  rewrite (utf8_chunks_ascii _ Hascii), map_map. reflexivity.
Qed.

Lemma json_encode_is_ascii_witness :
  json_encode python3 (VList [VText [233%N]; VText [128512%N]])
  = Ok (exhausted [VBytes (x5b :: x22 :: b_lit "\u00e9" ++ [x22]);
                   VBytes (x2c :: x20 :: x22 :: b_lit "\ud83d\ude00" ++ [x22]);
                   VBytes [x5d]]).
Proof.
  exact (proj1 (json_encode_is_ascii python3 recursion_limit recursion_limit
                  (VList [VText [233%N]; VText [128512%N]])
                  eq_refl eq_refl eq_refl eq_refl)).
Defined.

(** ** Random identifiers are one to one *)

Lemma hex_char_inj (d1 d2 : N) :
  (d1 < 16)%N -> (d2 < 16)%N -> hex_char d1 = hex_char d2 -> d1 = d2.
Proof.
  intros H1 H2 E.
  pose proof (hex_digit_value_hex_char d1 H1) as A.
  pose proof (hex_digit_value_hex_char d2 H2) as B.
  rewrite E in A. congruence.
Qed.

Lemma hexlify_inj (b1 b2 : bytes) : hexlify b1 = hexlify b2 -> b1 = b2.
Proof.
  revert b2. induction b1 as [|x b1 IH]; intros [|y b2] H; try discriminate; [reflexivity|].
  unfold hexlify in H. cbn [flat_map app] in H.
  injection H as Hhi Hlo Hrest.
  pose proof (to_N_lt_256 x) as Bx. pose proof (to_N_lt_256 y) as By.
  assert (Hx : (Byte.to_N x / 16 < 16)%N) by (divmod (Byte.to_N x) 16%N; lia).
  assert (Hy : (Byte.to_N y / 16 < 16)%N) by (divmod (Byte.to_N y) 16%N; lia).
  apply hex_char_inj in Hhi; [|assumption..].
  apply hex_char_inj in Hlo; [|apply N.mod_lt; discriminate..].
  f_equal; [|now apply IH].
  apply to_N_inj.
  rewrite (N.div_mod (Byte.to_N x) 16) by discriminate.
  rewrite (N.div_mod (Byte.to_N y) 16) by discriminate.
  now rewrite Hhi, Hlo.
Qed.

Lemma map_to_N_inj (b1 b2 : bytes) : map Byte.to_N b1 = map Byte.to_N b2 -> b1 = b2.
Proof.
  revert b2. induction b1 as [|x b1 IH]; intros [|y b2] H; try discriminate; [reflexivity|].
  cbn [map] in H. injection H as Hx Hr. f_equal; [now apply to_N_inj | now apply IH].
Qed.

Lemma random20_value (rt : Runtime) (e : Entropy) :
  fst (random20 rt e) = Ok (VText (map Byte.to_N (hexlify (fst (urandom 20 e))))).
Proof.
  destruct (hexlify_spec (fst (urandom 20 e))) as (_ & Ha & _).
  unfold random20, urandom. cbn [fst snd py_decode].
  change (hexlify (map (pool e) (seq (drawn e) 20)))
    with (hexlify (fst (urandom 20 e))).
  now rewrite (ascii_decode rt "strict" _ Ha).
Qed.

(** X15. [random20] is one to one: two calls return the same identifier
    exactly when the twenty bytes they read from the entropy source are
    the same, on whatever runtimes. *)
Theorem random20_injective (rt rt' : Runtime) (e e' : Entropy) :
  fst (random20 rt e) = fst (random20 rt' e') <->
  (forall i, i < 20 -> pool e (drawn e + i) = pool e' (drawn e' + i)).
Proof.
  rewrite !random20_value. split.
  - intros H.
    assert (I : forall a b : text, @Ok PyVal (VText a) = Ok (VText b) -> a = b)
      by (intros a b E; now injection E).
    apply I, map_to_N_inj, hexlify_inj in H.
    unfold urandom in H. cbn [fst] in H. intros i Hi.
    assert (N1 : nth_error (map (pool e) (seq (drawn e) 20)) i = Some (pool e (drawn e + i))).
    { rewrite nth_error_map, nth_error_seq.
      destruct (Nat.ltb_spec i 20); [reflexivity | lia]. }
    assert (N2 : nth_error (map (pool e') (seq (drawn e') 20)) i
                 = Some (pool e' (drawn e' + i))).
    { rewrite nth_error_map, nth_error_seq.
      destruct (Nat.ltb_spec i 20); [reflexivity | lia]. }
    rewrite H in N1. congruence.
  - intros H.
    assert (R : fst (urandom 20 e) = fst (urandom 20 e')).
    { unfold urandom. cbn [fst]. apply nth_error_ext. intros i.
      rewrite !nth_error_map, !nth_error_seq.
      destruct (Nat.ltb_spec i 20); [|reflexivity]. cbn [option_map]. now rewrite H. }
    now rewrite R.
Qed.

(** ** The MAC address: the log and the first address *)

Lemma get_mac_loop_log (mac : string) (count : nat) (k : Kodi) :
  let '(_, count', k') := get_mac_loop mac count k in
  count <= count'
  /\ kodi_log k' = kodi_log k ++ repeat waiting_line (count' - count).
Proof.
  funelim (get_mac_loop mac count k).
  - rewrite Nat.sub_diag. cbn [repeat]. now rewrite app_nil_r.
  - clear Heq Heq0.
    destruct (get_mac_loop (fst (poll_mac k)) (S count) (snd (poll_mac k)))
      as [[mac' count'] k'].
    destruct H as [H1 H2]. split; [lia|]. rewrite H2.
    unfold poll_mac, getInfoLabel, xbmc_sleep, log_msg, xbmc_log.
    cbn [fst snd kodi_log]. rewrite <- app_assoc. f_equal.
    replace (count' - count) with (S (count' - S count)) by lia. reflexivity.
  - rewrite Nat.sub_diag. cbn [repeat]. now rewrite app_nil_r.
Qed.

Lemma has_colon_lower (s : string) : has_colon (lower s) = has_colon s.
Proof.
  induction s as [|a s IH]; [reflexivity|].
  cbn [lower has_colon]. now rewrite lower_ascii_colon, IH.
Qed.

(** X16. [get_mac] adds to the log one line for each request it makes and
    then one last line: that the detection failed when it returns the
    empty string, which it does only after 360 requests, and the address
    it returns otherwise.  It logs nothing else and leaves the lines that
    were there. *)
Theorem get_mac_log (k : Kodi) :
  let mac := fst (get_mac k) in
  let n := requests (snd (get_mac k)) - requests k in
  kodi_log (snd (get_mac k)) = kodi_log k ++ repeat waiting_line n ++ [verdict_line mac]
  /\ (mac = EmptyString -> n = 360).
Proof.
  cbv zeta. pose proof (get_mac_loop_log EmptyString 0 k) as L.
  pose proof (get_mac_loop_post EmptyString 0 k) as P.
  unfold get_mac. destruct (get_mac_loop EmptyString 0 k) as [[mac count] k1].
  destruct L as [_ L]. unfold loop_post in P.
  destruct P as (_ & H2 & H3 & _ & _ & _ & _ & H8 & _).
  rewrite Nat.sub_0_r in *.
  assert (Hn : requests k1 - requests k = count) by lia.
  destruct mac as [|a mac]; cbn [fst snd]; unfold log_msg, xbmc_log;
    cbn [kodi_log requests]; rewrite Hn, L, <- app_assoc.
  - split; [reflexivity|]. intros _. specialize (H8 eq_refl). lia.
  - split; [reflexivity|]. discriminate.
Qed.

(** X17. When one of the first 360 labels holds a colon, [get_mac]
    returns the first such label in lower case, right after the request
    that read it and the second of sleep that follows: it makes no further
    request, and it does not look at the form of the address. *)
Theorem get_mac_first_colon (k : Kodi) (i : nat) :
  i < 360 ->
  has_colon (mac_label k (requests k + i)) = true ->
  (forall j, j < i -> has_colon (mac_label k (requests k + j)) = false) ->
  fst (get_mac k) = lower (mac_label k (requests k + i))
  /\ requests (snd (get_mac k)) = requests k + S i
  /\ slept (snd (get_mac k)) = (slept k + 1000 * N.of_nat (S i))%N.
Proof.
  intros Hi Hc Hbefore.
  destruct (get_mac_result k) as (mac & count & k1 & E & -> & -> & ->).
  pose proof (get_mac_loop_post EmptyString 0 k) as P. rewrite E in P. unfold loop_post in P.
  destruct P as (_ & H2 & H3 & _ & H5 & _ & H7 & H8 & _ & H10 & H11).
  rewrite Nat.sub_0_r in *. specialize (H2 ltac:(lia)). specialize (H10 eq_refl ltac:(lia)).
  specialize (H7 H10).
  assert (Hcount : count = S i).
  { destruct (Nat.lt_trichotomy count (S i)) as [Lt | [Eq | Gt]]; [|exact Eq|].
    - assert (C : has_colon mac = false).
      { rewrite H7, has_colon_lower.
        replace (requests k1 - 1) with (requests k + (count - 1)) by lia.
        apply Hbefore. lia. }
      specialize (H8 C). lia.
    - specialize (H11 (requests k + i) ltac:(lia) ltac:(lia)).
      rewrite has_colon_lower in H11. congruence. }
  subst count. split; [|split].
  - rewrite H7. f_equal. f_equal. lia.
  - exact H3.
  - exact H5.
Qed.

Lemma get_mac_first_colon_witness :
  let k := mkKodi (fun i => if Nat.ltb i 2 then "Busy" else "AA:BB:0C:1D:2E:3F")%string
                  0 0 [] in
  fst (get_mac k) = "aa:bb:0c:1d:2e:3f"%string
  /\ requests (snd (get_mac k)) = 3
  /\ slept (snd (get_mac k)) = 3000%N.
Proof.
  cbv zeta.
  assert (B : forall j, j < 2 ->
    has_colon (mac_label
      (mkKodi (fun i => if Nat.ltb i 2 then "Busy" else "AA:BB:0C:1D:2E:3F")%string 0 0 [])
      (0 + j)) = false).
  { intros j Hj. destruct j as [|[|j]]; [reflexivity | reflexivity | lia]. }
  assert (L : 2 < 360) by lia.
  exact (get_mac_first_colon
           (mkKodi (fun i => if Nat.ltb i 2 then "Busy" else "AA:BB:0C:1D:2E:3F")%string
                   0 0 [])
           2 L eq_refl B).
Defined.
(** ** base64: what the decoder of CPython 3 skips *)

Lemma a2b_loop_skip (x : byte) (s2 : bytes) :
  Byte.eqb x x3d = false -> b64_value x = None ->
  forall (s1 : bytes) (quad_pos : nat) (leftchar : N) (pads ndata : nat),
    a2b_loop quad_pos leftchar pads ndata (s1 ++ x :: s2)
    = a2b_loop quad_pos leftchar pads ndata (s1 ++ s2).
Proof.
  intros Hx Hv. induction s1 as [|a s1 IH]; intros quad_pos leftchar pads ndata.
  - cbn [app a2b_loop]. now rewrite Hx, Hv.
  - cbn [app a2b_loop]. destruct (Byte.eqb a x3d).
    + destruct (Nat.leb 2 quad_pos); [|apply IH].
      destruct (Nat.leb 4 (quad_pos + S pads)); [reflexivity | apply IH].
    + destruct (b64_value a) as [v|]; [|apply IH].
      destruct quad_pos as [|[|[|q]]]; now rewrite IH.
Qed.

(** X18. With the decoder of CPython 3, [base64_decode] skips every byte
    that is neither in the base64 alphabet nor the padding character: a
    line break or a space anywhere in the input changes nothing of the
    result, be it a value or an error. *)
Theorem base64_decode_skips_other_bytes (rt : Runtime) (s1 s2 : bytes) (x : byte)
    (encoding : string) :
  base64_decodebytes_impl rt = a2b_base64 ->
  Byte.eqb x x3d = false -> b64_value x = None ->
  base64_decode rt (VBytes (s1 ++ x :: s2)) encoding
  = base64_decode rt (VBytes (s1 ++ s2)) encoding.
Proof.
  intros Himpl Hx Hv. unfold base64_decode.
  cbn [isinstance_text bind _base64_decodebytes]. rewrite Himpl.
  unfold a2b_base64. now rewrite (a2b_loop_skip x s2 Hx Hv).
Qed.

Lemma base64_decode_skips_other_bytes_witness :
  base64_decode python3 (VBytes (b_lit "aGVs" ++ x0a :: b_lit "bG8=")) "ISO-8859-1"
  = Ok (VText (u_lit "hello")).
Proof.
  rewrite (base64_decode_skips_other_bytes python3 (b_lit "aGVs") (b_lit "bG8=") x0a
             "ISO-8859-1" eq_refl eq_refl eq_refl).
  reflexivity.
Defined.

(** ** [sorted] *)

Lemma heap_set_other (h : Heap) (a b : nat) (items : list PyVal) :
  a <> b -> heap_get (heap_set h a items) b = heap_get h b.
Proof.
  unfold heap_get. revert a b. induction h as [|l h IH]; intros a b H; [now destruct a|].
  destruct a as [|a], b as [|b]; cbn [heap_set nth_error]; try reflexivity.
  - now elim H.
  - apply IH. lia.
Qed.

Lemma heap_set_same (h : Heap) (a : nat) (items : list PyVal) :
  a < List.length h -> heap_get (heap_set h a items) a = Some items.
Proof.
  unfold heap_get. revert a. induction h as [|l h IH]; intros a H; [cbn in H; lia|].
  destruct a as [|a]; cbn [heap_set nth_error]; [reflexivity|].
  apply IH. cbn in H. lia.
Qed.

(** X19. The [sorted] of the module changes no list that was there: it
    copies its argument and sorts the copy in place.  The list it returns
    is a new one holding what [list.sort] made of the items; when a
    comparison raises, the exception comes out and the argument is still
    as it was. *)
Theorem sorted_leaves_its_argument (list_sort : list PyVal -> list PyVal * option exn)
    (h : Heap) (i : nat) (items : list PyVal) :
  heap_get h i = Some items ->
  (forall a l, heap_get h a = Some l -> heap_get (snd (sorted list_sort h i)) a = Some l)
  /\ heap_get (snd (sorted list_sort h i)) (List.length h) = Some (fst (list_sort items))
  /\ fst (sorted list_sort h i)
     = match snd (list_sort items) with
       | Some e => Raise e
       | None => Ok (List.length h)
       end.
Proof.
  intros Hi. unfold sorted. rewrite Hi. unfold heap_alloc.
  destruct (list_sort items) as [items' raised]. cbn [fst snd].
  assert (A : forall a l, heap_get h a = Some l ->
              heap_get (heap_set (h ++ [items]) (List.length h) items') a = Some l).
  { intros a l Ha.
    assert (La : a < List.length h) by (apply nth_error_Some; unfold heap_get in Ha; congruence).
    rewrite heap_set_other by lia. unfold heap_get in *. now rewrite nth_error_app1. }
  assert (B : heap_get (heap_set (h ++ [items]) (List.length h) items') (List.length h)
              = Some items').
  { apply heap_set_same. rewrite length_app. cbn. lia. }
  destruct raised; cbn [fst snd]; repeat split; assumption.
Qed.

Lemma sorted_leaves_its_argument_witness :
  let h := [[VInt 3; VInt 1; VInt 2]] in
  let list_sort := fun _ : list PyVal => ([VInt 1; VInt 2; VInt 3], @None exn) in
  heap_get (snd (sorted list_sort h 0)) 0 = Some [VInt 3; VInt 1; VInt 2]
  /\ fst (sorted list_sort h 0) = Ok 1
  /\ heap_get (snd (sorted list_sort h 0)) 1 = Some [VInt 1; VInt 2; VInt 3].
Proof.
  cbv zeta.
  destruct (sorted_leaves_its_argument
              (fun _ : list PyVal => ([VInt 1; VInt 2; VInt 3], @None exn))
              [[VInt 3; VInt 1; VInt 2]] 0 [VInt 3; VInt 1; VInt 2] eq_refl)
    as (A & B & C).
  split; [exact (A 0 _ eq_refl)|]. split; [exact C | exact B].
Defined.

(** ** Query strings under ISO-8859-1 *)

Lemma unquote_runs_latin1 (rt : Runtime) (runs : list (text * text)) :
  exists t, unquote_runs rt runs "ISO-8859-1" "strict" = Ok t.
Proof.
  induction runs as [|[run after] runs [t IH]]; [now exists []|].
  cbn [unquote_runs]. rewrite bytes_decode_latin1. cbn [bind]. rewrite IH. cbn [bind].
  eexists. reflexivity.
Qed.

(** X20. With the encoding ISO-8859-1 [unquote_qs] cannot fail on a
    native string, on either runtime: every byte is a character of this
    encoding, and a percent sign that starts no escape is kept. *)
Theorem unquote_qs_latin1_total (rt : Runtime) (atom : PyVal) :
  isinstance_str rt atom = true ->
  exists t, unquote_qs rt atom "ISO-8859-1" "strict" = Ok (VText t).
Proof.
  unfold isinstance_str, unquote_qs, has_urllib_parse.
  destruct (PY3 rt) eqn:P; destruct atom; cbn [negb]; try discriminate; intros _.
  - unfold unquote_qs_py3, parse_unquote.
    destruct (negb (existsb (N.eqb 37) (replace_plus_text t))); [eexists; reflexivity|].
    destruct (asciire_split (replace_plus_text t)) as [first runs].
    destruct (unquote_runs_latin1 rt runs) as [r Hr]. rewrite Hr. cbn [bind].
    eexists. reflexivity.
  - unfold unquote_qs_py2. rewrite bytes_decode_latin1. cbn [bind].
    eexists. reflexivity.
Qed.

Lemma unquote_qs_latin1_total_witness :
  exists t, unquote_qs python3 (VText (u_lit "%ff%zz+%")) "ISO-8859-1" "strict" = Ok (VText t).
Proof.
  exact (unquote_qs_latin1_total python3 (VText (u_lit "%ff%zz+%")) eq_refl).
Defined.
